(** * Heuristic metadata extraction ([work.py]): a shallow embedding

    The development follows the layout of the Python module: string
    primitives and regular expressions, the attribute resolver over the
    parsed document tree, the three field parsers ([find_title],
    [find_dates], [find_authors]), the flattener [store_recursive] and the
    per-document driver [handle_sample].

    Conventions.
    - Text (node contents, attribute values) is a list of Unicode code
      points, [ustr]; identifiers that the program only compares and
      concatenates (tag names, attribute names, dictionary keys, column
      names) are [string]s.
    - A Python call that may raise is a value of [res]; code that also
      mutates a dictionary it was handed is a state transformer [M] whose
      state survives an exception, as a mutated Python object does. *)

From Stdlib Require Import ZArith NArith Ascii String List Lia.
From stdpp Require Import gmap strings list fin_maps pretty.

Local Open Scope string_scope.
Local Open Scope list_scope.

(** ** Exceptions and the two effect types *)

Inductive exn : Type :=
| InsufficientParser
| KeyError
| ValueError
| TypeError
| IndexError
| AssertionError
| AttributeError
| StopIteration
| PlainException.

Inductive res (A : Type) : Type :=
| Ok (a : A)
| Raise (e : exn).
Arguments Ok {A} a.
Arguments Raise {A} e.

Definition res_bind {A B} (x : res A) (f : A -> res B) : res B :=
  match x with
  | Ok a => f a
  | Raise e => Raise e
  end.

Declare Scope res_scope.
Delimit Scope res_scope with res.
Notation "'let?' x ':=' e 'in' k" := (res_bind e (fun x => k))
  (at level 10, x pattern, e at level 100, k at level 200) : res_scope.

(** State transformer with exceptions; the state is returned in both cases. *)
Definition M (S A : Type) : Type := S -> res A * S.

Definition ret {S A} (a : A) : M S A := fun s => (Ok a, s).
Definition throw {S A} (e : exn) : M S A := fun s => (Raise e, s).
Definition bind {S A B} (m : M S A) (f : A -> M S B) : M S B :=
  fun s => match m s with
           | (Ok a, s') => f a s'
           | (Raise e, s') => (Raise e, s')
           end.
Definition lift {S A} (r : res A) : M S A := fun s => (r, s).
Definition get_state {S} : M S S := fun s => (Ok s, s).
Definition modify {S} (f : S -> S) : M S unit := fun s => (Ok tt, f s).

Declare Scope m_scope.
Delimit Scope m_scope with M.
Notation "x <- e ;; k" := (bind e (fun x => k))
  (at level 100, e at next level, right associativity) : m_scope.
Notation "e ;;; k" := (bind e (fun _ => k))
  (at level 100, right associativity) : m_scope.

(** ** Python strings *)

(** A [str] holding text: its code points. *)
Definition ustr : Type := list N.

(** The code points of an ASCII literal. *)
Definition u (s : string) : ustr := map N_of_ascii (list_ascii_of_string s).

Definition in_ranges (c : N) (rs : list (N * N)) : bool :=
  existsb (fun r => (fst r <=? c)%N && (c <=? snd r)%N) rs.

(** [str.isspace] on one character: the characters [str.strip()] removes. *)
Definition py_isspace (c : N) : bool :=
  in_ranges c [ (0x09, 0x0D); (0x1C, 0x20); (0x85, 0x85); (0xA0, 0xA0);
                (0x1680, 0x1680); (0x2000, 0x200A); (0x2028, 0x2029);
                (0x202F, 0x202F); (0x205F, 0x205F); (0x3000, 0x3000) ]%N.

Fixpoint lstrip (s : ustr) : ustr :=
  match s with
  | c :: s' => if py_isspace c then lstrip s' else s
  | [] => []
  end.

Definition rstrip (s : ustr) : ustr := rev (lstrip (rev s)).

(** [s.strip()] *)
Definition strip (s : ustr) : ustr := rstrip (lstrip s).

(** [s.lower()], restricted to what a comparison against an ASCII keyword
    can observe: ASCII capitals, and the two other code points whose
    lower-case form contains an ASCII letter (U+0130 and the Kelvin sign
    U+212A).  Every other code point lower-cases to non-ASCII text and is
    left as it is. *)
Definition lower_char (c : N) : ustr :=
  if ((0x41 <=? c) && (c <=? 0x5A))%N then [(c + 32)%N]
  else if (c =? 0x130)%N then [0x69; 0x307]%N
  else if (c =? 0x212A)%N then [0x6B]%N
  else [c].

Definition lower (s : ustr) : ustr := flat_map lower_char s.

Fixpoint ustr_eqb (a b : ustr) : bool :=
  match a, b with
  | [], [] => true
  | x :: a', y :: b' => (x =? y)%N && ustr_eqb a' b'
  | _, _ => false
  end.

(** [s.startswith(p)] *)
Fixpoint startswith (s p : ustr) : bool :=
  match p, s with
  | [], _ => true
  | x :: p', y :: s' => (x =? y)%N && startswith s' p'
  | _ :: _, [] => false
  end.

(** [s.split(sep)] for a one-character separator: never empty. *)
Fixpoint split (sep : N) (s : ustr) : list ustr :=
  match s with
  | [] => [[]]
  | c :: s' =>
      if (c =? sep)%N then [] :: split sep s'
      else match split sep s' with
           | w :: ws => (c :: w) :: ws
           | [] => [[c]]
           end
  end.

(** [int(s)] on text, as CPython 3.11 reads it: white space at both
    ends is skipped, then comes an optional sign, then decimal digits with
    single underscores allowed between them; anything else is a
    [ValueError].  The white space is that of [str.isspace] without U+001C
    to U+001F; the digits are the decimal digits of Unicode 14 (category
    Nd), which come in runs of ten from a zero; and a text of more than
    4300 digits is refused. *)
Definition int_isspace (c : N) : bool :=
  in_ranges c [ (0x09, 0x0D); (0x20, 0x20); (0x85, 0x85); (0xA0, 0xA0);
                (0x1680, 0x1680); (0x2000, 0x200A); (0x2028, 0x2029);
                (0x202F, 0x202F); (0x205F, 0x205F); (0x3000, 0x3000) ]%N.

Fixpoint int_lstrip (s : ustr) : ustr :=
  match s with
  | c :: s' => if int_isspace c then int_lstrip s' else s
  | [] => []
  end.

Definition int_strip (s : ustr) : ustr := rev (int_lstrip (rev (int_lstrip s))).

Definition DECIMAL_ZEROS : list N :=
  [ 0x30; 0x660; 0x6F0; 0x7C0; 0x966; 0x9E6; 0xA66; 0xAE6; 0xB66; 0xBE6;
    0xC66; 0xCE6; 0xD66; 0xDE6; 0xE50; 0xED0; 0xF20; 0x1040; 0x1090; 0x17E0;
    0x1810; 0x1946; 0x19D0; 0x1A80; 0x1A90; 0x1B50; 0x1BB0; 0x1C40; 0x1C50;
    0xA620; 0xA8D0; 0xA900; 0xA9D0; 0xA9F0; 0xAA50; 0xABF0; 0xFF10; 0x104A0;
    0x10D30; 0x11066; 0x110F0; 0x11136; 0x111D0; 0x112F0; 0x11450; 0x114D0;
    0x11650; 0x116C0; 0x11730; 0x118E0; 0x11950; 0x11C50; 0x11D50; 0x11DA0;
    0x16A60; 0x16AC0; 0x16B50; 0x1D7CE; 0x1D7D8; 0x1D7E2; 0x1D7EC; 0x1D7F6;
    0x1E140; 0x1E2F0; 0x1E950; 0x1FBF0 ]%N.

Definition digit_value (c : N) : option N :=
  match find (fun z => (z <=? c) && (c <=? z + 9))%N DECIMAL_ZEROS with
  | Some z => Some (c - z)%N
  | None => None
  end.

Definition MAX_STR_DIGITS : nat := 4300.

Fixpoint int_digits (acc : Z) (count : nat) (after_digit : bool) (s : ustr) : res Z :=
  match s with
  | [] =>
      if after_digit && (count <=? MAX_STR_DIGITS)%nat then Ok acc else Raise ValueError
  | c :: s' =>
      match digit_value c with
      | Some d => int_digits (acc * 10 + Z.of_N d) (Datatypes.S count) true s'
      | None =>
          if ((c =? 0x5F)%N && after_digit)%bool then int_digits acc count false s'
          else Raise ValueError
      end
  end.

Definition py_int (s : ustr) : res Z :=
  match int_strip s with
  | c :: s' =>
      if (c =? 0x2D)%N then
        match int_digits 0 0 false s' with Ok z => Ok (- z)%Z | Raise e => Raise e end
      else if (c =? 0x2B)%N then int_digits 0 0 false s'
      else int_digits 0 0 false (c :: s')
  | [] => Raise ValueError
  end.

(** ** Regular expressions

    The fragment of [re] the module uses, with the backtracking order of
    the Python engine: alternatives left to right, [?] and [+] greedy. *)

Inductive regex : Type :=
| RSet (rs : list (N * N))      (* [...] given by inclusive ranges *)
| RCat (a b : regex)
| RAlt (a b : regex)
| ROpt (a : regex)              (* a? *)
| RPlus (a : regex)             (* a+ *)
| RGroup (a : regex)            (* ( a ), capturing *)
| RNonCap (a : regex)           (* (?: a ) *)
| RBol.                         (* ^ *)

(** Number of capturing groups: the length of [m.groups()]. *)
Fixpoint ngroups (r : regex) : nat :=
  match r with
  | RSet _ | RBol => 0
  | RCat a b | RAlt a b => ngroups a + ngroups b
  | ROpt a | RPlus a | RNonCap a => ngroups a
  | RGroup a => S (ngroups a)
  end.

Definition or_else {A} (x : option A) (y : option A) : option A :=
  match x with Some _ => x | None => y end.

(** The iteration of [a+]: one more match of [a] ([step] is the engine for
    [a]), then either another round or the continuation, in that order.
    A round that consumes nothing is not repeated; [fuel] bounds the
    number of rounds. *)
Definition plus_loop {A} (step : nat -> ustr -> (nat -> ustr -> option A) -> option A)
    (k : nat -> ustr -> option A) : nat -> nat -> ustr -> option A :=
  fix loop (fuel pos : nat) (s : ustr) {struct fuel} : option A :=
    match fuel with
    | O => None
    | S fuel' =>
        step pos s (fun pos' s' =>
          or_else (if (pos <? pos')%nat then loop fuel' pos' s' else None)
                  (k pos' s'))
    end.

(** [re_exec r pos s k]: match [r] against [s], the text from offset [pos]
    on, and hand the offset and the rest to the continuation [k]; [None]
    makes the engine backtrack.  The rounds of [+] are bounded by the
    length of the text, which is never the limit (see
    [plus_loop_enough_fuel]). *)
Fixpoint re_exec {A} (r : regex) (pos : nat) (s : ustr)
    (k : nat -> ustr -> option A) : option A :=
  match r with
  | RSet rs =>
      match s with
      | c :: s' => if in_ranges c rs then k (S pos) s' else None
      | [] => None
      end
  | RCat a b => re_exec a pos s (fun pos' s' => re_exec b pos' s' k)
  | RAlt a b => or_else (re_exec a pos s k) (re_exec b pos s k)
  | ROpt a => or_else (re_exec a pos s k) (k pos s)
  | RPlus a => plus_loop (re_exec a) k (S (length s)) pos s
  | RGroup a | RNonCap a => re_exec a pos s k
  | RBol => if (pos =? 0)%nat then k pos s else None
  end.

(** [r.match(s)]: the end offset of the match at offset 0, if any. *)
Definition re_match (r : regex) (s : ustr) : option nat :=
  re_exec r 0 s (fun pos' _ => Some pos').

(** [r.search(s)]: the span of the leftmost match. *)
Fixpoint re_search_from (r : regex) (pos : nat) (s : ustr) : option (nat * nat) :=
  match re_exec r pos s (fun pos' _ => Some (pos, pos')) with
  | Some sp => Some sp
  | None =>
      match s with
      | _ :: s' => re_search_from r (S pos) s'
      | [] => None
      end
  end.

Definition re_search (r : regex) (s : ustr) : option (nat * nat) :=
  re_search_from r 0 s.

(** [r.sub(repl, s)] for a pattern that never matches the empty string;
    the fuel is the length of the text and is never the limit (see
    [re_sub_enough_fuel]). *)
Fixpoint re_sub_from (fuel : nat) (r : regex) (repl : ustr) (pos : nat) (s : ustr) : ustr :=
  match fuel with
  | O => s
  | S fuel' =>
      match s with
      | [] => []
      | c :: s' =>
          match re_exec r pos s (fun pos' rest => Some (pos', rest)) with
          | Some (pos', rest) =>
              if (pos <? pos')%nat then repl ++ re_sub_from fuel' r repl pos' rest
              else c :: re_sub_from fuel' r repl (S pos) s'
          | None => c :: re_sub_from fuel' r repl (S pos) s'
          end
      end
  end.

Definition re_sub (r : regex) (repl : ustr) (s : ustr) : ustr :=
  re_sub_from (S (length s)) r repl 0 s.

(** *** The character tables of the module *)

Definition _RE_UPPERCASE : list (N * N) :=
  [ (0x41, 0x5A); (0xC0, 0xD6); (0xD8, 0xDE); (0x100, 0x100); (0x102, 0x102); (0x104, 0x104);
    (0x106, 0x106); (0x108, 0x108); (0x10A, 0x10A); (0x10C, 0x10C); (0x10E, 0x10E); (0x110, 0x110);
    (0x112, 0x112); (0x114, 0x114); (0x116, 0x116); (0x118, 0x118); (0x11A, 0x11A); (0x11C, 0x11C);
    (0x11E, 0x11E); (0x120, 0x120); (0x122, 0x122); (0x124, 0x124); (0x126, 0x126); (0x128, 0x128);
    (0x12A, 0x12A); (0x12C, 0x12C); (0x12E, 0x12E); (0x130, 0x130); (0x132, 0x132); (0x134, 0x134);
    (0x136, 0x136); (0x139, 0x139); (0x13B, 0x13B); (0x13D, 0x13D); (0x13F, 0x13F); (0x141, 0x141);
    (0x143, 0x143); (0x145, 0x145); (0x147, 0x147); (0x14A, 0x14A); (0x14C, 0x14C); (0x14E, 0x14E);
    (0x150, 0x150); (0x152, 0x152); (0x154, 0x154); (0x156, 0x156); (0x158, 0x158); (0x15A, 0x15A);
    (0x15C, 0x15C); (0x15E, 0x15E); (0x160, 0x160); (0x162, 0x162); (0x164, 0x164); (0x166, 0x166);
    (0x168, 0x168); (0x16A, 0x16A); (0x16C, 0x16C); (0x16E, 0x16E); (0x170, 0x170); (0x172, 0x172);
    (0x174, 0x174); (0x176, 0x176); (0x178, 0x178); (0x179, 0x179); (0x17B, 0x17B); (0x17D, 0x17D);
    (0x181, 0x181); (0x182, 0x182); (0x184, 0x184); (0x186, 0x186); (0x187, 0x187); (0x189, 0x18B);
    (0x18E, 0x191); (0x193, 0x193); (0x194, 0x194); (0x196, 0x198); (0x19C, 0x19C); (0x19D, 0x19D);
    (0x19F, 0x19F); (0x1A0, 0x1A0); (0x1A2, 0x1A2); (0x1A4, 0x1A4); (0x1A6, 0x1A6); (0x1A7, 0x1A7);
    (0x1A9, 0x1A9); (0x1AC, 0x1AC); (0x1AE, 0x1AE); (0x1AF, 0x1AF); (0x1B1, 0x1B3); (0x1B5, 0x1B5);
    (0x1B7, 0x1B7); (0x1B8, 0x1B8); (0x1BC, 0x1BC); (0x1C4, 0x1C4); (0x1C7, 0x1C7); (0x1CA, 0x1CA);
    (0x1CD, 0x1CD); (0x1CF, 0x1CF); (0x1D1, 0x1D1); (0x1D3, 0x1D3); (0x1D5, 0x1D5); (0x1D7, 0x1D7);
    (0x1D9, 0x1D9); (0x1DB, 0x1DB); (0x1DE, 0x1DE); (0x1E0, 0x1E0); (0x1E2, 0x1E2); (0x1E4, 0x1E4);
    (0x1E6, 0x1E6); (0x1E8, 0x1E8); (0x1EA, 0x1EA); (0x1EC, 0x1EC); (0x1EE, 0x1EE); (0x1F1, 0x1F1);
    (0x1F4, 0x1F4); (0x1F6, 0x1F8); (0x1FA, 0x1FA); (0x1FC, 0x1FC); (0x1FE, 0x1FE); (0x200, 0x200);
    (0x202, 0x202); (0x204, 0x204); (0x206, 0x206); (0x208, 0x208); (0x20A, 0x20A); (0x20C, 0x20C);
    (0x20E, 0x20E); (0x210, 0x210); (0x212, 0x212); (0x214, 0x214); (0x216, 0x216); (0x218, 0x218);
    (0x21A, 0x21A); (0x21C, 0x21C); (0x21E, 0x21E); (0x220, 0x220); (0x222, 0x222); (0x224, 0x224);
    (0x226, 0x226); (0x228, 0x228); (0x22A, 0x22A); (0x22C, 0x22C); (0x22E, 0x22E); (0x230, 0x230);
    (0x232, 0x232); (0x23A, 0x23A); (0x23B, 0x23B); (0x23D, 0x23D); (0x23E, 0x23E); (0x241, 0x241);
    (0x243, 0x246); (0x248, 0x248); (0x24A, 0x24A); (0x24C, 0x24C); (0x24E, 0x24E); (0x370, 0x370);
    (0x372, 0x372); (0x376, 0x376); (0x37F, 0x37F); (0x386, 0x386); (0x388, 0x38A); (0x38C, 0x38C);
    (0x38E, 0x38E); (0x38F, 0x38F); (0x391, 0x3A1); (0x3A3, 0x3AB); (0x3CF, 0x3CF); (0x3D2, 0x3D4);
    (0x3D8, 0x3D8); (0x3DA, 0x3DA); (0x3DC, 0x3DC); (0x3DE, 0x3DE); (0x3E0, 0x3E0); (0x3E2, 0x3E2);
    (0x3E4, 0x3E4); (0x3E6, 0x3E6); (0x3E8, 0x3E8); (0x3EA, 0x3EA); (0x3EC, 0x3EC); (0x3EE, 0x3EE);
    (0x3F4, 0x3F4); (0x3F7, 0x3F7); (0x3F9, 0x3F9); (0x3FA, 0x3FA); (0x3FD, 0x42F); (0x460, 0x460);
    (0x462, 0x462); (0x464, 0x464); (0x466, 0x466); (0x468, 0x468); (0x46A, 0x46A); (0x46C, 0x46C);
    (0x46E, 0x46E); (0x470, 0x470); (0x472, 0x472); (0x474, 0x474); (0x476, 0x476); (0x478, 0x478);
    (0x47A, 0x47A); (0x47C, 0x47C); (0x47E, 0x47E); (0x480, 0x480); (0x48A, 0x48A); (0x48C, 0x48C);
    (0x48E, 0x48E); (0x490, 0x490); (0x492, 0x492); (0x494, 0x494); (0x496, 0x496); (0x498, 0x498);
    (0x49A, 0x49A); (0x49C, 0x49C); (0x49E, 0x49E); (0x4A0, 0x4A0); (0x4A2, 0x4A2); (0x4A4, 0x4A4);
    (0x4A6, 0x4A6); (0x4A8, 0x4A8); (0x4AA, 0x4AA); (0x4AC, 0x4AC); (0x4AE, 0x4AE); (0x4B0, 0x4B0);
    (0x4B2, 0x4B2); (0x4B4, 0x4B4); (0x4B6, 0x4B6); (0x4B8, 0x4B8); (0x4BA, 0x4BA); (0x4BC, 0x4BC);
    (0x4BE, 0x4BE); (0x4C0, 0x4C0); (0x4C1, 0x4C1); (0x4C3, 0x4C3); (0x4C5, 0x4C5); (0x4C7, 0x4C7);
    (0x4C9, 0x4C9); (0x4CB, 0x4CB); (0x4CD, 0x4CD); (0x4D0, 0x4D0); (0x4D2, 0x4D2); (0x4D4, 0x4D4);
    (0x4D6, 0x4D6); (0x4D8, 0x4D8); (0x4DA, 0x4DA); (0x4DC, 0x4DC); (0x4DE, 0x4DE); (0x4E0, 0x4E0);
    (0x4E2, 0x4E2); (0x4E4, 0x4E4); (0x4E6, 0x4E6); (0x4E8, 0x4E8); (0x4EA, 0x4EA); (0x4EC, 0x4EC);
    (0x4EE, 0x4EE); (0x4F0, 0x4F0); (0x4F2, 0x4F2); (0x4F4, 0x4F4); (0x4F6, 0x4F6); (0x4F8, 0x4F8);
    (0x4FA, 0x4FA); (0x4FC, 0x4FC); (0x4FE, 0x4FE); (0x500, 0x500); (0x502, 0x502); (0x504, 0x504);
    (0x506, 0x506); (0x508, 0x508); (0x50A, 0x50A); (0x50C, 0x50C); (0x50E, 0x50E); (0x510, 0x510);
    (0x512, 0x512); (0x514, 0x514); (0x516, 0x516); (0x518, 0x518); (0x51A, 0x51A); (0x51C, 0x51C);
    (0x51E, 0x51E); (0x520, 0x520); (0x522, 0x522); (0x524, 0x524); (0x526, 0x526); (0x528, 0x528);
    (0x52A, 0x52A); (0x52C, 0x52C); (0x52E, 0x52E); (0x531, 0x556); (0x10A0, 0x10C5); (0x10C7, 0x10C7);
    (0x10CD, 0x10CD); (0x13A0, 0x13F5); (0x1C90, 0x1CBA); (0x1CBD, 0x1CBF); (0x1E00, 0x1E00); (0x1E02, 0x1E02);
    (0x1E04, 0x1E04); (0x1E06, 0x1E06); (0x1E08, 0x1E08); (0x1E0A, 0x1E0A); (0x1E0C, 0x1E0C); (0x1E0E, 0x1E0E);
    (0x1E10, 0x1E10); (0x1E12, 0x1E12); (0x1E14, 0x1E14); (0x1E16, 0x1E16); (0x1E18, 0x1E18); (0x1E1A, 0x1E1A);
    (0x1E1C, 0x1E1C); (0x1E1E, 0x1E1E); (0x1E20, 0x1E20); (0x1E22, 0x1E22); (0x1E24, 0x1E24); (0x1E26, 0x1E26);
    (0x1E28, 0x1E28); (0x1E2A, 0x1E2A); (0x1E2C, 0x1E2C); (0x1E2E, 0x1E2E); (0x1E30, 0x1E30); (0x1E32, 0x1E32);
    (0x1E34, 0x1E34); (0x1E36, 0x1E36); (0x1E38, 0x1E38); (0x1E3A, 0x1E3A); (0x1E3C, 0x1E3C); (0x1E3E, 0x1E3E);
    (0x1E40, 0x1E40); (0x1E42, 0x1E42); (0x1E44, 0x1E44); (0x1E46, 0x1E46); (0x1E48, 0x1E48); (0x1E4A, 0x1E4A);
    (0x1E4C, 0x1E4C); (0x1E4E, 0x1E4E); (0x1E50, 0x1E50); (0x1E52, 0x1E52); (0x1E54, 0x1E54); (0x1E56, 0x1E56);
    (0x1E58, 0x1E58); (0x1E5A, 0x1E5A); (0x1E5C, 0x1E5C); (0x1E5E, 0x1E5E); (0x1E60, 0x1E60); (0x1E62, 0x1E62);
    (0x1E64, 0x1E64); (0x1E66, 0x1E66); (0x1E68, 0x1E68); (0x1E6A, 0x1E6A); (0x1E6C, 0x1E6C); (0x1E6E, 0x1E6E);
    (0x1E70, 0x1E70); (0x1E72, 0x1E72); (0x1E74, 0x1E74); (0x1E76, 0x1E76); (0x1E78, 0x1E78); (0x1E7A, 0x1E7A);
    (0x1E7C, 0x1E7C); (0x1E7E, 0x1E7E); (0x1E80, 0x1E80); (0x1E82, 0x1E82); (0x1E84, 0x1E84); (0x1E86, 0x1E86);
    (0x1E88, 0x1E88); (0x1E8A, 0x1E8A); (0x1E8C, 0x1E8C); (0x1E8E, 0x1E8E); (0x1E90, 0x1E90); (0x1E92, 0x1E92);
    (0x1E94, 0x1E94); (0x1E9E, 0x1E9E); (0x1EA0, 0x1EA0); (0x1EA2, 0x1EA2); (0x1EA4, 0x1EA4); (0x1EA6, 0x1EA6);
    (0x1EA8, 0x1EA8); (0x1EAA, 0x1EAA); (0x1EAC, 0x1EAC); (0x1EAE, 0x1EAE); (0x1EB0, 0x1EB0); (0x1EB2, 0x1EB2);
    (0x1EB4, 0x1EB4); (0x1EB6, 0x1EB6); (0x1EB8, 0x1EB8); (0x1EBA, 0x1EBA); (0x1EBC, 0x1EBC); (0x1EBE, 0x1EBE);
    (0x1EC0, 0x1EC0); (0x1EC2, 0x1EC2); (0x1EC4, 0x1EC4); (0x1EC6, 0x1EC6); (0x1EC8, 0x1EC8); (0x1ECA, 0x1ECA);
    (0x1ECC, 0x1ECC); (0x1ECE, 0x1ECE); (0x1ED0, 0x1ED0); (0x1ED2, 0x1ED2); (0x1ED4, 0x1ED4); (0x1ED6, 0x1ED6);
    (0x1ED8, 0x1ED8); (0x1EDA, 0x1EDA); (0x1EDC, 0x1EDC); (0x1EDE, 0x1EDE); (0x1EE0, 0x1EE0); (0x1EE2, 0x1EE2);
    (0x1EE4, 0x1EE4); (0x1EE6, 0x1EE6); (0x1EE8, 0x1EE8); (0x1EEA, 0x1EEA); (0x1EEC, 0x1EEC); (0x1EEE, 0x1EEE);
    (0x1EF0, 0x1EF0); (0x1EF2, 0x1EF2); (0x1EF4, 0x1EF4); (0x1EF6, 0x1EF6); (0x1EF8, 0x1EF8); (0x1EFA, 0x1EFA);
    (0x1EFC, 0x1EFC); (0x1EFE, 0x1EFE); (0x1F08, 0x1F0F); (0x1F18, 0x1F1D); (0x1F28, 0x1F2F); (0x1F38, 0x1F3F);
    (0x1F48, 0x1F4D); (0x1F59, 0x1F59); (0x1F5B, 0x1F5B); (0x1F5D, 0x1F5D); (0x1F5F, 0x1F5F); (0x1F68, 0x1F6F);
    (0x1FB8, 0x1FBB); (0x1FC8, 0x1FCB); (0x1FD8, 0x1FDB); (0x1FE8, 0x1FEC); (0x1FF8, 0x1FFB); (0x2102, 0x2102);
    (0x2107, 0x2107); (0x210B, 0x210D); (0x2110, 0x2112); (0x2115, 0x2115); (0x2119, 0x211D); (0x2124, 0x2124);
    (0x2126, 0x2126); (0x2128, 0x2128); (0x212A, 0x212D); (0x2130, 0x2133); (0x213E, 0x213E); (0x213F, 0x213F);
    (0x2145, 0x2145); (0x2160, 0x216F); (0x2183, 0x2183); (0x24B6, 0x24CF); (0x2C00, 0x2C2F); (0x2C60, 0x2C60);
    (0x2C62, 0x2C64); (0x2C67, 0x2C67); (0x2C69, 0x2C69); (0x2C6B, 0x2C6B); (0x2C6D, 0x2C70); (0x2C72, 0x2C72);
    (0x2C75, 0x2C75); (0x2C7E, 0x2C80); (0x2C82, 0x2C82); (0x2C84, 0x2C84); (0x2C86, 0x2C86); (0x2C88, 0x2C88);
    (0x2C8A, 0x2C8A); (0x2C8C, 0x2C8C); (0x2C8E, 0x2C8E); (0x2C90, 0x2C90); (0x2C92, 0x2C92); (0x2C94, 0x2C94);
    (0x2C96, 0x2C96); (0x2C98, 0x2C98); (0x2C9A, 0x2C9A); (0x2C9C, 0x2C9C); (0x2C9E, 0x2C9E); (0x2CA0, 0x2CA0);
    (0x2CA2, 0x2CA2); (0x2CA4, 0x2CA4); (0x2CA6, 0x2CA6); (0x2CA8, 0x2CA8); (0x2CAA, 0x2CAA); (0x2CAC, 0x2CAC);
    (0x2CAE, 0x2CAE); (0x2CB0, 0x2CB0); (0x2CB2, 0x2CB2); (0x2CB4, 0x2CB4); (0x2CB6, 0x2CB6); (0x2CB8, 0x2CB8);
    (0x2CBA, 0x2CBA); (0x2CBC, 0x2CBC); (0x2CBE, 0x2CBE); (0x2CC0, 0x2CC0); (0x2CC2, 0x2CC2); (0x2CC4, 0x2CC4);
    (0x2CC6, 0x2CC6); (0x2CC8, 0x2CC8); (0x2CCA, 0x2CCA); (0x2CCC, 0x2CCC); (0x2CCE, 0x2CCE); (0x2CD0, 0x2CD0);
    (0x2CD2, 0x2CD2); (0x2CD4, 0x2CD4); (0x2CD6, 0x2CD6); (0x2CD8, 0x2CD8); (0x2CDA, 0x2CDA); (0x2CDC, 0x2CDC);
    (0x2CDE, 0x2CDE); (0x2CE0, 0x2CE0); (0x2CE2, 0x2CE2); (0x2CEB, 0x2CEB); (0x2CED, 0x2CED); (0x2CF2, 0x2CF2);
    (0xA640, 0xA640); (0xA642, 0xA642); (0xA644, 0xA644); (0xA646, 0xA646); (0xA648, 0xA648); (0xA64A, 0xA64A);
    (0xA64C, 0xA64C); (0xA64E, 0xA64E); (0xA650, 0xA650); (0xA652, 0xA652); (0xA654, 0xA654); (0xA656, 0xA656);
    (0xA658, 0xA658); (0xA65A, 0xA65A); (0xA65C, 0xA65C); (0xA65E, 0xA65E); (0xA660, 0xA660); (0xA662, 0xA662);
    (0xA664, 0xA664); (0xA666, 0xA666); (0xA668, 0xA668); (0xA66A, 0xA66A); (0xA66C, 0xA66C); (0xA680, 0xA680);
    (0xA682, 0xA682); (0xA684, 0xA684); (0xA686, 0xA686); (0xA688, 0xA688); (0xA68A, 0xA68A); (0xA68C, 0xA68C);
    (0xA68E, 0xA68E); (0xA690, 0xA690); (0xA692, 0xA692); (0xA694, 0xA694); (0xA696, 0xA696); (0xA698, 0xA698);
    (0xA69A, 0xA69A); (0xA722, 0xA722); (0xA724, 0xA724); (0xA726, 0xA726); (0xA728, 0xA728); (0xA72A, 0xA72A);
    (0xA72C, 0xA72C); (0xA72E, 0xA72E); (0xA732, 0xA732); (0xA734, 0xA734); (0xA736, 0xA736); (0xA738, 0xA738);
    (0xA73A, 0xA73A); (0xA73C, 0xA73C); (0xA73E, 0xA73E); (0xA740, 0xA740); (0xA742, 0xA742); (0xA744, 0xA744);
    (0xA746, 0xA746); (0xA748, 0xA748); (0xA74A, 0xA74A); (0xA74C, 0xA74C); (0xA74E, 0xA74E); (0xA750, 0xA750);
    (0xA752, 0xA752); (0xA754, 0xA754); (0xA756, 0xA756); (0xA758, 0xA758); (0xA75A, 0xA75A); (0xA75C, 0xA75C);
    (0xA75E, 0xA75E); (0xA760, 0xA760); (0xA762, 0xA762); (0xA764, 0xA764); (0xA766, 0xA766); (0xA768, 0xA768);
    (0xA76A, 0xA76A); (0xA76C, 0xA76C); (0xA76E, 0xA76E); (0xA779, 0xA779); (0xA77B, 0xA77B); (0xA77D, 0xA77D);
    (0xA77E, 0xA77E); (0xA780, 0xA780); (0xA782, 0xA782); (0xA784, 0xA784); (0xA786, 0xA786); (0xA78B, 0xA78B);
    (0xA78D, 0xA78D); (0xA790, 0xA790); (0xA792, 0xA792); (0xA796, 0xA796); (0xA798, 0xA798); (0xA79A, 0xA79A);
    (0xA79C, 0xA79C); (0xA79E, 0xA79E); (0xA7A0, 0xA7A0); (0xA7A2, 0xA7A2); (0xA7A4, 0xA7A4); (0xA7A6, 0xA7A6);
    (0xA7A8, 0xA7A8); (0xA7AA, 0xA7AE); (0xA7B0, 0xA7B4); (0xA7B6, 0xA7B6); (0xA7B8, 0xA7B8); (0xA7BA, 0xA7BA);
    (0xA7BC, 0xA7BC); (0xA7BE, 0xA7BE); (0xA7C0, 0xA7C0); (0xA7C2, 0xA7C2); (0xA7C4, 0xA7C7); (0xA7C9, 0xA7C9);
    (0xA7D0, 0xA7D0); (0xA7D6, 0xA7D6); (0xA7D8, 0xA7D8); (0xA7F5, 0xA7F5); (0xFF21, 0xFF3A); (0x10400, 0x10427);
    (0x104B0, 0x104D3); (0x10570, 0x1057A); (0x1057C, 0x1058A); (0x1058C, 0x10592); (0x10594, 0x10594); (0x10595, 0x10595);
    (0x10C80, 0x10CB2); (0x118A0, 0x118BF); (0x16E40, 0x16E5F); (0x1D400, 0x1D419); (0x1D434, 0x1D44D); (0x1D468, 0x1D481);
    (0x1D49C, 0x1D49C); (0x1D49E, 0x1D49E); (0x1D49F, 0x1D49F); (0x1D4A2, 0x1D4A2); (0x1D4A5, 0x1D4A5); (0x1D4A6, 0x1D4A6);
    (0x1D4A9, 0x1D4AC); (0x1D4AE, 0x1D4B5); (0x1D4D0, 0x1D4E9); (0x1D504, 0x1D504); (0x1D505, 0x1D505); (0x1D507, 0x1D50A);
    (0x1D50D, 0x1D514); (0x1D516, 0x1D51C); (0x1D538, 0x1D538); (0x1D539, 0x1D539); (0x1D53B, 0x1D53E); (0x1D540, 0x1D544);
    (0x1D546, 0x1D546); (0x1D54A, 0x1D550); (0x1D56C, 0x1D585); (0x1D5A0, 0x1D5B9); (0x1D5D4, 0x1D5ED); (0x1D608, 0x1D621);
    (0x1D63C, 0x1D655); (0x1D670, 0x1D689); (0x1D6A8, 0x1D6C0); (0x1D6E2, 0x1D6FA); (0x1D71C, 0x1D734); (0x1D756, 0x1D76E);
    (0x1D790, 0x1D7A8); (0x1D7CA, 0x1D7CA); (0x1E900, 0x1E921); (0x1F130, 0x1F149); (0x1F150, 0x1F169); (0x1F170, 0x1F189) ]%N.

Definition _RE_LOWERCASE : list (N * N) :=
  [ (0x61, 0x7A); (0xAA, 0xAA); (0xB5, 0xB5); (0xBA, 0xBA); (0xDF, 0xF6); (0xF8, 0xFF);
    (0x101, 0x101); (0x103, 0x103); (0x105, 0x105); (0x107, 0x107); (0x109, 0x109); (0x10B, 0x10B);
    (0x10D, 0x10D); (0x10F, 0x10F); (0x111, 0x111); (0x113, 0x113); (0x115, 0x115); (0x117, 0x117);
    (0x119, 0x119); (0x11B, 0x11B); (0x11D, 0x11D); (0x11F, 0x11F); (0x121, 0x121); (0x123, 0x123);
    (0x125, 0x125); (0x127, 0x127); (0x129, 0x129); (0x12B, 0x12B); (0x12D, 0x12D); (0x12F, 0x12F);
    (0x131, 0x131); (0x133, 0x133); (0x135, 0x135); (0x137, 0x137); (0x138, 0x138); (0x13A, 0x13A);
    (0x13C, 0x13C); (0x13E, 0x13E); (0x140, 0x140); (0x142, 0x142); (0x144, 0x144); (0x146, 0x146);
    (0x148, 0x148); (0x149, 0x149); (0x14B, 0x14B); (0x14D, 0x14D); (0x14F, 0x14F); (0x151, 0x151);
    (0x153, 0x153); (0x155, 0x155); (0x157, 0x157); (0x159, 0x159); (0x15B, 0x15B); (0x15D, 0x15D);
    (0x15F, 0x15F); (0x161, 0x161); (0x163, 0x163); (0x165, 0x165); (0x167, 0x167); (0x169, 0x169);
    (0x16B, 0x16B); (0x16D, 0x16D); (0x16F, 0x16F); (0x171, 0x171); (0x173, 0x173); (0x175, 0x175);
    (0x177, 0x177); (0x17A, 0x17A); (0x17C, 0x17C); (0x17E, 0x180); (0x183, 0x183); (0x185, 0x185);
    (0x188, 0x188); (0x18C, 0x18C); (0x18D, 0x18D); (0x192, 0x192); (0x195, 0x195); (0x199, 0x19B);
    (0x19E, 0x19E); (0x1A1, 0x1A1); (0x1A3, 0x1A3); (0x1A5, 0x1A5); (0x1A8, 0x1A8); (0x1AA, 0x1AA);
    (0x1AB, 0x1AB); (0x1AD, 0x1AD); (0x1B0, 0x1B0); (0x1B4, 0x1B4); (0x1B6, 0x1B6); (0x1B9, 0x1B9);
    (0x1BA, 0x1BA); (0x1BD, 0x1BF); (0x1C6, 0x1C6); (0x1C9, 0x1C9); (0x1CC, 0x1CC); (0x1CE, 0x1CE);
    (0x1D0, 0x1D0); (0x1D2, 0x1D2); (0x1D4, 0x1D4); (0x1D6, 0x1D6); (0x1D8, 0x1D8); (0x1DA, 0x1DA);
    (0x1DC, 0x1DC); (0x1DD, 0x1DD); (0x1DF, 0x1DF); (0x1E1, 0x1E1); (0x1E3, 0x1E3); (0x1E5, 0x1E5);
    (0x1E7, 0x1E7); (0x1E9, 0x1E9); (0x1EB, 0x1EB); (0x1ED, 0x1ED); (0x1EF, 0x1EF); (0x1F0, 0x1F0);
    (0x1F3, 0x1F3); (0x1F5, 0x1F5); (0x1F9, 0x1F9); (0x1FB, 0x1FB); (0x1FD, 0x1FD); (0x1FF, 0x1FF);
    (0x201, 0x201); (0x203, 0x203); (0x205, 0x205); (0x207, 0x207); (0x209, 0x209); (0x20B, 0x20B);
    (0x20D, 0x20D); (0x20F, 0x20F); (0x211, 0x211); (0x213, 0x213); (0x215, 0x215); (0x217, 0x217);
    (0x219, 0x219); (0x21B, 0x21B); (0x21D, 0x21D); (0x21F, 0x21F); (0x221, 0x221); (0x223, 0x223);
    (0x225, 0x225); (0x227, 0x227); (0x229, 0x229); (0x22B, 0x22B); (0x22D, 0x22D); (0x22F, 0x22F);
    (0x231, 0x231); (0x233, 0x239); (0x23C, 0x23C); (0x23F, 0x23F); (0x240, 0x240); (0x242, 0x242);
    (0x247, 0x247); (0x249, 0x249); (0x24B, 0x24B); (0x24D, 0x24D); (0x24F, 0x293); (0x295, 0x2B8);
    (0x2C0, 0x2C0); (0x2C1, 0x2C1); (0x2E0, 0x2E4); (0x345, 0x345); (0x371, 0x371); (0x373, 0x373);
    (0x377, 0x377); (0x37A, 0x37D); (0x390, 0x390); (0x3AC, 0x3CE); (0x3D0, 0x3D0); (0x3D1, 0x3D1);
    (0x3D5, 0x3D7); (0x3D9, 0x3D9); (0x3DB, 0x3DB); (0x3DD, 0x3DD); (0x3DF, 0x3DF); (0x3E1, 0x3E1);
    (0x3E3, 0x3E3); (0x3E5, 0x3E5); (0x3E7, 0x3E7); (0x3E9, 0x3E9); (0x3EB, 0x3EB); (0x3ED, 0x3ED);
    (0x3EF, 0x3F3); (0x3F5, 0x3F5); (0x3F8, 0x3F8); (0x3FB, 0x3FB); (0x3FC, 0x3FC); (0x430, 0x45F);
    (0x461, 0x461); (0x463, 0x463); (0x465, 0x465); (0x467, 0x467); (0x469, 0x469); (0x46B, 0x46B);
    (0x46D, 0x46D); (0x46F, 0x46F); (0x471, 0x471); (0x473, 0x473); (0x475, 0x475); (0x477, 0x477);
    (0x479, 0x479); (0x47B, 0x47B); (0x47D, 0x47D); (0x47F, 0x47F); (0x481, 0x481); (0x48B, 0x48B);
    (0x48D, 0x48D); (0x48F, 0x48F); (0x491, 0x491); (0x493, 0x493); (0x495, 0x495); (0x497, 0x497);
    (0x499, 0x499); (0x49B, 0x49B); (0x49D, 0x49D); (0x49F, 0x49F); (0x4A1, 0x4A1); (0x4A3, 0x4A3);
    (0x4A5, 0x4A5); (0x4A7, 0x4A7); (0x4A9, 0x4A9); (0x4AB, 0x4AB); (0x4AD, 0x4AD); (0x4AF, 0x4AF);
    (0x4B1, 0x4B1); (0x4B3, 0x4B3); (0x4B5, 0x4B5); (0x4B7, 0x4B7); (0x4B9, 0x4B9); (0x4BB, 0x4BB);
    (0x4BD, 0x4BD); (0x4BF, 0x4BF); (0x4C2, 0x4C2); (0x4C4, 0x4C4); (0x4C6, 0x4C6); (0x4C8, 0x4C8);
    (0x4CA, 0x4CA); (0x4CC, 0x4CC); (0x4CE, 0x4CE); (0x4CF, 0x4CF); (0x4D1, 0x4D1); (0x4D3, 0x4D3);
    (0x4D5, 0x4D5); (0x4D7, 0x4D7); (0x4D9, 0x4D9); (0x4DB, 0x4DB); (0x4DD, 0x4DD); (0x4DF, 0x4DF);
    (0x4E1, 0x4E1); (0x4E3, 0x4E3); (0x4E5, 0x4E5); (0x4E7, 0x4E7); (0x4E9, 0x4E9); (0x4EB, 0x4EB);
    (0x4ED, 0x4ED); (0x4EF, 0x4EF); (0x4F1, 0x4F1); (0x4F3, 0x4F3); (0x4F5, 0x4F5); (0x4F7, 0x4F7);
    (0x4F9, 0x4F9); (0x4FB, 0x4FB); (0x4FD, 0x4FD); (0x4FF, 0x4FF); (0x501, 0x501); (0x503, 0x503);
    (0x505, 0x505); (0x507, 0x507); (0x509, 0x509); (0x50B, 0x50B); (0x50D, 0x50D); (0x50F, 0x50F);
    (0x511, 0x511); (0x513, 0x513); (0x515, 0x515); (0x517, 0x517); (0x519, 0x519); (0x51B, 0x51B);
    (0x51D, 0x51D); (0x51F, 0x51F); (0x521, 0x521); (0x523, 0x523); (0x525, 0x525); (0x527, 0x527);
    (0x529, 0x529); (0x52B, 0x52B); (0x52D, 0x52D); (0x52F, 0x52F); (0x560, 0x588); (0x10D0, 0x10FA);
    (0x10FC, 0x10FF); (0x13F8, 0x13FD); (0x1C80, 0x1C88); (0x1D00, 0x1DBF); (0x1E01, 0x1E01); (0x1E03, 0x1E03);
    (0x1E05, 0x1E05); (0x1E07, 0x1E07); (0x1E09, 0x1E09); (0x1E0B, 0x1E0B); (0x1E0D, 0x1E0D); (0x1E0F, 0x1E0F);
    (0x1E11, 0x1E11); (0x1E13, 0x1E13); (0x1E15, 0x1E15); (0x1E17, 0x1E17); (0x1E19, 0x1E19); (0x1E1B, 0x1E1B);
    (0x1E1D, 0x1E1D); (0x1E1F, 0x1E1F); (0x1E21, 0x1E21); (0x1E23, 0x1E23); (0x1E25, 0x1E25); (0x1E27, 0x1E27);
    (0x1E29, 0x1E29); (0x1E2B, 0x1E2B); (0x1E2D, 0x1E2D); (0x1E2F, 0x1E2F); (0x1E31, 0x1E31); (0x1E33, 0x1E33);
    (0x1E35, 0x1E35); (0x1E37, 0x1E37); (0x1E39, 0x1E39); (0x1E3B, 0x1E3B); (0x1E3D, 0x1E3D); (0x1E3F, 0x1E3F);
    (0x1E41, 0x1E41); (0x1E43, 0x1E43); (0x1E45, 0x1E45); (0x1E47, 0x1E47); (0x1E49, 0x1E49); (0x1E4B, 0x1E4B);
    (0x1E4D, 0x1E4D); (0x1E4F, 0x1E4F); (0x1E51, 0x1E51); (0x1E53, 0x1E53); (0x1E55, 0x1E55); (0x1E57, 0x1E57);
    (0x1E59, 0x1E59); (0x1E5B, 0x1E5B); (0x1E5D, 0x1E5D); (0x1E5F, 0x1E5F); (0x1E61, 0x1E61); (0x1E63, 0x1E63);
    (0x1E65, 0x1E65); (0x1E67, 0x1E67); (0x1E69, 0x1E69); (0x1E6B, 0x1E6B); (0x1E6D, 0x1E6D); (0x1E6F, 0x1E6F);
    (0x1E71, 0x1E71); (0x1E73, 0x1E73); (0x1E75, 0x1E75); (0x1E77, 0x1E77); (0x1E79, 0x1E79); (0x1E7B, 0x1E7B);
    (0x1E7D, 0x1E7D); (0x1E7F, 0x1E7F); (0x1E81, 0x1E81); (0x1E83, 0x1E83); (0x1E85, 0x1E85); (0x1E87, 0x1E87);
    (0x1E89, 0x1E89); (0x1E8B, 0x1E8B); (0x1E8D, 0x1E8D); (0x1E8F, 0x1E8F); (0x1E91, 0x1E91); (0x1E93, 0x1E93);
    (0x1E95, 0x1E9D); (0x1E9F, 0x1E9F); (0x1EA1, 0x1EA1); (0x1EA3, 0x1EA3); (0x1EA5, 0x1EA5); (0x1EA7, 0x1EA7);
    (0x1EA9, 0x1EA9); (0x1EAB, 0x1EAB); (0x1EAD, 0x1EAD); (0x1EAF, 0x1EAF); (0x1EB1, 0x1EB1); (0x1EB3, 0x1EB3);
    (0x1EB5, 0x1EB5); (0x1EB7, 0x1EB7); (0x1EB9, 0x1EB9); (0x1EBB, 0x1EBB); (0x1EBD, 0x1EBD); (0x1EBF, 0x1EBF);
    (0x1EC1, 0x1EC1); (0x1EC3, 0x1EC3); (0x1EC5, 0x1EC5); (0x1EC7, 0x1EC7); (0x1EC9, 0x1EC9); (0x1ECB, 0x1ECB);
    (0x1ECD, 0x1ECD); (0x1ECF, 0x1ECF); (0x1ED1, 0x1ED1); (0x1ED3, 0x1ED3); (0x1ED5, 0x1ED5); (0x1ED7, 0x1ED7);
    (0x1ED9, 0x1ED9); (0x1EDB, 0x1EDB); (0x1EDD, 0x1EDD); (0x1EDF, 0x1EDF); (0x1EE1, 0x1EE1); (0x1EE3, 0x1EE3);
    (0x1EE5, 0x1EE5); (0x1EE7, 0x1EE7); (0x1EE9, 0x1EE9); (0x1EEB, 0x1EEB); (0x1EED, 0x1EED); (0x1EEF, 0x1EEF);
    (0x1EF1, 0x1EF1); (0x1EF3, 0x1EF3); (0x1EF5, 0x1EF5); (0x1EF7, 0x1EF7); (0x1EF9, 0x1EF9); (0x1EFB, 0x1EFB);
    (0x1EFD, 0x1EFD); (0x1EFF, 0x1F07); (0x1F10, 0x1F15); (0x1F20, 0x1F27); (0x1F30, 0x1F37); (0x1F40, 0x1F45);
    (0x1F50, 0x1F57); (0x1F60, 0x1F67); (0x1F70, 0x1F7D); (0x1F80, 0x1F87); (0x1F90, 0x1F97); (0x1FA0, 0x1FA7);
    (0x1FB0, 0x1FB4); (0x1FB6, 0x1FB6); (0x1FB7, 0x1FB7); (0x1FBE, 0x1FBE); (0x1FC2, 0x1FC4); (0x1FC6, 0x1FC6);
    (0x1FC7, 0x1FC7); (0x1FD0, 0x1FD3); (0x1FD6, 0x1FD6); (0x1FD7, 0x1FD7); (0x1FE0, 0x1FE7); (0x1FF2, 0x1FF4);
    (0x1FF6, 0x1FF6); (0x1FF7, 0x1FF7); (0x2071, 0x2071); (0x207F, 0x207F); (0x2090, 0x209C); (0x210A, 0x210A);
    (0x210E, 0x210E); (0x210F, 0x210F); (0x2113, 0x2113); (0x212F, 0x212F); (0x2134, 0x2134); (0x2139, 0x2139);
    (0x213C, 0x213C); (0x213D, 0x213D); (0x2146, 0x2149); (0x214E, 0x214E); (0x2170, 0x217F); (0x2184, 0x2184);
    (0x24D0, 0x24E9); (0x2C30, 0x2C5F); (0x2C61, 0x2C61); (0x2C65, 0x2C65); (0x2C66, 0x2C66); (0x2C68, 0x2C68);
    (0x2C6A, 0x2C6A); (0x2C6C, 0x2C6C); (0x2C71, 0x2C71); (0x2C73, 0x2C73); (0x2C74, 0x2C74); (0x2C76, 0x2C7D);
    (0x2C81, 0x2C81); (0x2C83, 0x2C83); (0x2C85, 0x2C85); (0x2C87, 0x2C87); (0x2C89, 0x2C89); (0x2C8B, 0x2C8B);
    (0x2C8D, 0x2C8D); (0x2C8F, 0x2C8F); (0x2C91, 0x2C91); (0x2C93, 0x2C93); (0x2C95, 0x2C95); (0x2C97, 0x2C97);
    (0x2C99, 0x2C99); (0x2C9B, 0x2C9B); (0x2C9D, 0x2C9D); (0x2C9F, 0x2C9F); (0x2CA1, 0x2CA1); (0x2CA3, 0x2CA3);
    (0x2CA5, 0x2CA5); (0x2CA7, 0x2CA7); (0x2CA9, 0x2CA9); (0x2CAB, 0x2CAB); (0x2CAD, 0x2CAD); (0x2CAF, 0x2CAF);
    (0x2CB1, 0x2CB1); (0x2CB3, 0x2CB3); (0x2CB5, 0x2CB5); (0x2CB7, 0x2CB7); (0x2CB9, 0x2CB9); (0x2CBB, 0x2CBB);
    (0x2CBD, 0x2CBD); (0x2CBF, 0x2CBF); (0x2CC1, 0x2CC1); (0x2CC3, 0x2CC3); (0x2CC5, 0x2CC5); (0x2CC7, 0x2CC7);
    (0x2CC9, 0x2CC9); (0x2CCB, 0x2CCB); (0x2CCD, 0x2CCD); (0x2CCF, 0x2CCF); (0x2CD1, 0x2CD1); (0x2CD3, 0x2CD3);
    (0x2CD5, 0x2CD5); (0x2CD7, 0x2CD7); (0x2CD9, 0x2CD9); (0x2CDB, 0x2CDB); (0x2CDD, 0x2CDD); (0x2CDF, 0x2CDF);
    (0x2CE1, 0x2CE1); (0x2CE3, 0x2CE3); (0x2CE4, 0x2CE4); (0x2CEC, 0x2CEC); (0x2CEE, 0x2CEE); (0x2CF3, 0x2CF3);
    (0x2D00, 0x2D25); (0x2D27, 0x2D27); (0x2D2D, 0x2D2D); (0xA641, 0xA641); (0xA643, 0xA643); (0xA645, 0xA645);
    (0xA647, 0xA647); (0xA649, 0xA649); (0xA64B, 0xA64B); (0xA64D, 0xA64D); (0xA64F, 0xA64F); (0xA651, 0xA651);
    (0xA653, 0xA653); (0xA655, 0xA655); (0xA657, 0xA657); (0xA659, 0xA659); (0xA65B, 0xA65B); (0xA65D, 0xA65D);
    (0xA65F, 0xA65F); (0xA661, 0xA661); (0xA663, 0xA663); (0xA665, 0xA665); (0xA667, 0xA667); (0xA669, 0xA669);
    (0xA66B, 0xA66B); (0xA66D, 0xA66D); (0xA681, 0xA681); (0xA683, 0xA683); (0xA685, 0xA685); (0xA687, 0xA687);
    (0xA689, 0xA689); (0xA68B, 0xA68B); (0xA68D, 0xA68D); (0xA68F, 0xA68F); (0xA691, 0xA691); (0xA693, 0xA693);
    (0xA695, 0xA695); (0xA697, 0xA697); (0xA699, 0xA699); (0xA69B, 0xA69D); (0xA723, 0xA723); (0xA725, 0xA725);
    (0xA727, 0xA727); (0xA729, 0xA729); (0xA72B, 0xA72B); (0xA72D, 0xA72D); (0xA72F, 0xA731); (0xA733, 0xA733);
    (0xA735, 0xA735); (0xA737, 0xA737); (0xA739, 0xA739); (0xA73B, 0xA73B); (0xA73D, 0xA73D); (0xA73F, 0xA73F);
    (0xA741, 0xA741); (0xA743, 0xA743); (0xA745, 0xA745); (0xA747, 0xA747); (0xA749, 0xA749); (0xA74B, 0xA74B);
    (0xA74D, 0xA74D); (0xA74F, 0xA74F); (0xA751, 0xA751); (0xA753, 0xA753); (0xA755, 0xA755); (0xA757, 0xA757);
    (0xA759, 0xA759); (0xA75B, 0xA75B); (0xA75D, 0xA75D); (0xA75F, 0xA75F); (0xA761, 0xA761); (0xA763, 0xA763);
    (0xA765, 0xA765); (0xA767, 0xA767); (0xA769, 0xA769); (0xA76B, 0xA76B); (0xA76D, 0xA76D); (0xA76F, 0xA778);
    (0xA77A, 0xA77A); (0xA77C, 0xA77C); (0xA77F, 0xA77F); (0xA781, 0xA781); (0xA783, 0xA783); (0xA785, 0xA785);
    (0xA787, 0xA787); (0xA78C, 0xA78C); (0xA78E, 0xA78E); (0xA791, 0xA791); (0xA793, 0xA795); (0xA797, 0xA797);
    (0xA799, 0xA799); (0xA79B, 0xA79B); (0xA79D, 0xA79D); (0xA79F, 0xA79F); (0xA7A1, 0xA7A1); (0xA7A3, 0xA7A3);
    (0xA7A5, 0xA7A5); (0xA7A7, 0xA7A7); (0xA7A9, 0xA7A9); (0xA7AF, 0xA7AF); (0xA7B5, 0xA7B5); (0xA7B7, 0xA7B7);
    (0xA7B9, 0xA7B9); (0xA7BB, 0xA7BB); (0xA7BD, 0xA7BD); (0xA7BF, 0xA7BF); (0xA7C1, 0xA7C1); (0xA7C3, 0xA7C3);
    (0xA7C8, 0xA7C8); (0xA7CA, 0xA7CA); (0xA7D1, 0xA7D1); (0xA7D3, 0xA7D3); (0xA7D5, 0xA7D5); (0xA7D7, 0xA7D7);
    (0xA7D9, 0xA7D9); (0xA7F2, 0xA7F4); (0xA7F6, 0xA7F6); (0xA7F8, 0xA7FA); (0xAB30, 0xAB5A); (0xAB5C, 0xAB69);
    (0xAB70, 0xABBF); (0xFB00, 0xFB06); (0xFB13, 0xFB17); (0xFF41, 0xFF5A); (0x10428, 0x1044F); (0x104D8, 0x104FB);
    (0x10597, 0x105A1); (0x105A3, 0x105B1); (0x105B3, 0x105B9); (0x105BB, 0x105BB); (0x105BC, 0x105BC); (0x10780, 0x10780);
    (0x10783, 0x10785); (0x10787, 0x107B0); (0x107B2, 0x107BA); (0x10CC0, 0x10CF2); (0x118C0, 0x118DF); (0x16E60, 0x16E7F);
    (0x1D41A, 0x1D433); (0x1D44E, 0x1D454); (0x1D456, 0x1D467); (0x1D482, 0x1D49B); (0x1D4B6, 0x1D4B9); (0x1D4BB, 0x1D4BB);
    (0x1D4BD, 0x1D4C3); (0x1D4C5, 0x1D4CF); (0x1D4EA, 0x1D503); (0x1D51E, 0x1D537); (0x1D552, 0x1D56B); (0x1D586, 0x1D59F);
    (0x1D5BA, 0x1D5D3); (0x1D5EE, 0x1D607); (0x1D622, 0x1D63B); (0x1D656, 0x1D66F); (0x1D68A, 0x1D6A5); (0x1D6C2, 0x1D6DA);
    (0x1D6DC, 0x1D6E1); (0x1D6FC, 0x1D714); (0x1D716, 0x1D71B); (0x1D736, 0x1D74E); (0x1D750, 0x1D755); (0x1D770, 0x1D788);
    (0x1D78A, 0x1D78F); (0x1D7AA, 0x1D7C2); (0x1D7C4, 0x1D7C9); (0x1D7CB, 0x1D7CB); (0x1DF00, 0x1DF09); (0x1DF0B, 0x1DF1E);
    (0x1DF25, 0x1DF2A); (0x1E030, 0x1E06D); (0x1E922, 0x1E943) ]%N.

Definition _RE_MODIFIER : list (N * N) :=
  [ (0x5E, 0x5E); (0x60, 0x60); (0xA8, 0xA8); (0xAF, 0xAF); (0xB4, 0xB4); (0xB8, 0xB8);
    (0x2C2, 0x2C5); (0x2D2, 0x2D2); (0x2D3, 0x2D3); (0x2D4, 0x2D9); (0x2DA, 0x2DF); (0x2E5, 0x2FF);
    (0x375, 0x375); (0x384, 0x384); (0x385, 0x385); (0x888, 0x888); (0x1FBD, 0x1FBD); (0x1FBF, 0x1FC1);
    (0x1FCD, 0x1FCF); (0x1FDD, 0x1FDF); (0x1FED, 0x1FED); (0x1FEE, 0x1FEE); (0x1FEF, 0x1FEF); (0x1FFD, 0x1FFD);
    (0x1FFE, 0x1FFE); (0x309B, 0x309B); (0x309C, 0x309C); (0xA700, 0xA716); (0xA720, 0xA720); (0xA721, 0xA721);
    (0xA789, 0xA789); (0xA78A, 0xA78A); (0xAB5B, 0xAB5B); (0xAB6A, 0xAB6A); (0xAB6B, 0xAB6B); (0xFBB2, 0xFBC2);
    (0xFF3E, 0xFF3E); (0xFF40, 0xFF40); (0xFFE3, 0xFFE3) ]%N.

Definition _RE_DASH : list (N * N) :=
  [ (0x2D, 0x2D); (0x58A, 0x58A); (0x1806, 0x1806); (0x2010, 0x2015); (0xFE58, 0xFE58); (0xFE63, 0xFE63);
    (0xFF0D, 0xFF0D) ]%N.

Definition _RE_SPACE : list (N * N) :=
  [ (0x20, 0x20); (0xA0, 0xA0); (0x2000, 0x200A); (0x202F, 0x202F); (0x205F, 0x205F); (0x3000, 0x3000) ]%N.

(** [_RE_UPPERCASE[4:-1]] and [_RE_LOWERCASE[4:-1]] drop the leading
    [A-Z] / [a-z] range of the class. *)
Definition _RE_LETTER : list (N * N) :=
  [ (0x41, 0x5A); (0x61, 0x7A) ]%N ++ tail _RE_UPPERCASE ++ tail _RE_LOWERCASE.

Definition _RE_NAME_COMPONENT : list (N * N) :=
  _RE_LETTER ++ _RE_MODIFIER ++ [ (0x2E, 0x2E) ]%N ++ _RE_DASH.

Definition RE_SPACE : regex := RSet _RE_SPACE.

(** [[\n\t] + _RE_SPACE[1:-1] + []+] *)
Definition RE_WHITESPACE : regex :=
  RPlus (RSet ([ (0x0A, 0x0A); (0x09, 0x09) ]%N ++ _RE_SPACE)).

(** [(,|\u00b7)] followed by [_RE_SPACE+] *)
Definition _RE_PREFIX_SKIP : regex :=
  RCat (RGroup (RAlt (RSet [ (0x2C, 0x2C) ]%N) (RSet [ (0xB7, 0xB7) ]%N)))
       (RPlus (RSet _RE_SPACE)).

Definition RE_AUTHOR_NAME : regex :=
  RCat (ROpt (RNonCap _RE_PREFIX_SKIP))
       (RGroup (RCat (RPlus (RSet _RE_NAME_COMPONENT))
                     (RPlus (RGroup (RCat (RSet _RE_SPACE)
                                          (RPlus (RSet _RE_NAME_COMPONENT))))))).

Definition RE_PREFIX_SKIP : regex := RCat RBol _RE_PREFIX_SKIP.

Definition normalize_str (content : ustr) : ustr :=
  re_sub RE_WHITESPACE (u " ") (strip content).

(** ** Python values *)

#[local] Unset Elimination Schemes.

Inductive pyval : Type :=
| VNone
| VInt (z : Z)
| VStr (s : ustr)
| VList (l : list pyval)
| VTuple (l : list pyval)
| VDict (d : list (string * pyval)).   (* entries in insertion order *)

Definition is_None (v : pyval) : bool :=
  match v with VNone => true | _ => false end.

(** Truth value of an object, as [and] / [or] / [if] test it. *)
Definition truthy (v : pyval) : bool :=
  match v with
  | VNone => false
  | VInt z => negb (z =? 0)%Z
  | VStr s => negb (Nat.eqb (length s) 0)
  | VList l | VTuple l => negb (Nat.eqb (length l) 0)
  | VDict d => negb (Nat.eqb (length d) 0)
  end.

(** [a or b]; [b] is evaluated only when [a] is falsy. *)
Definition py_or (a : pyval) (b : res pyval) : res pyval :=
  if truthy a then Ok a else b.

(** [cast=int] *)
Definition cast_int (v : ustr) : res pyval :=
  (let? z := py_int v in Ok (VInt z))%res.

(** Order comparisons; only [int] against [int] is covered, any other pair
    of operands is a [TypeError] (as it is for an [int] against [None] or
    a [str]). *)
Definition int_cmp (op : Z -> Z -> bool) (a b : pyval) : res bool :=
  match a, b with
  | VInt a, VInt b => Ok (op a b)
  | _, _ => Raise TypeError
  end.

Definition py_gt : pyval -> pyval -> res bool := int_cmp Z.gtb.
Definition py_le : pyval -> pyval -> res bool := int_cmp Z.leb.
Definition py_ge : pyval -> pyval -> res bool := int_cmp Z.geb.

(** Dictionaries held as values: [d[k] = v] and [d.get(k, None)]. *)
Fixpoint dict_set (k : string) (v : pyval) (d : list (string * pyval)) : list (string * pyval) :=
  match d with
  | [] => [(k, v)]
  | (k', v') :: d' => if String.eqb k' k then (k, v) :: d' else (k', v') :: dict_set k v d'
  end.

Section DictGet.
Context {A : Type} (found : pyval -> A) (missing : A).

(** [found (d.get(k))], with [missing] standing for [found None]. *)
Fixpoint dict_get_with (k : string) (d : list (string * pyval)) : A :=
  match d with
  | [] => missing
  | (k', v) :: d' => if String.eqb k' k then found v else dict_get_with k d'
  end.

End DictGet.

Definition dict_get (k : string) (d : list (string * pyval)) : pyval :=
  dict_get_with (fun v => v) VNone k d.

(** The per-document context dictionary. *)
Abbreviation context := (gmap string pyval).

(** [context[k]] *)
Definition ctx_get (k : string) (ctx : context) : res pyval :=
  match ctx !! k with
  | Some v => Ok v
  | None => Raise KeyError
  end.

(** ** The parsed document *)

Inductive node : Type :=
| Tag (nm : string) (at_ : gmap string ustr) (cs : list node)
| NavigableString (s : ustr).

#[local] Set Elimination Schemes.

(** A tag as the program holds it: the element together with the chain of
    its ancestors, nearest first, which is what [.parent] walks. *)
Record tag : Type := mkTag {
  name : string;
  attrs : gmap string ustr;
  contents : list node;
  ancestors : list node
}.

Definition as_node (t : tag) : node := Tag (name t) (attrs t) (contents t).

(** [tag.parent] *)
Definition parent (t : tag) : option tag :=
  match ancestors t with
  | Tag nm a cs :: up => Some (mkTag nm a cs up)
  | _ => None
  end.

(** The tag followed by its parent, grandparent, ... up to the root. *)
Fixpoint lineage_of (nm : string) (a : gmap string ustr) (cs : list node)
    (up : list node) : list tag :=
  mkTag nm a cs up ::
  match up with
  | Tag nm' a' cs' :: up' => lineage_of nm' a' cs' up'
  | _ => []
  end.

Definition lineage (t : tag) : list tag :=
  lineage_of (name t) (attrs t) (contents t) (ancestors t).

(** [tag.get(name)] for an attribute whose value bs4 keeps as text, which
    it does for all but the multi-valued attributes of HTML ([class],
    [rel], [headers] and the like, whose values it splits into lists).
    The module reads [page], [style], [name] and the attributes of
    [RESOLVED_ATTRIBUTES], all of them text. *)
Definition get (t : tag) (key : string) : option ustr := attrs t !! key.

(** [tag.text]: the strings below the tag, concatenated. *)
Fixpoint node_text (n : node) : ustr :=
  match n with
  | NavigableString s => s
  | Tag _ _ cs => flat_map node_text cs
  end.

Definition text (t : tag) : ustr := flat_map node_text (contents t).

(** The tags of a subtree in document order, the root of the subtree first. *)
Fixpoint tags_from (up : list node) (n : node) : list tag :=
  match n with
  | NavigableString _ => []
  | Tag nm a cs => mkTag nm a cs up :: flat_map (tags_from (n :: up)) cs
  end.

(** [tag.descendants], restricted to tags. *)
Definition descendants (t : tag) : list tag :=
  flat_map (tags_from (as_node t :: ancestors t)) (contents t).

(** The [BeautifulSoup] object: a root tag without attributes or parent. *)
Definition soup_of (cs : list node) : tag := mkTag "[document]" ∅ cs [].

(** [soup.find(f)]: the first tag in document order on which [f] is true;
    an exception raised by [f] propagates. *)
Fixpoint find_first (f : tag -> res bool) (l : list tag) : res (option tag) :=
  match l with
  | [] => Ok None
  | t :: l' =>
      (let? b := f t in if b then Ok (Some t) else find_first f l')%res
  end.

(** [soup.find_all(f)] *)
Fixpoint find_all (f : tag -> res bool) (l : list tag) : res (list tag) :=
  match l with
  | [] => Ok []
  | t :: l' =>
      (let? b := f t in
       let? r := find_all f l' in
       Ok (if b then t :: r else r))%res
  end.

Definition attr_is (t : tag) (key : string) (v : ustr) : bool :=
  match get t key with
  | Some v' => ustr_eqb v' v
  | None => false
  end.

(** ** Attribute resolver *)

Definition _tag_value (t : tag) (key : string) (cast : option (ustr -> res pyval)) : res pyval :=
  let value := get t key in
  match cast with
  | None => Ok (match value with Some v => VStr v | None => VNone end)
  | Some c =>
      match value with
      | None => Ok VNone
      | Some v => (let? r := c v in Ok (if truthy r then r else VNone))%res
      end
  end.

(** The [while result is None] loop of [tag_value]; [line] is the current
    tag followed by its ancestors. *)
Fixpoint tag_value_loop (result : pyval) (line : list tag) (attribute : string)
    (cast : option (ustr -> res pyval)) : res pyval :=
  if is_None result then
    match line with
    | [] => Ok result
    | t :: up =>
        (let? result := py_or result (_tag_value t attribute cast) in
         match up with
         | [] => Ok result
         | _ :: _ => tag_value_loop result up attribute cast
         end)%res
    end
  else Ok result.

Definition tag_value (t : tag) (attribute : string) (inherited : bool)
    (cast : option (ustr -> res pyval)) : res pyval :=
  if negb inherited then _tag_value t attribute cast
  else tag_value_loop VNone (lineage t) attribute cast.

Record rect : Type := mkRect { x : pyval; y : pyval; w : pyval; h : pyval }.

Fixpoint tag_rect_loop (r0 r1 r2 r3 : pyval) (line : list tag) : res rect :=
  if is_None r0 || is_None r1 || is_None r2 || is_None r3 then
    match line with
    | [] => Ok (mkRect r0 r1 r2 r3)
    | t :: up =>
        (let? r0 := py_or r0 (_tag_value t "left" (Some cast_int)) in
         let? r1 := py_or r1 (_tag_value t "top" (Some cast_int)) in
         let? r2 := py_or r2 (_tag_value t "width" (Some cast_int)) in
         let? r3 := py_or r3 (_tag_value t "height" (Some cast_int)) in
         match up with
         | [] => Ok (mkRect r0 r1 r2 r3)
         | _ :: _ => tag_rect_loop r0 r1 r2 r3 up
         end)%res
    end
  else Ok (mkRect r0 r1 r2 r3).

Definition tag_rect (t : tag) : res rect :=
  tag_rect_loop VNone VNone VNone VNone (lineage t).

(** ** Field parsers *)

Definition MIN_TITLE_FONT_SIZE : Z := 15.

Definition is_span_on_page_1 (t : tag) : bool :=
  String.eqb (name t) "span" && attr_is t "page" (u "1").

Definition is_title (t : tag) : res bool :=
  if negb (String.eqb (name t) "span") || negb (attr_is t "page" (u "1")) then Ok false
  else
    match get t "font-size" with
    | None => Ok false
    | Some size =>
        (let? z := py_int size in
         if (z <? MIN_TITLE_FONT_SIZE)%Z then Ok false else Ok true)%res
    end.

Definition find_title (soup : tag) : M context ustr :=
  (title <- lift (find_first is_title (descendants soup)) ;;
   match title with
   | Some title =>
       size <- lift (tag_value title "font-size" true (Some cast_int)) ;;
       modify (insert "title-size" size) ;;;
       ret (normalize_str (text title))
   | None => throw InsufficientParser
   end)%M.

Definition is_namelike (t : tag) (ctx : context) : res (option nat) :=
  if negb (String.eqb (name t) "span") || negb (attr_is t "page" (u "1")) then Ok None
  else
    (let? top := tag_value t "top" true (Some cast_int) in
     let? below :=
       if is_None top then Ok true
       else let? date_start := ctx_get "date-start" ctx in py_gt top date_start in
     if below then Ok None
     else
       let? size := tag_value t "font-size" true (Some cast_int) in
       let? outside :=
         if is_None size then Ok true
         else
           let? date_size := ctx_get "date-size" ctx in
           let? small := py_le size date_size in
           if small then Ok true
           else let? title_size := ctx_get "title-size" ctx in py_ge size title_size in
       if outside then Ok None
       else
         let content := strip (text t) in
         if Nat.eqb (length content) 0 then Ok None
         else Ok (re_match RE_AUTHOR_NAME content))%res.

Definition is_Some_b {A} (o : option A) : bool :=
  match o with Some _ => true | None => false end.

(** [pos = RE_PREFIX_SKIP.search(cleaned)] and the slice [cleaned[end:]]
    that follows when there is a match. *)
Definition skip_prefix (cleaned : ustr) : ustr :=
  match re_search RE_PREFIX_SKIP cleaned with
  | Some (_, end_) => skipn end_ cleaned
  | None => cleaned
  end.

(** The [for c in ...] loop of [find_authors]; [name.groups()] on a failed
    search is an [AttributeError]. *)
Fixpoint find_authors_loop (result : list ustr) (cs : list tag) : res (list ustr) :=
  match cs with
  | [] => Ok result
  | c :: cs' =>
      let name_ := re_search RE_AUTHOR_NAME (strip (text c)) in
      if ustr_eqb (strip (text c)) [0xC6%N] then find_authors_loop result cs'
      else
        match name_ with
        | None => Raise AttributeError
        | Some _ =>
            if (3 <=? ngroups RE_AUTHOR_NAME)%nat then
              find_authors_loop (result ++ [skip_prefix (strip (text c))]) cs'
            else find_authors_loop result cs'
        end
  end.

Definition find_authors (soup : tag) (ctx : context) : res (list ustr) :=
  (let? cs := find_all (fun t => let? m := is_namelike t ctx in Ok (is_Some_b m))
                       (descendants soup) in
   let? result := find_authors_loop [] cs in
   if (0 <? length result)%nat then Ok result else Raise InsufficientParser)%res.

Definition phase_of (c : ustr) : string :=
  let c_lower := lower c in
  if startswith c_lower (u "received") then "received"
  else if startswith c_lower (u "accepted") then "accepted"
  else if startswith c_lower (u "published") then "published"
  else "published".

Fixpoint parse_dates_loop (result : list (string * pyval)) (content : list ustr)
    : res (list (string * pyval)) :=
  match content with
  | [] => Ok result
  | c :: content' =>
      let phase := phase_of c in
      match nth_error (split 0x3A c) 1 with
      | Some value => parse_dates_loop (dict_set phase (VStr (strip value)) result) content'
      | None => Raise IndexError
      end
  end.

Definition parse_dates (content : ustr) : res (list (string * pyval)) :=
  parse_dates_loop [] (map strip (split 0x2F content)).

Definition DATE_KEYWORDS : list ustr :=
  [ u "received:"; u "accepted:"; u "published:"; u "published online:" ].

(** [next(filter(f, l))] *)
Fixpoint next_filter {A} (f : A -> bool) (l : list A) : res A :=
  match l with
  | [] => Raise StopIteration
  | a :: l' => if f a then Ok a else next_filter f l'
  end.

(** What [find_dates] does once [lowered.startswith(begin)] holds. *)
Definition dates_at (date : tag) (content begin : ustr) : M context (list (string * pyval)) :=
  (top <- lift (tag_value date "top" true (Some cast_int)) ;;
   modify (insert "date-start" top) ;;;
   size <- lift (tag_value date "font-size" true (Some cast_int)) ;;
   modify (insert "date-size" size) ;;;
   line <- lift (next_filter
                   (fun it => ustr_eqb begin (firstn (length begin) (lower it)))
                   (split 0x0A content)) ;;
   lift (parse_dates line))%M.

(** The inner [for begin in DATE_KEYWORDS] loop: the first keyword that
    [lowered] starts with, if any. *)
Fixpoint first_keyword (lowered : ustr) (kws : list ustr) : option ustr :=
  match kws with
  | [] => None
  | begin :: kws' => if startswith lowered begin then Some begin else first_keyword lowered kws'
  end.

Fixpoint find_dates_loop (spans : list tag) : M context (list (string * pyval)) :=
  match spans with
  | [] => throw InsufficientParser
  | date :: spans' =>
      let content := strip (text date) in
      let lowered := lower content in
      match first_keyword lowered DATE_KEYWORDS with
      | Some begin => dates_at date content begin
      | None => find_dates_loop spans'
      end
  end.

Definition find_dates (soup : tag) : M context (list (string * pyval)) :=
  find_dates_loop (List.filter is_span_on_page_1 (descendants soup)).

(** The stages as [handle_sample] sees them: the key(s) a stage fills, its
    [__name__], and the stage with its result as a Python value. *)
Inductive pyname : Type :=
| NStr (s : string)
| NTuple (l : list string).

Record parser : Type := mkParser {
  p_key : pyname;
  p_name : string;
  p_run : tag -> M context pyval
}.

Definition title_stage : parser :=
  mkParser (NStr "title") "find_title"
    (fun soup => s <- find_title soup ;; ret (VStr s))%M.

Definition dates_stage : parser :=
  mkParser (NTuple ["received"; "accepted"; "published"]) "find_dates"
    (fun soup => d <- find_dates soup ;; ret (VDict d))%M.

Definition authors_stage : parser :=
  mkParser (NStr "authors") "find_authors"
    (fun soup => ctx <- get_state ;;
                 l <- lift (find_authors soup ctx) ;;
                 ret (VList (map VStr l)))%M.

Definition PARSERS : list parser := [ title_stage; dates_stage; authors_stage ].

(** ** Flattener and driver *)

(** The data frame is an object of pandas.  [pd.DataFrame()] and the
    assignment [frame.loc[row, column] = v] are code of pandas, not of this
    module: pandas decides what the assignment stores (it converts the
    value to the type of the column, an integer in a new column becomes a
    float) and whether it accepts the value at all (it can raise, as it
    does in recent versions for text in a column of numbers).  The model
    leaves both open: a frame is any type with an empty frame and an
    assignment that returns or raises, and leaves some frame behind in
    both cases.  Whatever class of exception the assignment raises,
    [handle_sample] treats it as it treats any [Exception] other than
    [InsufficientParser]. *)
Class Pandas (frame : Type) : Type := {
  DataFrame : frame;
  loc_set : string -> string -> pyval -> M frame unit
}.

(** The nested record. *)
Abbreviation record := (gmap string pyval).

Section Loops.
Context {S A : Type}.

Section Each.
Context (body : A -> M S unit).

(** [for a in l: body(a)] *)
Fixpoint for_each (l : list A) : M S unit :=
  match l with
  | [] => ret tt
  | a :: l' => (body a ;;; for_each l')%M
  end.

End Each.

Section Enumerate.
Context (body : nat -> A -> M S unit).

(** [for i, a in enumerate(l): body(i, a)], counting from [i] *)
Fixpoint for_enumerate (i : nat) (l : list A) : M S unit :=
  match l with
  | [] => ret tt
  | a :: l' => (body i a ;;; for_enumerate (Datatypes.S i) l')%M
  end.

End Enumerate.
End Loops.

(** What [handle_sample] prints for a stage that did not deliver. *)
Inductive report : Type :=
| CantFind (parser_name : string)
| ErrorHandling (parser_name : string) (e : exn).

Record run_state (frame : Type) : Type := mkRun {
  rs_frame : frame;
  rs_structured : record;
  rs_context : context;
  rs_log : list report
}.
Arguments mkRun {frame} rs_frame rs_structured rs_context rs_log.
Arguments rs_frame {frame} r.
Arguments rs_structured {frame} r.
Arguments rs_context {frame} r.
Arguments rs_log {frame} r.

Section Driver.
Context {frame : Type} `{Pandas frame}.

(** [frame.loc[row, column] = v]; the record is not touched. *)
Definition set_cell (row column : string) (v : pyval) : M (frame * record) unit :=
  fun st => let '(r, fr) := loc_set row column v (fst st) in (r, (fr, snd st)).

(** [structured[k] = v] *)
Definition set_field (k : string) (v : pyval) : M (frame * record) unit :=
  modify (fun st : frame * record => (fst st, <[k := v]> (snd st))).

(** A dictionary has each key once, so in [for entry in value] the value
    [value.get(entry)] is the one stored with [entry]. *)
Fixpoint store_recursive (row parser_name : string) (nm : pyname) (value : pyval)
    (table_only : bool) (separator : string) {struct value} : M (frame * record) unit :=
  match value with
  | VNone => ret tt
  | VList l | VTuple l =>
      match nm with
      | NStr n =>
          (set_cell row (n +:+ separator +:+ "length") (VInt (Z.of_nat (length l))) ;;;
           for_enumerate
             (fun i entry =>
                store_recursive row parser_name (NStr (n +:+ separator +:+ pretty i))
                  entry true separator) 0 l ;;;
           if table_only then ret tt else set_field n (VList l))%M
      | NTuple _ => throw AssertionError
      end
  | VDict d =>
      match nm with
      | NTuple names =>
          for_each
            (fun entry =>
               dict_get_with
                 (fun v => store_recursive row parser_name (NStr entry) v true separator)
                 (ret tt) entry d ;;;
               if table_only then ret tt else set_field entry (dict_get entry d))%M
            names
      | NStr n =>
          (for_each
             (fun kv : string * pyval =>
                store_recursive row parser_name (NStr (n +:+ separator +:+ fst kv))
                  (snd kv) true separator) d ;;;
           if table_only then ret tt else set_field n (VDict d))%M
      end
  | VInt _ | VStr _ =>
      match nm with
      | NStr n =>
          (set_cell row n value ;;;
           if table_only then ret tt else set_field n value)%M
      | NTuple _ => throw PlainException
      end
  end.

(** One iteration of [for name, f in PARSERS.items()], with its two
    [except] clauses. *)
Definition run_parser (key : string) (soup : tag) (p : parser) (st : run_state frame)
    : run_state frame :=
  let '(r, ctx) := p_run p soup (rs_context st) in
  let '(r, (fr, sd)) :=
    match r with
    | Ok v => store_recursive key (p_name p) (p_key p) v false "."
                (rs_frame st, rs_structured st)
    | Raise e => (Raise e, (rs_frame st, rs_structured st))
    end in
  match r with
  | Ok _ => mkRun fr sd ctx (rs_log st)
  | Raise InsufficientParser => mkRun fr sd ctx (rs_log st ++ [CantFind (p_name p)])
  | Raise e => mkRun fr sd ctx (rs_log st ++ [ErrorHandling (p_name p) e])
  end.

Definition run_parsers (key : string) (soup : tag) (ps : list parser) (st : run_state frame)
    : run_state frame :=
  fold_left (fun st p => run_parser key soup p st) ps st.

(** [handle_sample] from the point where the document is parsed and not
    yet processed: [(key, frame, structured)], and what was printed.  The
    stage list is a parameter; the program runs it on [PARSERS].  The two
    [except] clauses inside the loop catch every exception of a stage, so
    the outer handler, which returns [(key, None, None)], is not reached
    from the loop. *)
Definition handle_sample_with (ps : list parser) (key : string) (soup : tag)
    : string * option frame * option record * list report :=
  let st := run_parsers key soup ps
              (mkRun DataFrame {[ "document" := VStr (u key ++ u ".pdf") ]} ∅ []) in
  (key, Some (rs_frame st), Some (rs_structured st), rs_log st).

Definition handle_sample
    : string -> tag -> string * option frame * option record * list report :=
  handle_sample_with PARSERS.

End Driver.

(** A frame that accepts every assignment and keeps the assignments it was
    asked for, in order: the journal of a run. *)
Definition journal : Type := list (string * string * pyval).
#[export] Typeclasses Opaque journal.

#[export] Instance journal_pandas : Pandas journal := {|
  DataFrame := [];
  loc_set := fun row column v fr => (Ok tt, fr ++ [(row, column, v)])
|}.

(** A frame that keeps the journal as well, but refuses text for a column
    that was assigned a number, with a [TypeError] and leaving the frame as
    it was: the way pandas 3 treats a column of numbers. *)
Definition typed_journal : Type := list (string * string * pyval).
#[export] Typeclasses Opaque typed_journal.

Definition holds_number (column : string) (a : string * string * pyval) : bool :=
  String.eqb (snd (fst a)) column && match snd a with VInt _ => true | _ => false end.

#[export] Instance typed_pandas : Pandas typed_journal := {|
  DataFrame := [];
  loc_set := fun row column v fr =>
    match v with
    | VStr _ =>
        if existsb (holds_number column) fr then (Raise TypeError, fr)
        else (Ok tt, fr ++ [(row, column, v)])
    | _ => (Ok tt, fr ++ [(row, column, v)])
    end
|}.

(** ** Notions used in the statements *)

(** *** Attribute resolver *)


(** The attributes the module resolves with [tag_value] and [tag_rect].
    Their values are text: bs4 turns into lists only the values of the
    multi-valued attributes of HTML ([class], [rel], [headers] and the
    like), none of which the module reads. *)
Definition RESOLVED_ATTRIBUTES : list string :=
  [ "font-size"; "top"; "left"; "width"; "height" ].

(** What the resolver gives on a line of tags, the nearest first.  Without
    a cast: the first value there is.  With a cast: the cast of the first
    value whose cast is a true value; a value whose cast is falsy is passed
    over, and the exception of a cast that is reached is raised. *)
Fixpoint resolved (cast : option (ustr -> res pyval)) (key : string) (line : list tag)
    : res pyval :=
  match line with
  | [] => Ok VNone
  | t :: up =>
      match get t key, cast with
      | None, _ => resolved cast key up
      | Some v, None => Ok (VStr v)
      | Some v, Some c =>
          match c v with
          | Ok r => if truthy r then Ok r else resolved cast key up
          | Raise e => Raise e
          end
      end
  end.

(** [cast] for a function that reads an integer, as [int] does. *)
Definition cast_with (f : ustr -> res Z) : ustr -> res pyval :=
  fun v => (let? z := f v in Ok (VInt z))%res.

(** A resolved value is either [None] or a true value. *)
Definition clean (r : pyval) : Prop := r = VNone \/ truthy r = true.

(** The four geometry attributes with the field of the rectangle each fills. *)
Definition geometry : list (string * (rect -> pyval)) :=
  [ ("left", x); ("top", y); ("width", w); ("height", h) ].

(** *** Dates *)

(** The text after the first [sep], if [sep] occurs. *)
Fixpoint after_first (sep : N) (s : ustr) : option ustr :=
  match s with
  | [] => None
  | c :: s' => if (c =? sep)%N then Some s' else after_first sep s'
  end.

(** The text before the first [sep], or all of it. *)
Fixpoint up_to (sep : N) (s : ustr) : ustr :=
  match s with
  | [] => []
  | c :: s' => if (c =? sep)%N then [] else c :: up_to sep s'
  end.

(** The date a segment carries: what follows its first colon, up to a
    second colon if there is one, trimmed; none without a colon. *)
Definition date_value (c : ustr) : option ustr :=
  option_map (fun rest => strip (up_to 0x3A rest)) (after_first 0x3A c).

Fixpoint dates_of_segments (result : list (string * pyval)) (cs : list ustr)
    : option (list (string * pyval)) :=
  match cs with
  | [] => Some result
  | c :: cs' =>
      match date_value c with
      | Some v => dates_of_segments (dict_set (phase_of c) (VStr v) result) cs'
      | None => None
      end
  end.

(** The first line of a text. *)
Definition first_line (s : ustr) : ustr := hd [] (split 0x0A s).

(** A span "has a date keyword" when its trimmed, lower-cased text starts
    with one of [DATE_KEYWORDS]. *)
Definition date_keyword (t : tag) : option ustr :=
  first_keyword (lower (strip (text t))) DATE_KEYWORDS.

(** *** Authors *)

(** A page-1 span with a resolved vertical position, and its opposite. *)
Definition positioned (t : tag) : Prop :=
  is_span_on_page_1 t = true
  /\ exists z, tag_value t "top" true (Some cast_int) = Ok (VInt z).

Definition unpositioned (t : tag) : Prop :=
  is_span_on_page_1 t = false \/ tag_value t "top" true (Some cast_int) = Ok VNone.

(** The words a pattern matches (with [^] taken as the empty word). *)
Inductive lang : regex -> ustr -> Prop :=
| L_set rs c : in_ranges c rs = true -> lang (RSet rs) [c]
| L_cat a b v1 v2 : lang a v1 -> lang b v2 -> lang (RCat a b) (v1 ++ v2)
| L_alt_l a b v : lang a v -> lang (RAlt a b) v
| L_alt_r a b v : lang b v -> lang (RAlt a b) v
| L_opt_skip a : lang (ROpt a) []
| L_opt_take a v : lang a v -> lang (ROpt a) v
| L_plus_once a v : lang a v -> lang (RPlus a) v
| L_plus_more a v1 v2 : lang a v1 -> lang (RPlus a) v2 -> lang (RPlus a) (v1 ++ v2)
| L_group a v : lang a v -> lang (RGroup a) v
| L_noncap a v : lang a v -> lang (RNonCap a) v
| L_bol : lang RBol [].

(** *** Flattener *)

(** Values the flattener writes as they are. *)
Definition scalar (v : pyval) : Prop :=
  match v with
  | VInt _ | VStr _ => True
  | _ => False
  end.

(** What [structured[n]] becomes when [value] is stored under [n]. *)
Definition stored_form (value : pyval) : pyval :=
  match value with
  | VTuple l => VList l
  | _ => value
  end.

(** *** What flattening asks of the frame *)

Section FlatEnumerate.
Context {A B : Type} (f : nat -> A -> list B).

(** The lists [f i a] for the elements [a] of [l] with their indices,
    counted from [i], one after the other. *)
Fixpoint flat_enumerate (i : nat) (l : list A) : list B :=
  match l with
  | [] => []
  | a :: l' => f i a ++ flat_enumerate (Datatypes.S i) l'
  end.

End FlatEnumerate.

(** The columns and values that flattening [value] under the column [n]
    assigns, in order: nothing for [None]; the value itself for an integer
    or a string; for a sequence its length under [n.length] and then what
    each element gives under [n.<index>]; for a mapping what each value
    gives under [n.<key>]. *)
Fixpoint columns (sep n : string) (value : pyval) {struct value} : list (string * pyval) :=
  match value with
  | VNone => []
  | VInt _ | VStr _ => [(n, value)]
  | VList l | VTuple l =>
      (n +:+ sep +:+ "length", VInt (Z.of_nat (length l)))
      :: flat_enumerate (fun i e => columns sep (n +:+ sep +:+ pretty i) e) 0 l
  | VDict d => flat_map (fun kv => columns sep (n +:+ sep +:+ fst kv) (snd kv)) d
  end.

Section Assignments.
Context {frame : Type} `{Pandas frame}.

(** The assignments [frame.loc[row, c] = v] for the pairs of [cells], in
    order, up to the first one the frame refuses. *)
Definition assign (row : string) (cells : list (string * pyval)) : M (frame * record) unit :=
  for_each (fun cv => set_cell row (fst cv) (snd cv)) cells.

(** [structured[n] = value] as the flattener does it: not for [None], and
    with a tuple turned into a list. *)
Definition store_field (n : string) (value : pyval) : M (frame * record) unit :=
  match value with
  | VNone => ret tt
  | _ => set_field n (stored_form value)
  end.

(** The frame accepts every assignment in [row]. *)
Definition accepts_row (row : string) : Prop :=
  forall (column : string) (v : pyval) (fr : frame), fst (loc_set row column v fr) = Ok tt.

End Assignments.

(** Column [c] is [m] or continues [m] after a separator. *)
Definition under (sep m c : string) : Prop :=
  c = m \/ exists rest, c = m +:+ sep +:+ rest.

(** Induction on values that reaches the elements of sequences and the
    values of mappings. *)
Section PyvalInd.
Context (P : pyval -> Prop).
Context (HNone : P VNone) (HInt : forall z, P (VInt z)) (HStr : forall s, P (VStr s)).
Context (HList : forall l, Forall P l -> P (VList l)).
Context (HTuple : forall l, Forall P l -> P (VTuple l)).
Context (HDict : forall d, Forall (fun kv => P (snd kv)) d -> P (VDict d)).

Fixpoint pyval_nested_ind (v : pyval) : P v :=
  match v with
  | VNone => HNone
  | VInt z => HInt z
  | VStr s => HStr s
  | VList l =>
      HList l ((fix go (l : list pyval) : Forall P l :=
                  match l with
                  | [] => @List.Forall_nil _ P
                  | e :: l' => @List.Forall_cons _ P e l' (pyval_nested_ind e) (go l')
                  end) l)
  | VTuple l =>
      HTuple l ((fix go (l : list pyval) : Forall P l :=
                   match l with
                   | [] => @List.Forall_nil _ P
                   | e :: l' => @List.Forall_cons _ P e l' (pyval_nested_ind e) (go l')
                   end) l)
  | VDict d =>
      HDict d ((fix go (d : list (string * pyval)) : Forall (fun kv => P (snd kv)) d :=
                  match d with
                  | [] => @List.Forall_nil _ _
                  | kv :: d' =>
                      @List.Forall_cons _ (fun kv => P (snd kv)) kv d'
                        (pyval_nested_ind (snd kv)) (go d')
                  end) d)
  end.

End PyvalInd.

(** ** Sample documents *)

Definition span (a : list (string * ustr)) (cs : list node) : node :=
  Tag "span" (list_to_map a) cs.
Definition div (a : list (string * ustr)) (cs : list node) : node :=
  Tag "div" (list_to_map a) cs.
Definition txt (s : string) : node := NavigableString (u s).


(** A span at [top] 0, [left] 0 inside a block at [top] 40 without [left]. *)
Definition zero_span : tag :=
  mkTag "span" (list_to_map [("top", u "0"); ("left", u "0")]) [txt "x"]
    [div [("top", u "40")] [span [("top", u "0"); ("left", u "0")] [txt "x"]]].

(** A span at [top] 4.5 inside a block at [top] 40. *)
Definition fractional_span : tag :=
  mkTag "span" (list_to_map [("top", u "4.5")]) [txt "x"]
    [div [("top", u "40")] [span [("top", u "4.5")] [txt "x"]]].

(** First page of a paper: a page number, the title in 16 units, one author
    line and the line of dates. *)
Definition sample_paper : tag :=
  soup_of
    [ div [("page", u "1"); ("top", u "100")]
        [ span [("page", u "1"); ("font-size", u "9")] [txt "Page 1"] ];
      div [("page", u "1"); ("top", u "120")]
        [ span [("page", u "1"); ("font-size", u "16")] [txt " Fast  Graph  Algorithms "] ];
      div [("page", u "1"); ("top", u "150")]
        [ span [("page", u "1"); ("font-size", u "12")] [txt ", A. Author"] ];
      div [("page", u "1"); ("top", u "200")]
        [ span [("page", u "1"); ("font-size", u "9")]
            [txt "Received: 12 Jan 2020 / Accepted: 3 Mar 2020 / Published: 10 Apr 2020"] ] ].

(** The context the title and dates stages leave on [sample_paper]. *)
Definition sample_context : context :=
  <["date-size" := VInt 9]> (<["date-start" := VInt 200]> {[ "title-size" := VInt 16 ]}).

(** A title span that takes its size of 16 from the enclosing block. *)
Definition inherited_size_paper : tag :=
  soup_of
    [ div [("page", u "1"); ("font-size", u "16")]
        [ span [("page", u "1")] [txt "Fast Graph Algorithms"] ] ].

Definition date_line : ustr :=
  u "Received: 12 Jan 2020 / Accepted: 3 Mar 2020 / Published: 10 Apr 2020".

(** A line of dates whose second segment has no colon. *)
Definition missing_colon_paper : tag :=
  soup_of
    [ div [("page", u "1"); ("top", u "200")]
        [ span [("page", u "1"); ("font-size", u "9")]
            [txt "Received: 12 Jan 2020 / revised"] ] ].

(** An author span on the very line of the dates (same [top]). *)
Definition same_line_paper : tag :=
  soup_of
    [ div [("page", u "1"); ("top", u "200")]
        [ span [("page", u "1"); ("font-size", u "12")] [txt "J. Smith"];
          span [("page", u "1"); ("font-size", u "9")] [txt "Received: 12 Jan 2020"] ] ].

(** One page-1 span with a position, and nothing else. *)
Definition lone_span_paper : tag :=
  soup_of
    [ div [("page", u "1"); ("top", u "150")]
        [ span [("page", u "1"); ("font-size", u "12")] [txt "J. Smith"] ] ].

(** An author line that is one word only. *)
Definition single_word_paper : tag :=
  soup_of
    [ div [("page", u "1"); ("top", u "150")]
        [ span [("page", u "1"); ("font-size", u "12")] [txt "Smith"] ] ].

(** "Maria Garcia-Lopez" with U+00ED for the i and U+00F3 for the o. *)
Definition maria : ustr :=
  u "Maria Garc" ++ [0xED%N] ++ u "a-L" ++ [0xF3%N] ++ u "pez".

(** A stage that hands a number to a tuple of keys. *)
Definition year_stage : parser :=
  mkParser (NTuple ["received"; "accepted"]) "find_year" (fun _ => ret (VInt 2020)).

(** ** Preprocessing of the parsed document *)

(** An attribute name taken from text: its UTF-8 bytes. *)
Definition utf8_char (c : N) : list ascii :=
  if (c <? 0x80)%N then [ascii_of_N c]
  else if (c <? 0x800)%N then
    [ascii_of_N (0xC0 + c / 0x40); ascii_of_N (0x80 + c mod 0x40)]
  else if (c <? 0x10000)%N then
    [ascii_of_N (0xE0 + c / 0x1000); ascii_of_N (0x80 + (c / 0x40) mod 0x40);
     ascii_of_N (0x80 + c mod 0x40)]
  else
    [ascii_of_N (0xF0 + c / 0x40000); ascii_of_N (0x80 + (c / 0x1000) mod 0x40);
     ascii_of_N (0x80 + (c / 0x40) mod 0x40); ascii_of_N (0x80 + c mod 0x40)].

Definition utf8 (s : ustr) : string := string_of_list_ascii (flat_map utf8_char s).

(** [s.endswith(p)] *)
Definition endswith (s p : ustr) : bool := startswith (rev s) (rev p).

Definition SIZE_ATTRIBUTES : list ustr :=
  [ u "font-size"; u "top"; u "left"; u "width"; u "height" ].

Definition map_style_val (name_ value : ustr) : res ustr :=
  if existsb (ustr_eqb name_) SIZE_ATTRIBUTES then
    if endswith value (u "px") then Ok (firstn (length value - 2) value)
    else Raise PlainException
  else Ok value.

(** [d[k] = v] for a dictionary with text keys. *)
Fixpoint udict_set (k v : ustr) (d : list (ustr * ustr)) : list (ustr * ustr) :=
  match d with
  | [] => [(k, v)]
  | (k', v') :: d' => if ustr_eqb k' k then (k, v) :: d' else (k', v') :: udict_set k v d'
  end.

(** The dictionary comprehension of [style_kv_obj]: [k, v = x.split(":")]
    is a [ValueError] unless there are exactly two parts. *)
Fixpoint style_pairs (result : list (ustr * ustr)) (decls : list ustr)
    : res (list (ustr * ustr)) :=
  match decls with
  | [] => Ok result
  | x :: decls' =>
      match split 0x3A x with
      | [k; v] =>
          (let? value := map_style_val (strip k) (strip v) in
           style_pairs (udict_set (strip k) value result) decls')%res
      | _ => Raise ValueError
      end
  end.

(** [style_kv_obj]; the test [style is object] compares the text with the
    type [object] and is never true. *)
Definition style_kv_obj (style : option ustr) : res (option (list (ustr * ustr))) :=
  match style with
  | None | Some [] => Ok None
  | Some style =>
      (let? d := style_pairs []
                   (List.filter (fun x => negb (Nat.eqb (length x) 0))
                      (map strip (split 0x3B style))) in
       Ok (Some d))%res
  end.

(** The [if style:] block of [preprocess_soup] on the attributes of a tag. *)
Definition inline_style (a : gmap string ustr) : res (gmap string ustr) :=
  match a !! "style" with
  | Some (c :: style) =>
      (let? d := style_kv_obj (Some (c :: style)) in
       let a :=
         match d with
         | Some d => fold_left (fun a kv => <[utf8 (fst kv) := snd kv]> a) d a
         | None => a
         end in
       Ok (delete "style" a))%res
  | _ => Ok a
  end.

Section MapState.
Context {A B St : Type} (f : St -> A -> res (B * St)).

(** A loop over [l] that carries a state and rebuilds the list. *)
Fixpoint map_state (st : St) (l : list A) : res (list B * St) :=
  match l with
  | [] => Ok ([], st)
  | a :: l' =>
      (let? r := f st a in
       let? r' := map_state (snd r) l' in
       Ok (fst r :: fst r', snd r'))%res
  end.

End MapState.

(** The body of the loop of [preprocess_soup] at one element and, in
    document order, at everything below it; [page_index] goes in and comes
    out.  Strings have no [attrs] and are skipped. *)
Fixpoint preprocess_node (page_index : ustr) (n : node) : res (node * ustr) :=
  match n with
  | NavigableString _ => Ok (n, page_index)
  | Tag nm a cs =>
      (let? a := inline_style a in
       let page_index :=
         if String.eqb nm "a" then
           match a !! "name" with
           | Some name_ =>
               if startswith (strip (flat_map node_text cs)) (u "Page") then name_
               else page_index
           | None => page_index
           end
         else page_index in
       let a := if negb (String.eqb nm "br") then <["page" := page_index]> a else a in
       let? r := map_state preprocess_node page_index cs in
       Ok (Tag nm a (fst r), snd r))%res
  end.

Definition preprocess_soup (soup : tag) : res tag :=
  (let? r := map_state preprocess_node (u "0") (contents soup) in
   Ok (mkTag (name soup) (attrs soup) (fst r) (ancestors soup)))%res.

(** *** Notions used in the statements about preprocessing *)

(** The page a marker announces: a link with a [name] whose trimmed text
    starts with "Page". *)
Definition page_marker (t : tag) : option ustr :=
  if String.eqb (name t) "a" && startswith (strip (text t)) (u "Page")
  then get t "name" else None.

(** The page in force after the tags [ts], starting from [page]. *)
Fixpoint page_after (page : ustr) (ts : list tag) : ustr :=
  match ts with
  | [] => page
  | t :: ts' => page_after (default page (page_marker t)) ts'
  end.

(** Every tag of [ts] other than a line break carries the page of the last
    marker up to and including itself, [page] when there is none. *)
Fixpoint pages_follow (page : ustr) (ts : list tag) : Prop :=
  match ts with
  | [] => True
  | t :: ts' =>
      let page' := default page (page_marker t) in
      (name t <> "br" -> get t "page" = Some page') /\ pages_follow page' ts'
  end.

(** A page as the layout converter writes it: a marker, a block with
    geometry in its style, a title span. *)
Definition raw_paper : tag :=
  soup_of
    [ Tag "span" (list_to_map [("style", u "position:absolute; top:0px;")])
        [ Tag "a" (list_to_map [("name", u "1")]) [txt "Page 1"] ];
      Tag "div" (list_to_map [("style", u "left:56px; top:120px; width:300px; height:20px;")])
        [ Tag "span" (list_to_map [("style", u "font-family: Times; font-size:16px")])
            [ txt "Fast Graph Algorithms"; Tag "br" ∅ [] ] ] ].

(** Induction on nodes that reaches the children. *)
Section NodeInd.
Context (P : node -> Prop).
Context (HString : forall s, P (NavigableString s)).
Context (HTag : forall nm a cs, Forall P cs -> P (Tag nm a cs)).

Fixpoint node_nested_ind (n : node) : P n :=
  match n with
  | NavigableString s => HString s
  | Tag nm a cs =>
      HTag nm a cs ((fix go (cs : list node) : Forall P cs :=
                       match cs with
                       | [] => @List.Forall_nil _ P
                       | c :: cs' => @List.Forall_cons _ P c cs' (node_nested_ind c) (go cs')
                       end) cs)
  end.

End NodeInd.

(** Name and text of the tags of a subtree in document order. *)
Fixpoint outline (n : node) : list (string * ustr) :=
  match n with
  | NavigableString _ => []
  | Tag nm _ cs => (nm, flat_map node_text cs) :: flat_map outline cs
  end.

(** [d.get(k)] for a dictionary with text keys. *)
Fixpoint udict_get (k : ustr) (d : list (ustr * ustr)) : option ustr :=
  match d with
  | [] => None
  | (k', v) :: d' => if ustr_eqb k' k then Some v else udict_get k d'
  end.

(** The declarations of a style: its parts between semicolons, trimmed,
    the empty ones left out. *)
Definition declarations (style : ustr) : list ustr :=
  List.filter (fun x => negb (Nat.eqb (length x) 0)) (map strip (split 0x3B style)).

(** A declaration [style_kv_obj] accepts: one colon, and a size in [px]. *)
Definition declaration_ok (x : ustr) : Prop :=
  exists k v, split 0x3A x = [k; v]
              /\ (existsb (ustr_eqb (strip k)) SIZE_ATTRIBUTES = true ->
                  endswith (strip v) (u "px") = true).

(** ** Notions used in the statements about [normalize_str] *)

(** The characters of [RE_WHITESPACE]. *)
Definition is_ws (c : N) : bool :=
  in_ranges c ([ (0x0A, 0x0A); (0x09, 0x09) ]%N ++ _RE_SPACE).

(** Every run of [RE_WHITESPACE] characters becomes one space; [in_run]
    says that the run the text starts in has its space already. *)
Fixpoint collapse_spaces (in_run : bool) (s : ustr) : ustr :=
  match s with
  | [] => []
  | c :: s' =>
      if is_ws c then
        if in_run then collapse_spaces true s' else 0x20%N :: collapse_spaces true s'
      else c :: collapse_spaces false s'
  end.

(** No two neighbours of [s] are both [RE_WHITESPACE] characters. *)
Fixpoint single_spaced (s : ustr) : bool :=
  match s with
  | c :: s' =>
      match s' with
      | d :: _ => negb (is_ws c && is_ws d) && single_spaced s'
      | [] => true
      end
  | [] => true
  end.

(** The text neither starts nor ends with a character [strip] removes. *)
Definition trimmed (s : ustr) : Prop :=
  match s with [] => True | c :: _ => py_isspace c = false end
  /\ match rev s with [] => True | c :: _ => py_isspace c = false end.

(** ** Sample documents for the outcomes of the stages *)

(** A span with a good [top] below a block whose [top] is not a number. *)
Definition shielded_span : tag :=
  mkTag "span" (list_to_map [("top", u "40")]) [txt "x"]
    [div [("top", u "4.5")] [span [("top", u "40")] [txt "x"]]].

(** A page-1 span with a fractional size in front of a proper title. *)
Definition fractional_size_paper : tag :=
  soup_of
    [ span [("page", u "1"); ("font-size", u "11.5")] [txt "Journal of Graphs"];
      span [("page", u "1"); ("font-size", u "16")] [txt "Fast Graph Algorithms"] ].

(** ** The result of the dates stage *)

Definition PHASES : list string := ["received"; "accepted"; "published"].

(** The last segment of [cs] that [parse_dates] files under [phase]. *)
Definition last_of_phase (phase : string) (cs : list ustr) : option ustr :=
  find (fun c => String.eqb (phase_of c) phase) (rev cs).

(** A dictionary of dates: not empty, each key once and one of [PHASES],
    each value a string with no white space at its ends. *)
Definition dates_shape (d : list (string * pyval)) : Prop :=
  d <> [] /\ List.NoDup (map fst d)
  /\ forall k v, In (k, v) d -> In k PHASES /\ exists s, v = VStr s /\ trimmed s.

(** Three segments, two of them for the same phase. *)
Definition republished_line : ustr :=
  u "Received: 1 May 2008 / Published: 2 June 2008 / Published online: 3 July 2008".

(** ** The result of the authors stage *)

(** The tags [find_all] keeps for [find_authors]. *)
Definition namelike (ctx : context) (t : tag) : bool :=
  match is_namelike t ctx with
  | Ok (Some _) => true
  | _ => false
  end.

(** [is_namelike] returns on [t], whatever it returns. *)
Definition namelike_defined (ctx : context) (t : tag) : bool :=
  match is_namelike t ctx with
  | Ok _ => true
  | Raise _ => false
  end.

(** ** A mapping under a tuple of names *)

(** The dictionary of dates of a paper that was received and published,
    with an entry that no stage declares. *)
Definition two_dates : list (string * pyval) :=
  [("received", VStr (u "12 Jan 2020")); ("published", VStr (u "10 Apr 2020"));
   ("revised", VStr (u "1 Feb 2020"))].

(** ** The stages as the driver runs them *)

(** What the driver prints for an exception of the stage [pn]. *)
Definition report_of (pn : string) (e : exn) : report :=
  match e with
  | InsufficientParser => CantFind pn
  | _ => ErrorHandling pn e
  end.







Section Assigned.
Context {frame : Type} `{Pandas frame}.


End Assigned.


(** A page as the layout converter writes it when it gives no page
    markers. *)
Definition unmarked_paper : tag :=
  soup_of
    [ Tag "div" (list_to_map [("style", u "left:56px; top:120px;")])
        [ Tag "span" (list_to_map [("style", u "font-size:16px")])
            [ txt "Fast Graph Algorithms" ] ] ].

(** * Properties *)

(** ** Attribute resolver *)

Lemma lineage_unfold t :
  lineage t = t :: match parent t with Some p => lineage p | None => [] end.
Proof.
  destruct t as [nm a cs up]. unfold lineage, parent. simpl.
  destruct up as [|[nm' a' cs'|s] up']; reflexivity.
Qed.

Lemma clean_cases r : clean r -> r = VNone \/ (is_None r = false /\ truthy r = true).
Proof.
  intros [->|H]; [left; reflexivity|].
  destruct r; simpl in *; try discriminate; right; auto.
Qed.

Lemma tag_value_loop_resolved r line key cast :
  is_None r = false -> tag_value_loop r line key cast = Ok r.
Proof. intros H. destruct line; simpl; rewrite H; reflexivity. Qed.

Lemma tag_value_loop_nil r key cast : tag_value_loop r [] key cast = Ok r.
Proof. simpl. destruct (is_None r); reflexivity. Qed.

(** One turn of the loop, for a result that is still [None] or final. *)
Lemma tag_value_loop_cons r t up key cast :
  clean r ->
  tag_value_loop r (t :: up) key cast =
  (let? r' := py_or r (_tag_value t key cast) in tag_value_loop r' up key cast)%res.
Proof.
  intros Hr. apply clean_cases in Hr as [->|[Hn Ht]].
  - simpl. destruct (py_or VNone (_tag_value t key cast)) as [r'|e]; simpl; [|reflexivity].
    destruct up; [|reflexivity]. simpl. destruct (is_None r'); reflexivity.
  - rewrite tag_value_loop_resolved by exact Hn.
    unfold py_or. rewrite Ht. simpl. rewrite tag_value_loop_resolved by exact Hn. reflexivity.
Qed.

Lemma tag_value_step t key cast :
  tag_value t key true cast =
  (let? r := _tag_value t key cast in
   if is_None r then
     match parent t with Some p => tag_value p key true cast | None => Ok VNone end
   else Ok r)%res.
Proof.
  unfold tag_value. simpl. rewrite lineage_unfold.
  rewrite tag_value_loop_cons by (left; reflexivity).
  unfold py_or. simpl.
  destruct (_tag_value t key cast) as [r|e]; simpl; [|reflexivity].
  destruct (is_None r) eqn:E.
  - destruct r; try discriminate. destruct (parent t); reflexivity.
  - apply tag_value_loop_resolved. exact E.
Qed.


(** *** [int] as the cast *)

Lemma int_digits_raise s : forall acc n b e, int_digits acc n b s = Raise e -> e = ValueError.
Proof.
  induction s as [|c s IH]; intros acc n b e; cbn [int_digits].
  - destruct (b && (n <=? MAX_STR_DIGITS)%nat); congruence.
  - destruct (digit_value c); [apply IH|].
    destruct ((c =? 95)%N && b)%bool; [apply IH|congruence].
Qed.

Lemma py_int_raise s e : py_int s = Raise e -> e = ValueError.
Proof.
  unfold py_int. destruct (int_strip s) as [|c s']; [congruence|].
  destruct (c =? 45)%N.
  - destruct (int_digits 0 0 false s') eqn:E; [congruence|].
    intros [= <-]. eapply int_digits_raise; eauto.
  - destruct (c =? 43)%N; apply int_digits_raise.
Qed.

Lemma cast_int_raise v e : cast_int v = Raise e -> e = ValueError.
Proof.
  unfold cast_int. destruct (py_int v) eqn:E; simpl; [congruence|].
  intros [= <-]. eapply py_int_raise; eauto.
Qed.

Lemma cast_int_ok v r : cast_int v = Ok r -> exists z, py_int v = Ok z /\ r = VInt z.
Proof.
  unfold cast_int. destruct (py_int v) eqn:E; simpl; [|congruence].
  intros [= <-]. eauto.
Qed.

Lemma _tag_value_clean t key c r : _tag_value t key (Some c) = Ok r -> clean r.
Proof.
  unfold _tag_value. destruct (get t key) as [v|]; [|intros [= <-]; left; reflexivity].
  destruct (c v) as [r'|e]; simpl; [|congruence].
  destruct (truthy r') eqn:E; intros [= <-]; [right; exact E|left; reflexivity].
Qed.

Lemma _tag_value_int_raise t key e :
  _tag_value t key (Some cast_int) = Raise e -> e = ValueError.
Proof.
  unfold _tag_value. destruct (get t key) as [v|]; [|congruence].
  destruct (cast_int v) as [r'|e'] eqn:E; simpl; [congruence|].
  intros [= <-]. eapply cast_int_raise; eauto.
Qed.

Lemma py_or_clean r m r' :
  clean r -> (forall v, m = Ok v -> clean v) -> py_or r m = Ok r' -> clean r'.
Proof.
  intros Hr Hm. unfold py_or. destruct (truthy r) eqn:E.
  - intros [= <-]. exact Hr.
  - apply Hm.
Qed.

Lemma py_or_tag_value_clean r t key c r' :
  clean r -> py_or r (_tag_value t key (Some c)) = Ok r' -> clean r'.
Proof. intros Hr. apply py_or_clean; [exact Hr|]. intros v. apply _tag_value_clean. Qed.

Lemma tag_value_loop_clean c line : forall r key r',
  clean r -> tag_value_loop r line key (Some c) = Ok r' -> clean r'.
Proof.
  induction line as [|t up IH]; intros r key r' Hr.
  - rewrite tag_value_loop_nil. intros [= <-]. exact Hr.
  - rewrite tag_value_loop_cons by exact Hr.
    destruct (py_or r _) as [r1|e] eqn:E; simpl; [|congruence].
    apply IH. eapply py_or_tag_value_clean; eauto.
Qed.

Lemma tag_value_clean t key c r : tag_value t key true (Some c) = Ok r -> clean r.
Proof. unfold tag_value. simpl. apply tag_value_loop_clean. left; reflexivity. Qed.

Lemma py_or_int_raise r t key e :
  py_or r (_tag_value t key (Some cast_int)) = Raise e -> e = ValueError.
Proof.
  unfold py_or. destruct (truthy r); [congruence|apply _tag_value_int_raise].
Qed.

Lemma tag_value_loop_int_raise line : forall r key e, clean r ->
  tag_value_loop r line key (Some cast_int) = Raise e -> e = ValueError.
Proof.
  induction line as [|t up IH]; intros r key e Hr.
  - rewrite tag_value_loop_nil. congruence.
  - rewrite tag_value_loop_cons by exact Hr.
    destruct (py_or r _) as [r'|e'] eqn:E; simpl.
    + apply IH. eapply py_or_tag_value_clean; eauto.
    + intros [= <-]. eapply py_or_int_raise; eauto.
Qed.

Lemma tag_value_int_raise t key e :
  tag_value t key true (Some cast_int) = Raise e -> e = ValueError.
Proof. unfold tag_value. simpl. apply tag_value_loop_int_raise. left; reflexivity. Qed.

(** With [int] as the cast a resolved value is [None] or a non-zero integer. *)
Lemma tag_value_int_ok t key r :
  tag_value t key true (Some cast_int) = Ok r ->
  r = VNone \/ exists z, r = VInt z /\ z <> 0%Z.
Proof.
  revert r. unfold tag_value. simpl.
  assert (G : forall line r0 r, (r0 = VNone \/ exists z, r0 = VInt z /\ z <> 0%Z) ->
            tag_value_loop r0 line key (Some cast_int) = Ok r ->
            r = VNone \/ exists z, r = VInt z /\ z <> 0%Z).
  { induction line as [|t' up IH]; intros r0 r H0.
    - rewrite tag_value_loop_nil. intros [= <-]. exact H0.
    - assert (Hc : clean r0).
      { destruct H0 as [->|(z & -> & Hz)]; [left; reflexivity|right].
        simpl. destruct (Z.eqb_spec z 0); [contradiction|reflexivity]. }
      rewrite tag_value_loop_cons by exact Hc.
      destruct (py_or r0 _) as [r1|e] eqn:E; simpl; [|congruence].
      apply IH. unfold py_or in E. destruct (truthy r0).
      + injection E as <-. exact H0.
      + unfold _tag_value in E. destruct (get t' key) as [v|].
        * destruct (cast_int v) as [rv|] eqn:Ev; simpl in E; [|discriminate].
          apply cast_int_ok in Ev as (z & _ & ->). simpl in E.
          destruct (Z.eqb_spec z 0); simpl in E; injection E as <-; [left|right]; eauto.
        * injection E as <-. left; reflexivity. }
  intros r. apply G. left; reflexivity.
Qed.

(** *** The bounding box, component by component *)

Lemma tag_rect_loop_done r0 r1 r2 r3 line :
  is_None r0 = false -> is_None r1 = false -> is_None r2 = false -> is_None r3 = false ->
  tag_rect_loop r0 r1 r2 r3 line = Ok (mkRect r0 r1 r2 r3).
Proof. intros H0 H1 H2 H3. destruct line; simpl; rewrite H0, H1, H2, H3; reflexivity. Qed.

Lemma tag_rect_loop_nil r0 r1 r2 r3 :
  tag_rect_loop r0 r1 r2 r3 [] = Ok (mkRect r0 r1 r2 r3).
Proof. simpl. destruct (_ || _); reflexivity. Qed.

Lemma tag_rect_loop_cons r0 r1 r2 r3 t up :
  clean r0 -> clean r1 -> clean r2 -> clean r3 ->
  tag_rect_loop r0 r1 r2 r3 (t :: up) =
  (let? r0 := py_or r0 (_tag_value t "left" (Some cast_int)) in
   let? r1 := py_or r1 (_tag_value t "top" (Some cast_int)) in
   let? r2 := py_or r2 (_tag_value t "width" (Some cast_int)) in
   let? r3 := py_or r3 (_tag_value t "height" (Some cast_int)) in
   tag_rect_loop r0 r1 r2 r3 up)%res.
Proof.
  intros H0 H1 H2 H3.
  destruct (is_None r0 || is_None r1 || is_None r2 || is_None r3) eqn:E.
  - simpl. rewrite E.
    destruct (py_or r0 _) as [a|]; simpl; [|reflexivity].
    destruct (py_or r1 _) as [b|]; simpl; [|reflexivity].
    destruct (py_or r2 _) as [c|]; simpl; [|reflexivity].
    destruct (py_or r3 _) as [d|]; simpl; [|reflexivity].
    destruct up; [|reflexivity]. rewrite tag_rect_loop_nil. reflexivity.
  - apply orb_false_elim in E as [E E3]. apply orb_false_elim in E as [E E2].
    apply orb_false_elim in E as [E0 E1].
    rewrite tag_rect_loop_done by assumption.
    apply clean_cases in H0 as [->|[_ T0]]; [discriminate|].
    apply clean_cases in H1 as [->|[_ T1]]; [discriminate|].
    apply clean_cases in H2 as [->|[_ T2]]; [discriminate|].
    apply clean_cases in H3 as [->|[_ T3]]; [discriminate|].
    unfold py_or. rewrite T0, T1, T2, T3. simpl.
    rewrite tag_rect_loop_done by assumption. reflexivity.
Qed.

Ltac solve_clean :=
  match goal with
  | H : py_or ?r _ = Ok ?a |- clean ?a =>
      (eapply py_or_tag_value_clean; [|exact H]); assumption
  end.

Ltac only_value_error :=
  repeat match goal with
         | H : py_or _ (_tag_value _ _ (Some cast_int)) = Raise ?e |- _ =>
             is_var e; apply py_or_int_raise in H; subst e
         | H : tag_value_loop ?r ?l ?k (Some cast_int) = Raise ?e |- _ =>
             is_var e;
             assert (e = ValueError)
               by (apply (tag_value_loop_int_raise l r k e); [solve_clean|exact H]);
             subst e
         end.

(** The loop of [tag_rect] resolves each attribute as [tag_value] does; a
    failing cast anywhere is the same [ValueError] either way. *)
Lemma tag_rect_loop_components line : forall r0 r1 r2 r3,
  clean r0 -> clean r1 -> clean r2 -> clean r3 ->
  tag_rect_loop r0 r1 r2 r3 line =
  (let? a := tag_value_loop r0 line "left" (Some cast_int) in
   let? b := tag_value_loop r1 line "top" (Some cast_int) in
   let? c := tag_value_loop r2 line "width" (Some cast_int) in
   let? d := tag_value_loop r3 line "height" (Some cast_int) in
   Ok (mkRect a b c d))%res.
Proof.
  induction line as [|t up IH]; intros r0 r1 r2 r3 H0 H1 H2 H3.
  - rewrite tag_rect_loop_nil, !tag_value_loop_nil. reflexivity.
  - rewrite tag_rect_loop_cons, !tag_value_loop_cons by assumption.
    destruct (py_or r0 _) as [a|e0] eqn:E0; cbn [res_bind].
    2:{ only_value_error. reflexivity. }
    destruct (py_or r1 _) as [b|e1] eqn:E1; cbn [res_bind].
    2:{ destruct (tag_value_loop a up _ _) eqn:F0; cbn [res_bind];
          only_value_error; reflexivity. }
    destruct (py_or r2 _) as [c|e2] eqn:E2; cbn [res_bind].
    2:{ destruct (tag_value_loop a up _ _) eqn:F0; cbn [res_bind];
          [|only_value_error; reflexivity].
        destruct (tag_value_loop b up _ _) eqn:F1; cbn [res_bind];
          only_value_error; reflexivity. }
    destruct (py_or r3 _) as [d|e3] eqn:E3; cbn [res_bind].
    2:{ destruct (tag_value_loop a up _ _) eqn:F0; cbn [res_bind];
          [|only_value_error; reflexivity].
        destruct (tag_value_loop b up _ _) eqn:F1; cbn [res_bind];
          [|only_value_error; reflexivity].
        destruct (tag_value_loop c up _ _) eqn:F2; cbn [res_bind];
          only_value_error; reflexivity. }
    apply IH; solve_clean.
Qed.

Lemma tag_rect_components t :
  tag_rect t =
  (let? a := tag_value t "left" true (Some cast_int) in
   let? b := tag_value t "top" true (Some cast_int) in
   let? c := tag_value t "width" true (Some cast_int) in
   let? d := tag_value t "height" true (Some cast_int) in
   Ok (mkRect a b c d))%res.
Proof.
  unfold tag_rect, tag_value. simpl.
  apply tag_rect_loop_components; left; reflexivity.
Qed.

Lemma tag_rect_field t rc key proj :
  In (key, proj) geometry -> tag_rect t = Ok rc ->
  tag_value t key true (Some cast_int) = Ok (proj rc).
Proof.
  intros Hin. rewrite tag_rect_components.
  destruct (tag_value t "left" _ _) as [a|] eqn:Ea; simpl; [|discriminate].
  destruct (tag_value t "top" _ _) as [b|] eqn:Eb; simpl; [|discriminate].
  destruct (tag_value t "width" _ _) as [c|] eqn:Ec; simpl; [|discriminate].
  destruct (tag_value t "height" _ _) as [d|] eqn:Ed; simpl; [|discriminate].
  intros [= <-]. simpl in Hin.
  destruct Hin as [[= <- <-]|[[= <- <-]|[[= <- <-]|[[= <- <-]|[]]]]]; assumption.
Qed.

Lemma tag_value_loop_resolves (line : list tag) (key : string)
    (cast : option (ustr -> res pyval)) :
  tag_value_loop VNone line key cast = resolved cast key line.
Proof.
  induction line as [|t up IH]; [reflexivity|].
  rewrite tag_value_loop_cons by (left; reflexivity).
  unfold py_or, _tag_value. cbn [truthy resolved].
  destruct (get t key) as [v|]; destruct cast as [c|]; cbn [res_bind]; try exact IH.
  - destruct (c v) as [r|e]; cbn [res_bind]; [|reflexivity].
    destruct (truthy r) eqn:Er; [|exact IH].
    apply tag_value_loop_resolved. destruct r; try reflexivity. discriminate.
  - apply tag_value_loop_resolved. reflexivity.
Qed.





(** C10: an attribute that is present but whose cast value is falsy counts
    as absent.  [_tag_value] gives [None]; [tag_value] gives what the
    parent resolves to ([None] at the root), so never a falsy value; and
    [tag_rect], which resolves each geometry attribute as [tag_value] with
    [int] does, puts the parent's resolution in the field of an attribute
    whose own value is 0. *)
Theorem falsy_cast_counts_as_absent (t : tag) (key : string) (cast : ustr -> res pyval)
    (v : ustr) (r : pyval) :
  get t key = Some v -> cast v = Ok r -> truthy r = false ->
  _tag_value t key (Some cast) = Ok VNone
  /\ tag_value t key true (Some cast) =
       match parent t with
       | Some p => tag_value p key true (Some cast)
       | None => Ok VNone
       end
  /\ (forall r', tag_value t key true (Some cast) = Ok r' -> r' = VNone \/ truthy r' = true)
  /\ tag_rect t =
       (let? a := tag_value t "left" true (Some cast_int) in
        let? b := tag_value t "top" true (Some cast_int) in
        let? c := tag_value t "width" true (Some cast_int) in
        let? d := tag_value t "height" true (Some cast_int) in
        Ok (mkRect a b c d))%res
  /\ (forall proj rc, cast = cast_int -> In (key, proj) geometry -> tag_rect t = Ok rc ->
        (proj rc = VNone \/ truthy (proj rc) = true)
        /\ Ok (proj rc) =
             match parent t with
             | Some p => tag_value p key true (Some cast_int)
             | None => Ok VNone
             end).
Proof.
  intros Hget Hcast Hfalsy.
  assert (H1 : _tag_value t key (Some cast) = Ok VNone).
  { unfold _tag_value. rewrite Hget, Hcast. simpl. rewrite Hfalsy. reflexivity. }
  assert (H2 : tag_value t key true (Some cast) =
               match parent t with
               | Some p => tag_value p key true (Some cast)
               | None => Ok VNone
               end).
  { rewrite tag_value_step, H1. reflexivity. }
  split; [exact H1|]. split; [exact H2|].
  split; [intros r'; apply tag_value_clean|].
  split; [apply tag_rect_components|].
  intros proj rc -> Hin Hrc.
  pose proof (tag_rect_field t rc key proj Hin Hrc) as Hf.
  split; [eapply tag_value_clean; exact Hf|].
  rewrite <- H2. symmetry. exact Hf.
Qed.

Lemma falsy_cast_counts_as_absent_witness :
  tag_value zero_span "top" true (Some cast_int) = Ok (VInt 40)
  /\ tag_value zero_span "left" true (Some cast_int) = Ok VNone
  /\ tag_rect zero_span = Ok (mkRect VNone (VInt 40) VNone VNone).
Proof.
  destruct (falsy_cast_counts_as_absent zero_span "top" cast_int (u "0") (VInt 0))
    as (_ & Htop & _); [reflexivity..|].
  destruct (falsy_cast_counts_as_absent zero_span "left" cast_int (u "0") (VInt 0))
    as (_ & Hleft & _ & Hrect & _); [reflexivity..|].
  split; [rewrite Htop; reflexivity|].
  split; [rewrite Hleft; reflexivity|].
  rewrite Hrect, Htop, Hleft. reflexivity.
Defined.

(** ** Title *)

Lemma ustr_eqb_eq a : forall b, ustr_eqb a b = true <-> a = b.
Proof.
  induction a as [|c a IH]; intros [|d b]; simpl; split; try congruence.
  - intros H. apply andb_prop in H as [H1 H2].
    apply N.eqb_eq in H1. apply IH in H2. congruence.
  - intros [= -> ->]. rewrite N.eqb_refl. apply IH. reflexivity.
Qed.

Lemma attr_is_true t key v : attr_is t key v = true <-> get t key = Some v.
Proof.
  unfold attr_is. destruct (get t key) as [v'|].
  - rewrite ustr_eqb_eq. split; congruence.
  - split; congruence.
Qed.

Lemma is_span_on_page_1_true t :
  is_span_on_page_1 t = true <-> name t = "span" /\ get t "page" = Some (u "1").
Proof.
  unfold is_span_on_page_1. rewrite andb_true_iff, String.eqb_eq, attr_is_true.
  reflexivity.
Qed.

Lemma guard_is_span t :
  negb (String.eqb (name t) "span") || negb (attr_is t "page" (u "1"))
  = negb (is_span_on_page_1 t).
Proof. unfold is_span_on_page_1. rewrite negb_andb. reflexivity. Qed.

Lemma is_title_true t :
  is_title t = Ok true <->
  name t = "span" /\ get t "page" = Some (u "1") /\
  exists size z, get t "font-size" = Some size /\ py_int size = Ok z
                 /\ (MIN_TITLE_FONT_SIZE <= z)%Z.
Proof.
  unfold is_title. rewrite guard_is_span.
  destruct (is_span_on_page_1 t) eqn:Es; simpl.
  - apply is_span_on_page_1_true in Es as [Hn Hp].
    destruct (get t "font-size") as [size|].
    + destruct (py_int size) as [z|e] eqn:Ez; simpl.
      * destruct (Z.ltb_spec z MIN_TITLE_FONT_SIZE); split; try congruence.
        -- intros (_ & _ & s' & z' & [= <-] & Hz & Hle). rewrite Ez in Hz.
           injection Hz as <-. lia.
        -- intros _. repeat split; try assumption. exists size, z. auto.
      * split; [congruence|].
        intros (_ & _ & s' & z' & [= <-] & Hz & _). congruence.
    + split; [congruence|]. intros (_ & _ & s' & z' & Hs & _). congruence.
  - split; [congruence|]. intros (Hn & Hp & _).
    assert (is_span_on_page_1 t = true) by (apply is_span_on_page_1_true; auto).
    congruence.
Qed.

Lemma is_title_false t :
  is_title t = Ok false <->
  is_span_on_page_1 t = false \/ get t "font-size" = None \/
  exists size z, get t "font-size" = Some size /\ py_int size = Ok z
                 /\ (z < MIN_TITLE_FONT_SIZE)%Z.
Proof.
  unfold is_title. rewrite guard_is_span.
  destruct (is_span_on_page_1 t) eqn:Es; simpl.
  - destruct (get t "font-size") as [size|].
    + destruct (py_int size) as [z|e] eqn:Ez; simpl.
      * destruct (Z.ltb_spec z MIN_TITLE_FONT_SIZE); split; try congruence.
        -- intros _. right. right. exists size, z. auto.
        -- intros [?|[?|(s' & z' & [= <-] & Hz & Hlt)]]; try congruence.
           rewrite Ez in Hz. injection Hz as <-. lia.
      * split; [congruence|].
        intros [?|[?|(s' & z' & [= <-] & Hz & _)]]; congruence.
    + split; auto.
  - split; auto.
Qed.

Lemma find_first_hit f pre t post :
  Forall (fun x => f x = Ok false) pre -> f t = Ok true ->
  find_first f (pre ++ t :: post) = Ok (Some t).
Proof.
  intros Hpre Ht. induction Hpre as [|x pre Hx _ IH]; simpl.
  - rewrite Ht. reflexivity.
  - rewrite Hx. simpl. exact IH.
Qed.

Lemma find_first_miss f l :
  Forall (fun x => f x = Ok false) l -> find_first f l = Ok None.
Proof.
  intros H. induction H as [|x l Hx _ IH]; simpl; [reflexivity|].
  rewrite Hx. simpl. exact IH.
Qed.

(** The outcomes of [find_first]: a hit after misses, misses only, or the
    first exception after misses. *)
Lemma find_first_cases f l :
  (exists pre t post, l = pre ++ t :: post /\ Forall (fun x => f x = Ok false) pre
                      /\ f t = Ok true /\ find_first f l = Ok (Some t))
  \/ (Forall (fun x => f x = Ok false) l /\ find_first f l = Ok None)
  \/ (exists pre t post e, l = pre ++ t :: post /\ Forall (fun x => f x = Ok false) pre
                           /\ f t = Raise e /\ find_first f l = Raise e).
Proof.
  induction l as [|a l IH]; simpl.
  - right. left. split; [constructor|reflexivity].
  - destruct (f a) as [[|]|e] eqn:Ea; simpl.
    + left. exists [], a, l. repeat split; auto.
    + destruct IH as [(pre & t & post & -> & Hpre & Ht & Hr)
                     |[[Hall Hr]|(pre & t & post & e & -> & Hpre & Ht & Hr)]].
      * left. exists (a :: pre), t, post. repeat split; auto.
      * right. left. split; auto.
      * right. right. exists (a :: pre), t, post, e. repeat split; auto.
    + right. right. exists [], a, l, e. repeat split; auto.
Qed.

Lemma title_size_resolves t size z :
  get t "font-size" = Some size -> py_int size = Ok z -> (MIN_TITLE_FONT_SIZE <= z)%Z ->
  tag_value t "font-size" true (Some cast_int) = Ok (VInt z).
Proof.
  intros Hs Hz Hle. rewrite tag_value_step. unfold _tag_value, cast_int.
  rewrite Hs, Hz. simpl.
  destruct (Z.eqb_spec z 0); [unfold MIN_TITLE_FONT_SIZE in Hle; lia|reflexivity].
Qed.

Lemma find_title_unfold soup ctx :
  find_title soup ctx =
  match find_first is_title (descendants soup) with
  | Ok (Some title) =>
      match tag_value title "font-size" true (Some cast_int) with
      | Ok size => (Ok (normalize_str (text title)), <["title-size" := size]> ctx)
      | Raise e => (Raise e, ctx)
      end
  | Ok None => (Raise InsufficientParser, ctx)
  | Raise e => (Raise e, ctx)
  end.
Proof.
  unfold find_title, bind, lift, modify, ret, throw.
  destruct (find_first is_title (descendants soup)) as [[title|]|e]; reflexivity.
Qed.

(** C1 (as amended): the title is the first tag in document order that is
    a span on page 1 whose own [font-size] attribute reads as an integer of
    at least 15, provided [is_title] answers on the tags before it (their
    own [font-size], if any, reads as an integer).  The stage returns its
    normalised text and stores that size as [title-size]; when [is_title]
    is false on every tag the stage raises [InsufficientParser] and leaves
    the context as it was. *)
Theorem find_title_first_large_span (soup : tag) (ctx : context) :
  (forall t, is_title t = Ok true <->
     name t = "span" /\ get t "page" = Some (u "1") /\
     exists size z, get t "font-size" = Some size /\ py_int size = Ok z
                    /\ (MIN_TITLE_FONT_SIZE <= z)%Z)
  /\ (forall t, is_title t = Ok false <->
        is_span_on_page_1 t = false \/ get t "font-size" = None \/
        exists size z, get t "font-size" = Some size /\ py_int size = Ok z
                       /\ (z < MIN_TITLE_FONT_SIZE)%Z)
  /\ (forall pre t post,
        descendants soup = pre ++ t :: post ->
        Forall (fun x => is_title x = Ok false) pre ->
        is_title t = Ok true ->
        exists size z, get t "font-size" = Some size /\ py_int size = Ok z
          /\ (15 <= z)%Z
          /\ find_title soup ctx
             = (Ok (normalize_str (text t)), <["title-size" := VInt z]> ctx))
  /\ (Forall (fun x => is_title x = Ok false) (descendants soup) ->
      find_title soup ctx = (Raise InsufficientParser, ctx)).
Proof.
  split; [apply is_title_true|]. split; [apply is_title_false|]. split.
  - intros pre t post Hd Hpre Ht.
    pose proof Ht as Ht'. apply is_title_true in Ht' as (_ & _ & size & z & Hs & Hz & Hle).
    exists size, z. repeat split; try assumption.
    rewrite find_title_unfold, Hd, (find_first_hit _ _ _ _ Hpre Ht).
    rewrite (title_size_resolves _ _ _ Hs Hz Hle). reflexivity.
  - intros Hall. rewrite find_title_unfold, (find_first_miss _ _ Hall). reflexivity.
Qed.

Lemma find_title_first_large_span_witness :
  find_title sample_paper ∅
  = (Ok (u "Fast Graph Algorithms"), {[ "title-size" := VInt 16 ]}).
Proof.
  destruct (find_title_first_large_span sample_paper ∅) as (_ & _ & H & _).
  destruct (H (firstn 3 (descendants sample_paper))
              (nth 3 (descendants sample_paper) sample_paper)
              (skipn 4 (descendants sample_paper)))
    as (size & z & Hs & Hz & _ & Hr).
  - reflexivity.
  - repeat constructor.
  - reflexivity.
  - rewrite Hr. vm_compute in Hs. injection Hs as <-.
    vm_compute in Hz. injection Hz as <-. reflexivity.
Defined.

(** C1 as stated fails: on [inherited_size_paper] the span is the first
    span in document order, is on page 1 and resolves [font-size] to 16,
    yet the stage raises [InsufficientParser]. *)
Lemma find_title_ignores_inherited_size :
  exists pre t post,
    descendants inherited_size_paper = pre ++ t :: post
    /\ Forall (fun x => name x <> "span") pre
    /\ name t = "span" /\ get t "page" = Some (u "1")
    /\ tag_value t "font-size" true (Some cast_int) = Ok (VInt 16)
    /\ (MIN_TITLE_FONT_SIZE <= 16)%Z
    /\ find_title inherited_size_paper ∅ = (Raise InsufficientParser, ∅).
Proof.
  exists (firstn 1 (descendants inherited_size_paper)),
         (nth 1 (descendants inherited_size_paper) inherited_size_paper),
         (skipn 2 (descendants inherited_size_paper)).
  split; [reflexivity|].
  split; [repeat constructor; discriminate|].
  split; [reflexivity|]. split; [reflexivity|]. split; [reflexivity|].
  split; [discriminate|]. reflexivity.
Qed.

(** ** Dates *)

Lemma split_cons_ne sep c s :
  c <> sep -> split sep (c :: s) = (c :: hd [] (split sep s)) :: tl (split sep s).
Proof.
  intros Hne. simpl. destruct (N.eqb_spec c sep); [contradiction|].
  destruct (split sep s); reflexivity.
Qed.

Lemma split_not_nil sep s : split sep s <> [].
Proof.
  destruct s as [|c s]; simpl; [discriminate|].
  destruct (c =? sep)%N; [discriminate|]. destruct (split sep s); discriminate.
Qed.

Lemma split_hd sep s : hd [] (split sep s) = up_to sep s.
Proof.
  induction s as [|c s IH]; [reflexivity|].
  destruct (N.eqb_spec c sep) as [->|Hne].
  - simpl. rewrite N.eqb_refl. reflexivity.
  - rewrite split_cons_ne by exact Hne. simpl.
    destruct (N.eqb_spec c sep); [contradiction|]. rewrite IH. reflexivity.
Qed.

(** [s.split(sep)[1]] is the text between the first and the second [sep]. *)
Lemma split_second sep s :
  nth_error (split sep s) 1 = option_map (up_to sep) (after_first sep s).
Proof.
  induction s as [|c s IH]; [reflexivity|].
  destruct (N.eqb_spec c sep) as [->|Hne].
  - simpl. rewrite N.eqb_refl. simpl. rewrite <- split_hd.
    destruct (split sep s) eqn:E; [|reflexivity].
    exfalso. exact (split_not_nil _ _ E).
  - rewrite split_cons_ne by exact Hne. simpl.
    destruct (N.eqb_spec c sep); [contradiction|].
    rewrite <- IH. destruct (split sep s) as [|a [|b l]]; reflexivity.
Qed.

Lemma after_first_none sep s : after_first sep s = None <-> ~ In sep s.
Proof.
  induction s as [|c s IH]; simpl; [tauto|].
  destruct (N.eqb_spec c sep) as [->|Hne].
  - split; [discriminate|]. intros H. exfalso. apply H. left; reflexivity.
  - rewrite IH. split; [intros H [?|?]; auto|intros H ?; auto].
Qed.

Lemma up_to_absent sep s : ~ In sep s -> up_to sep s = s.
Proof.
  induction s as [|c s IH]; simpl; [reflexivity|]. intros H.
  destruct (N.eqb_spec c sep) as [->|Hne]; [exfalso; auto|].
  rewrite IH; auto.
Qed.

Lemma parse_dates_loop_segments cs : forall result,
  parse_dates_loop result cs =
  match dates_of_segments result cs with
  | Some d => Ok d
  | None => Raise IndexError
  end.
Proof.
  induction cs as [|c cs IH]; intros result; [reflexivity|].
  cbn [parse_dates_loop dates_of_segments].
  unfold date_value. rewrite split_second.
  destruct (after_first 58 c) as [rest|]; cbn [option_map]; [apply IH|reflexivity].
Qed.

Lemma first_keyword_some lowered kws begin :
  first_keyword lowered kws = Some begin ->
  In begin kws /\ startswith lowered begin = true.
Proof.
  induction kws as [|k kws IH]; simpl; [discriminate|].
  destruct (startswith lowered k) eqn:E.
  - intros [= <-]. auto.
  - intros H. apply IH in H as [? ?]. auto.
Qed.

Lemma first_keyword_none lowered kws :
  first_keyword lowered kws = None <->
  forall k, In k kws -> startswith lowered k = false.
Proof.
  induction kws as [|k kws IH]; simpl.
  - split; [intros _ k []|reflexivity].
  - destruct (startswith lowered k) eqn:E.
    + split; [discriminate|]. intros H. rewrite (H k) in E by auto. discriminate.
    + rewrite IH. split.
      * intros H k' [<-|Hin]; auto.
      * intros H k' Hin. apply H. auto.
Qed.

Lemma lower_char_newline c : c <> 10%N -> ~ In 10%N (lower_char c) /\ lower_char c <> [].
Proof.
  intros Hne. unfold lower_char.
  destruct ((65 <=? c) && (c <=? 90))%N eqn:E1.
  - apply andb_prop in E1 as [H1 H2]. apply N.leb_le in H1, H2.
    split; [|discriminate]. intros [H|[]]. lia.
  - destruct (c =? 304)%N; [split; [|discriminate]; intros [H|[H|[]]]; discriminate|].
    destruct (c =? 8490)%N; [split; [|discriminate]; intros [H|[]]; discriminate|].
    split; [|discriminate]. intros [H|[]]. congruence.
Qed.

Lemma startswith_app_cases pfx rest begin :
  startswith (pfx ++ rest) begin = true ->
  (exists k, begin = firstn k pfx /\ (k <= length pfx)%nat /\ length begin = k)
  \/ (exists bs, begin = pfx ++ bs /\ startswith rest bs = true).
Proof.
  revert begin. induction pfx as [|p pfx IH]; intros begin H.
  - right. exists begin. auto.
  - destruct begin as [|b bs].
    + left. exists 0%nat. simpl. repeat split; lia.
    + simpl in H. apply andb_prop in H as [Hb H]. apply N.eqb_eq in Hb. subst b.
      apply IH in H as [(k & -> & Hk & Hlen)|(bs' & -> & Hs)].
      * left. exists (S k). simpl. repeat split; [lia|congruence].
      * right. exists bs'. auto.
Qed.

(** A keyword without a line break that starts the lower-cased text also
    starts its lower-cased first line. *)
Lemma first_line_keeps_keyword content : forall begin,
  ~ In 10%N begin -> startswith (lower content) begin = true ->
  firstn (length begin) (lower (first_line content)) = begin.
Proof.
  unfold first_line.
  induction content as [|c s IH]; intros begin Hnl Hs.
  - destruct begin; [reflexivity|discriminate].
  - change (lower (c :: s)) with (lower_char c ++ lower s) in Hs.
    destruct (N.eq_dec c 10%N) as [->|Hc].
    + destruct begin as [|b bs]; [reflexivity|].
      simpl in Hs. apply andb_prop in Hs as [Hb _]. apply N.eqb_eq in Hb.
      exfalso. apply Hnl. left. auto.
    + rewrite split_cons_ne by exact Hc. simpl hd.
      change (lower (c :: hd [] (split 10 s)))
        with (lower_char c ++ lower (hd [] (split 10 s))).
      apply startswith_app_cases in Hs as [(k & -> & Hk & Hlen)|(bs & -> & Hs)].
      * rewrite Hlen. rewrite firstn_app.
        replace (k - length (lower_char c))%nat with 0%nat by lia.
        simpl. apply app_nil_r.
      * rewrite length_app, firstn_app_2. f_equal. apply IH; [|exact Hs].
        intros Hin. apply Hnl. apply in_or_app. auto.
Qed.

Lemma date_keywords_one_line begin : In begin DATE_KEYWORDS -> ~ In 10%N begin.
Proof.
  intros [<-|[<-|[<-|[<-|[]]]]]; vm_compute; intuition discriminate.
Qed.

Lemma next_line_found content begin :
  In begin DATE_KEYWORDS -> startswith (lower content) begin = true ->
  next_filter (fun it => ustr_eqb begin (firstn (length begin) (lower it)))
    (split 10 content) = Ok (first_line content).
Proof.
  intros Hin Hs. unfold first_line.
  destruct (split 10 content) as [|l ls] eqn:E; [exfalso; exact (split_not_nil _ _ E)|].
  simpl.
  pose proof (first_line_keeps_keyword content begin
                (date_keywords_one_line _ Hin) Hs) as H.
  unfold first_line in H. rewrite E in H. simpl in H. rewrite H.
  replace (ustr_eqb begin begin) with true; [reflexivity|].
  symmetry. apply ustr_eqb_eq. reflexivity.
Qed.

Lemma dates_at_unfold date content begin ctx :
  dates_at date content begin ctx =
  match tag_value date "top" true (Some cast_int) with
  | Raise e => (Raise e, ctx)
  | Ok top =>
      match tag_value date "font-size" true (Some cast_int) with
      | Raise e => (Raise e, <["date-start" := top]> ctx)
      | Ok size =>
          (let? line :=
             next_filter (fun it => ustr_eqb begin (firstn (length begin) (lower it)))
               (split 10 content) in
           parse_dates line,
           <["date-size" := size]> (<["date-start" := top]> ctx))%res
      end
  end.
Proof.
  unfold dates_at, bind, lift, modify.
  destruct (tag_value date "top" true (Some cast_int)) as [top|e]; [|reflexivity].
  destruct (tag_value date "font-size" true (Some cast_int)) as [size|e]; [|reflexivity].
  destruct (next_filter _ _); reflexivity.
Qed.

(** What the stage does at a span with a date keyword. *)
Lemma dates_at_keyword date begin ctx :
  date_keyword date = Some begin ->
  dates_at date (strip (text date)) begin ctx =
  match tag_value date "top" true (Some cast_int) with
  | Raise e => (Raise e, ctx)
  | Ok top =>
      match tag_value date "font-size" true (Some cast_int) with
      | Raise e => (Raise e, <["date-start" := top]> ctx)
      | Ok size =>
          (parse_dates (first_line (strip (text date))),
           <["date-size" := size]> (<["date-start" := top]> ctx))
      end
  end.
Proof.
  intros Hk. apply first_keyword_some in Hk as [Hin Hs].
  rewrite dates_at_unfold, (next_line_found _ _ Hin Hs). reflexivity.
Qed.

Lemma find_dates_loop_hit pre date post begin ctx :
  Forall (fun s => date_keyword s = None) pre -> date_keyword date = Some begin ->
  find_dates_loop (pre ++ date :: post) ctx
  = dates_at date (strip (text date)) begin ctx.
Proof.
  intros Hpre Hk. induction Hpre as [|s pre Hs _ IH]; cbn [app find_dates_loop].
  - unfold date_keyword in Hk. rewrite Hk. reflexivity.
  - unfold date_keyword in Hs. rewrite Hs. exact IH.
Qed.

Lemma find_dates_loop_miss spans ctx :
  Forall (fun s => date_keyword s = None) spans ->
  find_dates_loop spans ctx = (Raise InsufficientParser, ctx).
Proof.
  intros H. induction H as [|s spans Hs _ IH]; cbn [find_dates_loop]; [reflexivity|].
  unfold date_keyword in Hs. rewrite Hs. exact IH.
Qed.

Lemma date_keyword_cases spans :
  Forall (fun s => date_keyword s = None) spans
  \/ exists pre date post begin,
       spans = pre ++ date :: post /\ Forall (fun s => date_keyword s = None) pre
       /\ date_keyword date = Some begin.
Proof.
  induction spans as [|s spans IH]; [left; constructor|].
  destruct (date_keyword s) as [begin|] eqn:E.
  - right. exists [], s, spans, begin. repeat split; auto.
  - destruct IH as [H|(pre & date & post & begin & -> & Hpre & Hk)].
    + left. constructor; auto.
    + right. exists (s :: pre), date, post, begin. repeat split; auto.
Qed.

Lemma find_dates_cases soup ctx :
  (Forall (fun s => date_keyword s = None)
     (List.filter is_span_on_page_1 (descendants soup))
   /\ find_dates soup ctx = (Raise InsufficientParser, ctx))
  \/ exists pre date post begin,
       List.filter is_span_on_page_1 (descendants soup) = pre ++ date :: post
       /\ Forall (fun s => date_keyword s = None) pre
       /\ date_keyword date = Some begin
       /\ find_dates soup ctx = dates_at date (strip (text date)) begin ctx.
Proof.
  unfold find_dates.
  destruct (date_keyword_cases (List.filter is_span_on_page_1 (descendants soup)))
    as [H|(pre & date & post & begin & E & Hpre & Hk)].
  - left. split; [exact H|]. apply find_dates_loop_miss. exact H.
  - right. exists pre, date, post, begin. repeat split; try assumption.
    rewrite E. apply find_dates_loop_hit; assumption.
Qed.

Lemma parse_dates_segments content :
  parse_dates content =
  match dates_of_segments [] (map strip (split 47 content)) with
  | Some d => Ok d
  | None => Raise IndexError
  end.
Proof. apply parse_dates_loop_segments. Qed.

Lemma phase_of_range c : In (phase_of c) ["received"; "accepted"; "published"].
Proof.
  unfold phase_of.
  destruct (startswith _ (u "received")); [simpl; auto|].
  destruct (startswith _ (u "accepted")); [simpl; auto|].
  destruct (startswith _ (u "published")); simpl; auto.
Qed.

(** C2 (as amended): at the first span of page 1 whose trimmed, lower-cased
    text starts with a date keyword, the stage stores the resolved [top]
    and [font-size] in the context and parses the first line of the text:
    the line is cut at every slash, each trimmed segment is filed under
    received, accepted or published (published when it starts with none
    of the three words), and its value is the text between its first colon
    and the next colon, or the end, trimmed.  One segment without a colon
    makes the stage fail with [IndexError].  On the line of the example
    the three dates come out. *)
Theorem find_dates_parses_keyword_line (soup : tag) (ctx : context)
    (pre post : list tag) (date : tag) (begin : ustr) (top size : pyval) :
  List.filter is_span_on_page_1 (descendants soup) = pre ++ date :: post ->
  Forall (fun s => date_keyword s = None) pre ->
  date_keyword date = Some begin ->
  tag_value date "top" true (Some cast_int) = Ok top ->
  tag_value date "font-size" true (Some cast_int) = Ok size ->
  (In begin DATE_KEYWORDS
   /\ firstn (length begin) (lower (first_line (strip (text date)))) = begin)
  /\ find_dates soup ctx =
       (match dates_of_segments []
                (map strip (split 0x2F (first_line (strip (text date))))) with
        | Some d => Ok d
        | None => Raise IndexError
        end,
        <["date-size" := size]> (<["date-start" := top]> ctx))
  /\ (forall c, date_value c = None <-> ~ In 0x3A%N c)
  /\ (forall c rest, after_first 0x3A c = Some rest -> ~ In 0x3A%N rest ->
        date_value c = Some (strip rest))
  /\ (forall c, In (phase_of c) ["received"; "accepted"; "published"])
  /\ parse_dates date_line =
       Ok [ ("received", VStr (u "12 Jan 2020"));
            ("accepted", VStr (u "3 Mar 2020"));
            ("published", VStr (u "10 Apr 2020")) ].
Proof.
  intros Hspans Hpre Hk Htop Hsize.
  pose proof (first_keyword_some _ _ _ Hk) as [Hin Hs].
  split.
  { split; [exact Hin|].
    apply first_line_keeps_keyword; [apply date_keywords_one_line; exact Hin|exact Hs]. }
  split.
  { unfold find_dates. rewrite Hspans, (find_dates_loop_hit _ _ _ _ _ Hpre Hk).
    rewrite (dates_at_keyword _ _ _ Hk), Htop, Hsize, parse_dates_segments.
    reflexivity. }
  split.
  { intros c. unfold date_value. rewrite <- after_first_none.
    destruct (after_first 58 c); simpl; split; congruence. }
  split.
  { intros c rest Hc Hrest. unfold date_value. rewrite Hc. simpl.
    rewrite up_to_absent by exact Hrest. reflexivity. }
  split; [apply phase_of_range|].
  vm_compute. reflexivity.
Qed.

Lemma find_dates_parses_keyword_line_witness :
  find_dates sample_paper ∅ =
    (Ok [ ("received", VStr (u "12 Jan 2020"));
          ("accepted", VStr (u "3 Mar 2020"));
          ("published", VStr (u "10 Apr 2020")) ],
     <["date-size" := VInt 9]> (<["date-start" := VInt 200]> ∅)).
Proof.
  pose (spans := List.filter is_span_on_page_1 (descendants sample_paper)).
  destruct (find_dates_parses_keyword_line sample_paper ∅
              (firstn 3 spans) (skipn 4 spans) (nth 3 spans sample_paper)
              (u "received:") (VInt 200) (VInt 9)) as (_ & H & _).
  - reflexivity.
  - repeat constructor.
  - reflexivity.
  - reflexivity.
  - reflexivity.
  - rewrite H. reflexivity.
Defined.

(** C2 as stated fails: the only span of [missing_colon_paper] is on page 1
    and starts with "received:", but the stage returns no mapping; it
    raises [IndexError] at the segment without a colon. *)
Lemma find_dates_needs_a_colon_per_segment :
  exists date,
    List.filter is_span_on_page_1 (descendants missing_colon_paper) = [date]
    /\ startswith (lower (strip (text date))) (u "received:") = true
    /\ In (u "received:") DATE_KEYWORDS
    /\ fst (find_dates missing_colon_paper ∅) = Raise IndexError.
Proof.
  exists (nth 1 (descendants missing_colon_paper) missing_colon_paper).
  split; [reflexivity|]. split; [reflexivity|]. split; [left; reflexivity|].
  reflexivity.
Qed.

(** The value of a segment stops at a second colon. *)
Example parse_dates_stops_at_second_colon :
  parse_dates (u "Received: 10:30 12 Jan 2020") = Ok [ ("received", VStr (u "10")) ].
Proof. reflexivity. Qed.

(** ** Context and failing stages *)

Lemma find_title_failure_keeps_context soup ctx e ctx' :
  find_title soup ctx = (Raise e, ctx') -> ctx' = ctx.
Proof.
  rewrite find_title_unfold.
  destruct (find_first is_title (descendants soup)) as [[title|]|e0]; try congruence.
  destruct (tag_value title "font-size" true (Some cast_int)); congruence.
Qed.

Lemma authors_stage_keeps_context soup ctx r ctx' :
  p_run authors_stage soup ctx = (r, ctx') -> ctx' = ctx.
Proof.
  unfold authors_stage, p_run, bind, get_state, lift, ret.
  destruct (find_authors soup ctx); congruence.
Qed.

Lemma dates_at_failure date begin ctx e ctx' :
  date_keyword date = Some begin ->
  dates_at date (strip (text date)) begin ctx = (Raise e, ctx') ->
  (e = ValueError /\ ctx' = ctx)
  \/ (e = ValueError /\ exists top, ctx' = <["date-start" := top]> ctx)
  \/ (e = IndexError
      /\ exists top size, ctx' = <["date-size" := size]> (<["date-start" := top]> ctx)).
Proof.
  intros Hk. rewrite (dates_at_keyword _ _ _ Hk).
  destruct (tag_value date "top" true (Some cast_int)) as [top|e1] eqn:E1.
  2:{ intros [= <- <-]. left. split; [|reflexivity]. eapply tag_value_int_raise; eauto. }
  destruct (tag_value date "font-size" true (Some cast_int)) as [size|e2] eqn:E2.
  2:{ intros [= <- <-]. right. left. split; [eapply tag_value_int_raise; eauto|eauto]. }
  rewrite parse_dates_segments.
  destruct (dates_of_segments _ _); [discriminate|].
  intros [= <- <-]. right. right. eauto.
Qed.

(** C9 (as amended): the title stage writes [title-size] only when it
    succeeds and the authors stage writes nothing, so after a failure of
    either the context is as before; the driver keeps whatever context a
    stage leaves.  The dates stage leaves the context alone when it raises
    [InsufficientParser], but it stores [date-start] and [date-size] as
    soon as a keyword span is found, before the line is parsed: when a
    segment has no colon it fails with [IndexError] and both entries stay
    in the context. *)
Theorem context_after_failed_stage (soup : tag) (ctx : context) :
  (forall e ctx', find_title soup ctx = (Raise e, ctx') -> ctx' = ctx)
  /\ (forall r ctx', p_run authors_stage soup ctx = (r, ctx') -> ctx' = ctx)
  /\ (forall ctx', find_dates soup ctx = (Raise InsufficientParser, ctx') -> ctx' = ctx)
  /\ (forall e ctx', find_dates soup ctx = (Raise e, ctx') ->
        ctx' = ctx
        \/ (e = ValueError /\ exists top, ctx' = <["date-start" := top]> ctx)
        \/ (e = IndexError /\ exists top size,
              ctx' = <["date-size" := size]> (<["date-start" := top]> ctx)))
  /\ (forall pre date post begin top size,
        List.filter is_span_on_page_1 (descendants soup) = pre ++ date :: post ->
        Forall (fun s => date_keyword s = None) pre ->
        date_keyword date = Some begin ->
        tag_value date "top" true (Some cast_int) = Ok top ->
        tag_value date "font-size" true (Some cast_int) = Ok size ->
        dates_of_segments []
          (map strip (split 0x2F (first_line (strip (text date))))) = None ->
        find_dates soup ctx =
          (Raise IndexError, <["date-size" := size]> (<["date-start" := top]> ctx)))
  /\ (forall (frame : Type) `(Pandas frame) key p (st : run_state frame),
        rs_context (run_parser key soup p st) = snd (p_run p soup (rs_context st))).
Proof.
  split; [intros e ctx'; apply find_title_failure_keeps_context|].
  split; [intros r ctx'; apply authors_stage_keeps_context|].
  assert (Hcases : forall e ctx', find_dates soup ctx = (Raise e, ctx') ->
            (e = InsufficientParser /\ ctx' = ctx)
            \/ (e = ValueError /\ ctx' = ctx)
            \/ (e = ValueError /\ exists top, ctx' = <["date-start" := top]> ctx)
            \/ (e = IndexError /\ exists top size,
                  ctx' = <["date-size" := size]> (<["date-start" := top]> ctx))).
  { intros e ctx' H.
    destruct (find_dates_cases soup ctx)
      as [[_ Hr]|(pre & date & post & begin & _ & _ & Hk & Hr)]; rewrite Hr in H.
    - injection H as <- <-. left. auto.
    - right. eapply dates_at_failure; eauto. }
  split.
  { intros ctx' H.
    apply Hcases in H as [[_ ?]|[[? _]|[[? _]|[? _]]]]; [assumption|discriminate..]. }
  split.
  { intros e ctx' H.
    apply Hcases in H as [[_ ?]|[[_ ?]|[?|?]]]; auto. }
  split.
  { intros pre date post begin top size Hspans Hpre Hk Htop Hsize Hnone.
    unfold find_dates. rewrite Hspans, (find_dates_loop_hit _ _ _ _ _ Hpre Hk).
    rewrite (dates_at_keyword _ _ _ Hk), Htop, Hsize, parse_dates_segments, Hnone.
    reflexivity. }
  intros frame P key p st. unfold run_parser.
  destruct (p_run p soup (rs_context st)) as [[v|e] c]; simpl.
  - destruct (store_recursive _ _ _ _ _ _ _) as [[[]|e] [fr sd]]; [reflexivity|].
    destruct e; reflexivity.
  - destruct e; reflexivity.
Qed.

Lemma context_after_failed_stage_witness :
  find_dates missing_colon_paper ∅ =
    (Raise IndexError, <["date-size" := VInt 9]> (<["date-start" := VInt 200]> ∅)).
Proof.
  pose (spans := List.filter is_span_on_page_1 (descendants missing_colon_paper)).
  destruct (context_after_failed_stage missing_colon_paper ∅) as (_ & _ & _ & _ & H & _).
  apply (H [] (nth 0 spans missing_colon_paper) [] (u "received:")); try reflexivity.
  constructor.
Defined.

(** C9 as stated fails: on [missing_colon_paper] the dates stage fails with
    [IndexError] on the segment without a colon, and the context it leaves
    holds the date anchor position and size. *)
Lemma failed_dates_stage_leaves_anchor :
  fst (find_dates missing_colon_paper ∅) = Raise IndexError
  /\ snd (find_dates missing_colon_paper ∅) !! "date-start" = Some (VInt 200)
  /\ snd (find_dates missing_colon_paper ∅) !! "date-size" = Some (VInt 9)
  /\ rs_context (run_parser "doc" missing_colon_paper dates_stage
                   (mkRun (DataFrame : journal) ∅ ∅ [])) !! "date-start" = Some (VInt 200).
Proof.
  split; [reflexivity|]. split; [reflexivity|]. split; reflexivity.
Qed.

(** ** Authors *)

Lemma ctx_get_ok k (ctx : context) v : ctx_get k ctx = Ok v <-> ctx !! k = Some v.
Proof. unfold ctx_get. destruct (ctx !! k); split; congruence. Qed.

(** [is_namelike] spelled out on a page-1 span whose position and size are
    resolved to integers. *)
Lemma is_namelike_resolved t (ctx : context) top size :
  is_span_on_page_1 t = true ->
  tag_value t "top" true (Some cast_int) = Ok (VInt top) ->
  tag_value t "font-size" true (Some cast_int) = Ok (VInt size) ->
  is_namelike t ctx =
  (let? date_start := ctx_get "date-start" ctx in
   let? below := py_gt (VInt top) date_start in
   if below then Ok None
   else
     let? date_size := ctx_get "date-size" ctx in
     let? small := py_le (VInt size) date_size in
     let? outside :=
       if small then Ok true
       else let? title_size := ctx_get "title-size" ctx in py_ge (VInt size) title_size in
     if outside then Ok None
     else if Nat.eqb (length (strip (text t))) 0 then Ok None
          else Ok (re_match RE_AUTHOR_NAME (strip (text t))))%res.
Proof.
  intros Hs Htop Hsize. unfold is_namelike. rewrite guard_is_span, Hs, Htop.
  cbn [negb res_bind is_None].
  destruct (ctx_get "date-start" ctx) as [ds|]; cbn [res_bind]; [|reflexivity].
  destruct (py_gt (VInt top) ds) as [[|]|]; cbn [res_bind negb]; try reflexivity.
  rewrite Hsize. cbn [res_bind is_None].
  destruct (ctx_get "date-size" ctx) as [dz|]; cbn [res_bind]; [|reflexivity].
  destruct (py_le (VInt size) dz) as [[|]|]; cbn [res_bind]; reflexivity.
Qed.

Lemma int_cmp_ok op a b r :
  int_cmp op a b = Ok r -> exists x y, a = VInt x /\ b = VInt y /\ r = op x y.
Proof.
  unfold int_cmp. destruct a; try discriminate. destruct b; try discriminate.
  intros [= <-]. eauto.
Qed.

(** C3 (as amended): [is_namelike] accepts a tag exactly when it is a span
    on page 1 whose resolved [top] is an integer not greater than
    [date-start], whose resolved [font-size] is an integer strictly
    between [date-size] and [title-size], and whose trimmed text is not
    empty and matches the name pattern at its start.  A size equal to
    either bound is refused; a position equal to [date-start] is not. *)
Theorem is_namelike_bounds (t : tag) (ctx : context) (m : nat) :
  is_namelike t ctx = Ok (Some m) <->
  name t = "span" /\ get t "page" = Some (u "1")
  /\ exists top date_start size date_size title_size,
       tag_value t "top" true (Some cast_int) = Ok (VInt top)
       /\ ctx !! "date-start" = Some (VInt date_start)
       /\ (top <= date_start)%Z
       /\ tag_value t "font-size" true (Some cast_int) = Ok (VInt size)
       /\ ctx !! "date-size" = Some (VInt date_size)
       /\ ctx !! "title-size" = Some (VInt title_size)
       /\ (date_size < size < title_size)%Z
       /\ strip (text t) <> []
       /\ re_match RE_AUTHOR_NAME (strip (text t)) = Some m.
Proof.
  split.
  - intros H.
    destruct (is_span_on_page_1 t) eqn:Hs.
    2:{ unfold is_namelike in H. rewrite guard_is_span, Hs in H. discriminate. }
    pose proof (proj1 (is_span_on_page_1_true t) Hs) as [Hn Hp].
    split; [exact Hn|]. split; [exact Hp|].
    destruct (tag_value t "top" true (Some cast_int)) as [vt|] eqn:Htop.
    2:{ unfold is_namelike in H. rewrite guard_is_span, Hs, Htop in H. discriminate. }
    destruct (tag_value_int_ok _ _ _ Htop) as [->|(top & -> & _)].
    { unfold is_namelike in H. rewrite guard_is_span, Hs, Htop in H. discriminate. }
    destruct (tag_value t "font-size" true (Some cast_int)) as [vs|] eqn:Hsize.
    2:{ unfold is_namelike in H. rewrite guard_is_span, Hs, Htop, Hsize in H.
        cbn [negb res_bind is_None] in H.
        destruct (ctx_get "date-start" ctx); cbn [res_bind] in H; [|discriminate].
        destruct (py_gt (VInt top) _) as [[|]|]; discriminate. }
    destruct (tag_value_int_ok _ _ _ Hsize) as [->|(size & -> & _)].
    { unfold is_namelike in H. rewrite guard_is_span, Hs, Htop, Hsize in H.
        cbn [negb res_bind is_None] in H.
        destruct (ctx_get "date-start" ctx); cbn [res_bind] in H; [|discriminate].
        destruct (py_gt (VInt top) _) as [[|]|]; discriminate. }
    rewrite (is_namelike_resolved _ _ _ _ Hs Htop Hsize) in H.
    destruct (ctx_get "date-start" ctx) as [ds|] eqn:Eds; cbn [res_bind] in H;
      [|discriminate].
    destruct (py_gt (VInt top) ds) as [below|] eqn:Egt; cbn [res_bind] in H;
      [|discriminate].
    apply int_cmp_ok in Egt as (a & date_start & [= <-] & -> & ->).
    destruct (Z.gtb_spec top date_start); [discriminate|].
    destruct (ctx_get "date-size" ctx) as [dz|] eqn:Edz; cbn [res_bind] in H;
      [|discriminate].
    destruct (py_le (VInt size) dz) as [small|] eqn:Ele; cbn [res_bind] in H;
      [|discriminate].
    apply int_cmp_ok in Ele as (a & date_size & [= <-] & -> & ->).
    destruct (Z.leb_spec size date_size); cbn [res_bind] in H; [discriminate|].
    destruct (ctx_get "title-size" ctx) as [tz|] eqn:Etz; cbn [res_bind] in H;
      [|discriminate].
    destruct (py_ge (VInt size) tz) as [large|] eqn:Ege; cbn [res_bind] in H;
      [|discriminate].
    apply int_cmp_ok in Ege as (a & title_size & [= <-] & -> & ->).
    destruct (Z.geb_spec size title_size); [discriminate|].
    destruct (strip (text t)) as [|c0 s0] eqn:Etext; [discriminate|].
    cbn [length Nat.eqb] in H. injection H as H.
    exists top, date_start, size, date_size, title_size.
    apply ctx_get_ok in Eds, Edz, Etz.
    repeat split; try assumption; try lia. discriminate.
  - intros (Hn & Hp & top & ds & size & dz & tz
            & Htop & Hds & Hle & Hsize & Hdz & Htz & [Hlo Hhi] & Hne & Hm).
    assert (Hs : is_span_on_page_1 t = true) by (apply is_span_on_page_1_true; auto).
    rewrite (is_namelike_resolved _ _ _ _ Hs Htop Hsize).
    apply ctx_get_ok in Hds, Hdz, Htz. rewrite Hds, Hdz, Htz.
    unfold py_gt, py_le, py_ge, int_cmp. cbn [res_bind].
    destruct (Z.gtb_spec top ds); [lia|].
    destruct (Z.leb_spec size dz); [lia|]. cbn [res_bind].
    destruct (Z.geb_spec size tz); [lia|].
    destruct (strip (text t)); [contradiction|]. cbn [length Nat.eqb].
    rewrite Hm. reflexivity.
Qed.

Lemma is_namelike_bounds_witness :
  exists t, nth_error (descendants sample_paper) 5 = Some t
            /\ is_namelike t sample_context = Ok (Some 11%nat).
Proof.
  exists (nth 5 (descendants sample_paper) sample_paper).
  split; [vm_compute; reflexivity|].
  apply (proj2 (is_namelike_bounds _ sample_context 11)).
  split; [reflexivity|]. split; [reflexivity|].
  exists 150%Z, 200%Z, 12%Z, 9%Z, 16%Z.
  repeat (split; [first [reflexivity | lia | discriminate]|]).
  reflexivity.
Defined.

(** C3 as stated fails: in [same_line_paper] the first span sits at the
    position of the date anchor (200, not strictly less) and is a
    candidate all the same; the stage returns it as an author. *)
Lemma is_namelike_accepts_anchor_position :
  exists t, nth_error (descendants same_line_paper) 1 = Some t
    /\ tag_value t "top" true (Some cast_int) = Ok (VInt 200)
    /\ sample_context !! "date-start" = Some (VInt 200)
    /\ is_namelike t sample_context = Ok (Some 8%nat)
    /\ find_authors same_line_paper sample_context = Ok [u "J. Smith"].
Proof.
  exists (nth 1 (descendants same_line_paper) same_line_paper).
  split; [vm_compute; reflexivity|].
  split; [vm_compute; reflexivity|]. split; [reflexivity|].
  split; vm_compute; reflexivity.
Qed.

(** *** Without the entries of the dates stage *)

Lemma is_namelike_without_dates t (ctx : context) :
  ctx !! "date-start" = None ->
  is_namelike t ctx =
  if is_span_on_page_1 t then
    match tag_value t "top" true (Some cast_int) with
    | Ok top => if is_None top then Ok None else Raise KeyError
    | Raise e => Raise e
    end
  else Ok None.
Proof.
  intros Hctx. unfold is_namelike. rewrite guard_is_span.
  destruct (is_span_on_page_1 t); [|reflexivity]. cbn [negb].
  destruct (tag_value t "top" true (Some cast_int)) as [top|e]; [|reflexivity].
  cbn [res_bind]. destruct (is_None top); [reflexivity|].
  unfold ctx_get. rewrite Hctx. reflexivity.
Qed.

Lemma unpositioned_not_namelike t (ctx : context) :
  ctx !! "date-start" = None -> unpositioned t -> is_namelike t ctx = Ok None.
Proof.
  intros Hctx Hu. rewrite is_namelike_without_dates by exact Hctx.
  destruct (is_span_on_page_1 t) eqn:Es; [|reflexivity].
  destruct Hu as [Hu|Hu]; [congruence|]. rewrite Hu. reflexivity.
Qed.

Lemma positioned_key_error t (ctx : context) :
  ctx !! "date-start" = None -> positioned t -> is_namelike t ctx = Raise KeyError.
Proof.
  intros Hctx [Hs [z Hz]]. rewrite is_namelike_without_dates by exact Hctx.
  rewrite Hs, Hz. reflexivity.
Qed.

(** Every tag is unpositioned, positioned, or has a [top] that [int]
    rejects on the way up. *)
Lemma position_cases t :
  unpositioned t \/ positioned t
  \/ (is_span_on_page_1 t = true
      /\ tag_value t "top" true (Some cast_int) = Raise ValueError).
Proof.
  unfold unpositioned, positioned.
  destruct (is_span_on_page_1 t); [|auto].
  destruct (tag_value t "top" true (Some cast_int)) as [v|e] eqn:E.
  - destruct (tag_value_int_ok _ _ _ E) as [->|(z & -> & _)]; eauto.
  - apply tag_value_int_raise in E as ->. auto.
Qed.

Lemma find_all_none f l :
  Forall (fun t => f t = Ok false) l -> find_all f l = Ok [].
Proof.
  intros H. induction H as [|t l Ht _ IH]; simpl; [reflexivity|].
  rewrite Ht, IH. reflexivity.
Qed.

Lemma find_all_raise f pre t post e :
  Forall (fun t => f t = Ok false) pre -> f t = Raise e ->
  find_all f (pre ++ t :: post) = Raise e.
Proof.
  intros Hpre Ht. induction Hpre as [|a pre Ha _ IH]; simpl.
  - rewrite Ht. reflexivity.
  - rewrite Ha, IH. reflexivity.
Qed.

Lemma find_authors_unfold soup ctx :
  find_authors soup ctx =
  (let? cs := find_all (fun t => let? m := is_namelike t ctx in Ok (is_Some_b m))
                       (descendants soup) in
   let? result := find_authors_loop [] cs in
   if (0 <? length result)%nat then Ok result else Raise InsufficientParser)%res.
Proof. reflexivity. Qed.

(** C4 (as amended): with no [date-start] in the context the authors stage
    never returns authors.  It raises [InsufficientParser] when no span of
    page 1 has a resolved position; at the first such span it raises
    [KeyError] instead (or [ValueError], when a [top] on the way is not an
    integer), which the driver reports as an error of the stage. *)
Theorem find_authors_without_dates (soup : tag) (ctx : context) :
  ctx !! "date-start" = None ->
  (exists e, find_authors soup ctx = Raise e
             /\ (e = InsufficientParser \/ e = KeyError \/ e = ValueError))
  /\ (Forall unpositioned (descendants soup) ->
      find_authors soup ctx = Raise InsufficientParser)
  /\ (forall pre t post,
        descendants soup = pre ++ t :: post -> Forall unpositioned pre -> positioned t ->
        find_authors soup ctx = Raise KeyError
        /\ forall (frame : Type) `(Pandas frame) key (st : run_state frame),
             rs_log (run_parser key soup authors_stage
                       (mkRun (rs_frame st) (rs_structured st) ctx (rs_log st)))
             = rs_log st ++ [ErrorHandling "find_authors" KeyError]).
Proof.
  intros Hctx.
  set (f := fun t => (let? m := is_namelike t ctx in Ok (is_Some_b m))%res).
  assert (Hu : forall l, Forall unpositioned l -> Forall (fun t => f t = Ok false) l).
  { intros l Hl. eapply Forall_impl; [exact Hl|]. intros t Ht. unfold f.
    rewrite (unpositioned_not_namelike _ _ Hctx Ht). reflexivity. }
  assert (Hnone : Forall unpositioned (descendants soup) ->
                  find_authors soup ctx = Raise InsufficientParser).
  { intros Hall. rewrite find_authors_unfold. fold f.
    rewrite (find_all_none _ _ (Hu _ Hall)). reflexivity. }
  assert (Hkey : forall pre t post,
             descendants soup = pre ++ t :: post -> Forall unpositioned pre ->
             positioned t -> find_authors soup ctx = Raise KeyError).
  { intros pre t post Hd Hpre Ht. rewrite find_authors_unfold. fold f. rewrite Hd.
    rewrite (find_all_raise f pre t post KeyError (Hu _ Hpre)); [reflexivity|].
    unfold f. rewrite (positioned_key_error _ _ Hctx Ht). reflexivity. }
  split; [|split; [exact Hnone|]].
  - assert (G : forall l, Forall unpositioned l
                \/ exists pre t post, l = pre ++ t :: post /\ Forall unpositioned pre
                     /\ (positioned t
                         \/ (is_span_on_page_1 t = true
                             /\ tag_value t "top" true (Some cast_int)
                                = Raise ValueError))).
    { induction l as [|a l IH]; [left; constructor|].
      destruct (position_cases a) as [Ha|Ha].
      - destruct IH as [IH|(pre & t & post & -> & Hpre & Ht)].
        + left. constructor; assumption.
        + right. exists (a :: pre), t, post. repeat split; auto.
      - right. exists [], a, l. repeat split; auto. }
    destruct (G (descendants soup)) as [Hall|(pre & t & post & Hd & Hpre & [Ht|[Hs Hv]])].
    + exists InsufficientParser. auto.
    + exists KeyError. split; [eapply Hkey; eauto|auto].
    + exists ValueError. split; [|auto].
      rewrite find_authors_unfold. fold f. rewrite Hd.
      rewrite (find_all_raise f pre t post ValueError (Hu _ Hpre)); [reflexivity|].
      unfold f. rewrite (is_namelike_without_dates _ _ Hctx), Hs, Hv. reflexivity.
  - intros pre t post Hd Hpre Ht. split; [eapply Hkey; eauto|].
    intros frame P key st.
    unfold run_parser, authors_stage, p_run, p_name, bind, get_state, lift.
    cbn [rs_context rs_frame rs_structured rs_log].
    rewrite (Hkey pre t post Hd Hpre Ht). reflexivity.
Qed.

Lemma find_authors_without_dates_witness :
  find_authors lone_span_paper {[ "title-size" := VInt 16 ]} = Raise KeyError.
Proof.
  destruct (find_authors_without_dates lone_span_paper {[ "title-size" := VInt 16 ]})
    as (_ & _ & H); [reflexivity|].
  apply (H (firstn 1 (descendants lone_span_paper))
           (nth 1 (descendants lone_span_paper) lone_span_paper)
           (skipn 2 (descendants lone_span_paper))).
  - reflexivity.
  - constructor; [left; reflexivity|constructor].
  - split; [reflexivity|]. exists 150%Z. reflexivity.
Defined.

(** C4 as stated fails: with the entries of the dates stage withheld, the
    authors stage on [lone_span_paper] does not signal insufficient
    evidence; it fails with [KeyError], and the driver reports an error. *)
Lemma find_authors_key_error_without_dates :
  ({[ "title-size" := VInt 16 ]} : context) !! "date-start" = None
  /\ ({[ "title-size" := VInt 16 ]} : context) !! "date-size" = None
  /\ find_authors lone_span_paper {[ "title-size" := VInt 16 ]} = Raise KeyError
  /\ rs_log (run_parser "doc" lone_span_paper authors_stage
               (mkRun (DataFrame : journal) ∅ {[ "title-size" := VInt 16 ]} []))
     = [ErrorHandling "find_authors" KeyError].
Proof.
  split; [reflexivity|]. split; [reflexivity|].
  split; vm_compute; reflexivity.
Qed.

(** ** The name pattern *)

Lemma re_exec_plus {A} a pos s (k : nat -> ustr -> option A) :
  re_exec (RPlus a) pos s k = plus_loop (re_exec a) k (S (length s)) pos s.
Proof. reflexivity. Qed.

Lemma plus_loop_S {A} step (k : nat -> ustr -> option A) fuel pos s :
  plus_loop step k (S fuel) pos s =
  step pos s (fun pos' s' =>
    or_else (if (pos <? pos')%nat then plus_loop step k fuel pos' s' else None)
            (k pos' s')).
Proof. reflexivity. Qed.

(** What the engine returns went through the continuation on the rest of
    a split of the text whose first part is a word of the pattern. *)
Lemma re_exec_sound {A} (r : regex) :
  forall (pos : nat) (s : ustr) (k : nat -> ustr -> option A) (x : A),
    re_exec r pos s k = Some x ->
    exists v rest, s = v ++ rest /\ lang r v /\ k (pos + length v)%nat rest = Some x.
Proof.
  induction r as [rs|a IHa b IHb|a IHa b IHb|a IHa|a IHa|a IHa|a IHa|];
    intros pos s k x H.
  - cbn [re_exec] in H. destruct s as [|c s']; [discriminate|].
    destruct (in_ranges c rs) eqn:E; [|discriminate].
    exists [c], s'. split; [reflexivity|]. split; [constructor; exact E|].
    simpl. replace (pos + 1)%nat with (S pos) by lia. exact H.
  - cbn [re_exec] in H. apply IHa in H as (v1 & r1 & -> & L1 & H).
    apply IHb in H as (v2 & r2 & -> & L2 & H).
    exists (v1 ++ v2), r2. split; [apply app_assoc|].
    split; [constructor; assumption|].
    rewrite length_app, Nat.add_assoc. exact H.
  - cbn [re_exec] in H. unfold or_else in H. destruct (re_exec a pos s k) eqn:E.
    + rewrite <- E in H. clear E. apply IHa in H as (v & rest & -> & L & H).
      exists v, rest. auto using lang.
    + apply IHb in H as (v & rest & -> & L & H).
      exists v, rest. auto using lang.
  - cbn [re_exec] in H. unfold or_else in H. destruct (re_exec a pos s k) eqn:E.
    + rewrite <- E in H. clear E. apply IHa in H as (v & rest & -> & L & H).
      exists v, rest. auto using lang.
    + exists [], s. split; [reflexivity|]. split; [constructor|].
      simpl. rewrite Nat.add_0_r. exact H.
  - rewrite re_exec_plus in H. revert H. generalize (S (length s)).
    intros fuel. revert pos s.
    induction fuel as [|fuel IHf]; intros pos s H; [discriminate|].
    rewrite plus_loop_S in H.
    apply IHa in H as (v1 & r1 & -> & L1 & H).
    unfold or_else in H.
    destruct (pos <? pos + length v1)%nat.
    + destruct (plus_loop (re_exec a) k fuel (pos + length v1)%nat r1) eqn:E.
      * rewrite <- E in H. clear E. apply IHf in H as (v2 & r2 & -> & L2 & H).
        exists (v1 ++ v2), r2. split; [apply app_assoc|].
        split; [apply L_plus_more; assumption|].
        rewrite length_app, Nat.add_assoc. exact H.
      * exists v1, r1. auto using lang.
    + exists v1, r1. auto using lang.
  - cbn [re_exec] in H. apply IHa in H as (v & rest & -> & L & H).
    exists v, rest. auto using lang.
  - cbn [re_exec] in H. apply IHa in H as (v & rest & -> & L & H).
    exists v, rest. auto using lang.
  - cbn [re_exec] in H. destruct (pos =? 0)%nat; [|discriminate].
    exists [], s. split; [reflexivity|]. split; [constructor|].
    simpl. rewrite Nat.add_0_r. exact H.
Qed.

(** The engine looks at its continuation only on the rests of the text. *)
Lemma re_exec_ext {A} (r : regex) :
  forall (pos : nat) (s : ustr) (k1 k2 : nat -> ustr -> option A),
    (forall v rest, s = v ++ rest ->
       k1 (pos + length v)%nat rest = k2 (pos + length v)%nat rest) ->
    re_exec r pos s k1 = re_exec r pos s k2.
Proof.
  induction r as [rs|a IHa b IHb|a IHa b IHb|a IHa|a IHa|a IHa|a IHa|];
    intros pos s k1 k2 Hk.
  - cbn [re_exec]. destruct s as [|c s']; [reflexivity|].
    destruct (in_ranges c rs); [|reflexivity].
    specialize (Hk [c] s' eq_refl). simpl in Hk.
    replace (pos + 1)%nat with (S pos) in Hk by lia. exact Hk.
  - cbn [re_exec]. apply IHa. intros v1 r1 ->. apply IHb. intros v2 r2 ->.
    specialize (Hk (v1 ++ v2) r2). rewrite length_app, Nat.add_assoc in Hk.
    apply Hk. apply app_assoc.
  - cbn [re_exec]. rewrite (IHa pos s k1 k2 Hk), (IHb pos s k1 k2 Hk). reflexivity.
  - cbn [re_exec]. rewrite (IHa pos s k1 k2 Hk).
    specialize (Hk [] s eq_refl). simpl in Hk. rewrite Nat.add_0_r in Hk.
    rewrite Hk. reflexivity.
  - rewrite !re_exec_plus. generalize (S (length s)). intros fuel.
    revert pos s Hk. induction fuel as [|fuel IHf]; intros pos s Hk; [reflexivity|].
    rewrite !plus_loop_S. apply IHa. intros v rest ->.
    rewrite (Hk v rest eq_refl).
    destruct (pos <? pos + length v)%nat; [|reflexivity].
    rewrite (IHf (pos + length v)%nat rest); [reflexivity|].
    intros v2 r2 ->. specialize (Hk (v ++ v2) r2).
    rewrite length_app, Nat.add_assoc in Hk. apply Hk. apply app_assoc.
  - cbn [re_exec]. apply IHa. exact Hk.
  - cbn [re_exec]. apply IHa. exact Hk.
  - cbn [re_exec]. destruct (pos =? 0)%nat; [|reflexivity].
    specialize (Hk [] s eq_refl). simpl in Hk. rewrite Nat.add_0_r in Hk. exact Hk.
Qed.

(** More rounds than the text has characters change nothing: the bound on
    the rounds of [+] in [re_exec] is never what makes a match fail. *)
Lemma plus_loop_more_fuel {A} (a : regex) (k : nat -> ustr -> option A) :
  forall (fuel pos : nat) (s : ustr),
    (length s < fuel)%nat ->
    plus_loop (re_exec a) k (S fuel) pos s = plus_loop (re_exec a) k fuel pos s.
Proof.
  induction fuel as [|fuel IH]; intros pos s Hlen; [lia|].
  rewrite (plus_loop_S _ _ (S fuel)), (plus_loop_S _ _ fuel).
  apply re_exec_ext. intros v rest ->.
  destruct (Nat.ltb_spec pos (pos + length v)) as [Hlt|Hge]; [|reflexivity].
  rewrite IH; [reflexivity|]. rewrite length_app in Hlen. lia.
Qed.

Lemma plus_loop_enough_fuel {A} (a : regex) (k : nat -> ustr -> option A)
    (pos : nat) (s : ustr) (extra : nat) :
  plus_loop (re_exec a) k (S (length s) + extra) pos s = re_exec (RPlus a) pos s k.
Proof.
  rewrite re_exec_plus. induction extra as [|extra IH].
  - rewrite Nat.add_0_r. reflexivity.
  - replace (S (length s) + S extra)%nat with (S (S (length s) + extra)) by lia.
    rewrite plus_loop_more_fuel by lia. exact IH.
Qed.

Lemma re_sub_from_more_fuel (r : regex) (repl : ustr) :
  forall (fuel pos : nat) (s : ustr),
    (length s < fuel)%nat ->
    re_sub_from (S fuel) r repl pos s = re_sub_from fuel r repl pos s.
Proof.
  induction fuel as [|fuel IH]; intros pos s Hlen; [lia|].
  change (re_sub_from (S (S fuel)) r repl pos s)
    with (match s with
          | [] => []
          | c :: s' =>
              match re_exec r pos s (fun pos' rest => Some (pos', rest)) with
              | Some (pos', rest) =>
                  if (pos <? pos')%nat then repl ++ re_sub_from (S fuel) r repl pos' rest
                  else c :: re_sub_from (S fuel) r repl (S pos) s'
              | None => c :: re_sub_from (S fuel) r repl (S pos) s'
              end
          end).
  change (re_sub_from (S fuel) r repl pos s)
    with (match s with
          | [] => []
          | c :: s' =>
              match re_exec r pos s (fun pos' rest => Some (pos', rest)) with
              | Some (pos', rest) =>
                  if (pos <? pos')%nat then repl ++ re_sub_from fuel r repl pos' rest
                  else c :: re_sub_from fuel r repl (S pos) s'
              | None => c :: re_sub_from fuel r repl (S pos) s'
              end
          end).
  destruct s as [|c s']; [reflexivity|]. simpl in Hlen.
  destruct (re_exec r pos (c :: s') (fun pos' rest => Some (pos', rest)))
    as [[pos' rest]|] eqn:E.
  - apply re_exec_sound in E as (v & rest0 & Hs & _ & [= <- <-]).
    destruct (Nat.ltb_spec pos (pos + length v)) as [Hlt|Hge].
    + rewrite IH; [reflexivity|].
      assert (length (c :: s') = length v + length rest0)%nat
        by (rewrite Hs; apply length_app).
      simpl in *. lia.
    + rewrite IH by lia. reflexivity.
  - rewrite IH by lia. reflexivity.
Qed.

(** The fuel of [re_sub] is never the limit. *)
Lemma re_sub_enough_fuel (r : regex) (repl s : ustr) (extra : nat) :
  re_sub_from (S (length s) + extra) r repl 0 s = re_sub r repl s.
Proof.
  unfold re_sub. induction extra as [|extra IH].
  - rewrite Nat.add_0_r. reflexivity.
  - replace (S (length s) + S extra)%nat with (S (S (length s) + extra)) by lia.
    rewrite re_sub_from_more_fuel by lia. exact IH.
Qed.

Lemma lang_plus_set rs v :
  lang (RPlus (RSet rs)) v -> v <> [] /\ Forall (fun c => in_ranges c rs = true) v.
Proof.
  intros H. remember (RPlus (RSet rs)) as r eqn:Er.
  induction H; try discriminate; injection Er as ->.
  - inversion H; subst. split; [discriminate|]. repeat constructor. assumption.
  - inversion H; subst. destruct (IHlang2 eq_refl) as [_ Hall].
    split; [discriminate|]. constructor; assumption.
Qed.

Lemma lang_plus_first a v :
  lang (RPlus a) v -> exists v1 v2, v = v1 ++ v2 /\ lang a v1.
Proof.
  intros H. inversion H; subst.
  - exists v, []. rewrite app_nil_r. auto.
  - eauto.
Qed.

(** A word of the name pattern contains two runs of name characters with
    a space character between them. *)
Lemma author_name_two_components v :
  lang RE_AUTHOR_NAME v ->
  exists pfx a sp b rest,
    v = pfx ++ a ++ sp :: b ++ rest
    /\ a <> [] /\ Forall (fun c => in_ranges c _RE_NAME_COMPONENT = true) a
    /\ in_ranges sp _RE_SPACE = true
    /\ b <> [] /\ Forall (fun c => in_ranges c _RE_NAME_COMPONENT = true) b.
Proof.
  unfold RE_AUTHOR_NAME. intros H.
  inversion H as [| ? ? pfx body Hpfx Hbody | | | | | | | | |]; subst. clear H Hpfx.
  inversion Hbody as [| | | | | | | | ? ? Hcat | |]; subst. clear Hbody.
  inversion Hcat as [| ? ? a more Ha Hmore | | | | | | | | |]; subst. clear Hcat.
  apply lang_plus_set in Ha as [Ha1 Ha2].
  apply lang_plus_first in Hmore as (g & rest & -> & Hg).
  inversion Hg as [| | | | | | | | ? ? Hcat | |]; subst. clear Hg.
  inversion Hcat as [| ? ? s1 b Hs Hb | | | | | | | | |]; subst. clear Hcat.
  inversion Hs; subst.
  apply lang_plus_set in Hb as [Hb1 Hb2].
  exists pfx, a, c, b, rest.
  split; [reflexivity|]. repeat (split; [assumption|]). assumption.
Qed.

(** A greedy [+] over a class takes the whole run before handing over to a
    continuation that accepts. *)
Lemma plus_set_takes_run {A} rs (k : nat -> ustr -> option A) rest :
  (forall p, k p rest <> None) ->
  match rest with [] => True | c :: _ => in_ranges c rs = false end ->
  forall run pos, run <> [] -> Forall (fun c => in_ranges c rs = true) run ->
    re_exec (RPlus (RSet rs)) pos (run ++ rest) k = k (pos + length run)%nat rest.
Proof.
  intros Hk Hrest run pos Hne Hrun. rewrite re_exec_plus.
  assert (G : forall fuel run pos, run <> [] ->
            Forall (fun c => in_ranges c rs = true) run ->
            (length run <= fuel)%nat ->
            plus_loop (re_exec (RSet rs)) k fuel pos (run ++ rest)
            = k (pos + length run)%nat rest).
  { clear run pos Hne Hrun.
    induction fuel as [|fuel IH]; intros run pos Hne Hrun Hlen.
    - destruct run; [contradiction|simpl in Hlen; lia].
    - destruct run as [|c run]; [contradiction|].
      inversion Hrun as [|? ? Hc Hrun']; subst.
      rewrite plus_loop_S. cbn [app re_exec]. rewrite Hc.
      replace (pos <? S pos)%nat with true by (symmetry; apply Nat.ltb_lt; lia).
      destruct run as [|c' run].
      + cbn [app length]. replace (pos + 1)%nat with (S pos) by lia.
        destruct fuel as [|fuel]; [reflexivity|].
        rewrite plus_loop_S. cbn [re_exec].
        destruct rest as [|d rest']; [reflexivity|].
        rewrite Hrest. reflexivity.
      + rewrite IH; [|discriminate|assumption|simpl in Hlen |- *; lia].
        cbn [length]. replace (S pos + S (length run))%nat
          with (pos + S (S (length run)))%nat by lia.
        unfold or_else.
        destruct (k (pos + S (S (length run)))%nat rest) eqn:E; [reflexivity|].
        exfalso. exact (Hk _ E). }
  apply G; try assumption. rewrite length_app. lia.
Qed.

(** A comma or middle dot followed by a run of spaces is cut off. *)
Lemma skip_prefix_separator sep spaces rest :
  sep = 0x2C%N \/ sep = 0xB7%N ->
  spaces <> [] -> Forall (fun c => in_ranges c _RE_SPACE = true) spaces ->
  match rest with [] => True | c :: _ => in_ranges c _RE_SPACE = false end ->
  skip_prefix (sep :: spaces ++ rest) = rest.
Proof.
  intros Hsep Hne Hsp Hrest. unfold skip_prefix, re_search.
  pose (k := fun (pos' : nat) (_ : ustr) => Some (0%nat, pos')).
  assert (Hrun : re_exec (RPlus (RSet _RE_SPACE)) 1 (spaces ++ rest) k
                 = Some (0%nat, S (length spaces))).
  { rewrite (plus_set_takes_run _RE_SPACE k rest);
      [reflexivity|discriminate|assumption..]. }
  assert (E : re_exec RE_PREFIX_SKIP 0 (sep :: spaces ++ rest) k
              = Some (0%nat, S (length spaces))).
  { change (re_exec RE_PREFIX_SKIP 0 (sep :: spaces ++ rest) k)
      with (or_else
              (if in_ranges sep [(0x2C, 0x2C)%N]
               then re_exec (RPlus (RSet _RE_SPACE)) 1 (spaces ++ rest) k else None)
              (if in_ranges sep [(0xB7, 0xB7)%N]
               then re_exec (RPlus (RSet _RE_SPACE)) 1 (spaces ++ rest) k else None)).
    rewrite Hrun. destruct Hsep as [->| ->]; reflexivity. }
  cbn [re_search_from]. fold k. rewrite E.
  cbn [skipn]. rewrite skipn_app, skipn_all, Nat.sub_diag. reflexivity.
Qed.

(** C5: the name pattern matches "J. Smith" and "Maria Garcia-Lopez" (with
    its two accented letters) in full and does not match "Smith"; whatever
    it matches holds two runs of name characters with a space between
    them, so a text without a space is not matched, by the engine or by
    the pattern read as a language; and a leading comma or middle dot with
    the spaces after it is cut from what is stored: ", A. Author" is
    stored as "A. Author". *)
Theorem author_name_matcher :
  re_match RE_AUTHOR_NAME (u "J. Smith") = Some 8%nat
  /\ re_match RE_AUTHOR_NAME maria = Some (length maria)
  /\ re_match RE_AUTHOR_NAME (u "Smith") = None
  /\ (forall s e, re_match RE_AUTHOR_NAME s = Some e ->
        exists pfx a sp b rest,
          s = pfx ++ a ++ sp :: b ++ rest
          /\ a <> [] /\ Forall (fun c => in_ranges c _RE_NAME_COMPONENT = true) a
          /\ in_ranges sp _RE_SPACE = true
          /\ b <> [] /\ Forall (fun c => in_ranges c _RE_NAME_COMPONENT = true) b)
  /\ (forall s, Forall (fun c => in_ranges c _RE_SPACE = false) s ->
        re_match RE_AUTHOR_NAME s = None
        /\ forall v rest, s = v ++ rest -> ~ lang RE_AUTHOR_NAME v)
  /\ (forall sep spaces rest,
        sep = 0x2C%N \/ sep = 0xB7%N ->
        spaces <> [] -> Forall (fun c => in_ranges c _RE_SPACE = true) spaces ->
        match rest with [] => True | c :: _ => in_ranges c _RE_SPACE = false end ->
        skip_prefix (sep :: spaces ++ rest) = rest)
  /\ skip_prefix (u ", A. Author") = u "A. Author"
  /\ skip_prefix (0xB7%N :: u " A. Author") = u "A. Author"
  /\ find_authors sample_paper sample_context = Ok [u "A. Author"]
  /\ find_authors single_word_paper sample_context = Raise InsufficientParser.
Proof.
  assert (Htwo : forall s e, re_match RE_AUTHOR_NAME s = Some e ->
            exists pfx a sp b rest,
              s = pfx ++ a ++ sp :: b ++ rest
              /\ a <> [] /\ Forall (fun c => in_ranges c _RE_NAME_COMPONENT = true) a
              /\ in_ranges sp _RE_SPACE = true
              /\ b <> [] /\ Forall (fun c => in_ranges c _RE_NAME_COMPONENT = true) b).
  { intros s e H. unfold re_match in H.
    apply re_exec_sound in H as (v & tl & -> & L & _).
    apply author_name_two_components in L
      as (pfx & a & sp & b & rest & -> & Ha1 & Ha2 & Hsp & Hb1 & Hb2).
    exists pfx, a, sp, b, (rest ++ tl).
    split; [|auto 6]. rewrite <- !app_assoc. simpl. rewrite <- app_assoc. reflexivity. }
  split; [vm_compute; reflexivity|]. split; [vm_compute; reflexivity|].
  split; [vm_compute; reflexivity|]. split; [exact Htwo|].
  split.
  { intros s Hs. rewrite Forall_forall in Hs. split.
    - destruct (re_match RE_AUTHOR_NAME s) as [e|] eqn:E; [|reflexivity].
      apply Htwo in E as (pfx & a & sp & b & rest & -> & _ & _ & Hsp & _).
      rewrite Hs in Hsp; [discriminate|].
      apply elem_of_app. right. apply elem_of_app. right.
      apply elem_of_cons. left. reflexivity.
    - intros v tl -> L.
      apply author_name_two_components in L
        as (pfx & a & sp & b & rest & -> & _ & _ & Hsp & _).
      rewrite Hs in Hsp; [discriminate|].
      apply elem_of_app. left. apply elem_of_app. right. apply elem_of_app. right.
      apply elem_of_cons. left. reflexivity. }
  split; [apply skip_prefix_separator|].
  split; [vm_compute; reflexivity|]. split; [vm_compute; reflexivity|].
  split; vm_compute; reflexivity.
Qed.

Lemma author_name_matcher_witness :
  skip_prefix (u ",  J. Smith") = u "J. Smith"
  /\ exists pfx a sp b rest,
       u ", A. Author" = pfx ++ a ++ sp :: b ++ rest /\ a <> [] /\ b <> [].
Proof.
  destruct author_name_matcher as (_ & _ & _ & Htwo & _ & Hskip & _).
  split.
  - apply (Hskip 0x2C%N (u "  ") (u "J. Smith")).
    + left; reflexivity.
    + discriminate.
    + repeat constructor.
    + reflexivity.
  - destruct (Htwo (u ", A. Author") 11%nat) as (pfx & a & sp & b & rest & E & Ha & _ & _ & Hb & _).
    + vm_compute. reflexivity.
    + exists pfx, a, sp, b, rest. auto.
Defined.
(** ** Flattener *)

(** *** Sequencing *)

Lemma bind_assoc {S A B C : Type} (m : M S A) (f : A -> M S B) (g : B -> M S C) (st : S) :
  bind (bind m f) g st = bind m (fun a => bind (f a) g) st.
Proof. unfold bind. destruct (m st) as [[a|e] st1]; reflexivity. Qed.

Lemma bind_ext {S A B : Type} (m m' : M S A) (f f' : A -> M S B) :
  (forall st, m st = m' st) -> (forall a st, f a st = f' a st) ->
  forall st, bind m f st = bind m' f' st.
Proof.
  intros Hm Hf st. unfold bind. rewrite Hm.
  destruct (m' st) as [[a|e] st1]; [apply Hf|reflexivity].
Qed.

Lemma bind_ok {S A B : Type} (m : M S A) (f : A -> M S B) (st st1 : S) (a : A) :
  m st = (Ok a, st1) -> bind m f st = f a st1.
Proof. intros E. unfold bind. rewrite E. reflexivity. Qed.

Lemma bind_raise {S A B : Type} (m : M S A) (f : A -> M S B) (st st1 : S) (e : exn) :
  m st = (Raise e, st1) -> bind m f st = (Raise e, st1).
Proof. intros E. unfold bind. rewrite E. reflexivity. Qed.

Lemma bind_ret_r {S : Type} (m : M S unit) (st : S) : bind m (fun _ => ret tt) st = m st.
Proof. unfold bind, ret. destruct (m st) as [[[]|e] st1]; reflexivity. Qed.

Lemma for_each_app {S A : Type} (body : A -> M S unit) (l1 l2 : list A) (st : S) :
  for_each body (l1 ++ l2) st = (for_each body l1 ;;; for_each body l2)%M st.
Proof.
  revert st. induction l1 as [|a l1 IH]; intros st; [reflexivity|].
  cbn [app for_each]. rewrite bind_assoc. apply bind_ext; [reflexivity|].
  intros _ st'. apply IH.
Qed.

Lemma append_assoc (s1 s2 s3 : string) : (s1 +:+ s2) +:+ s3 = s1 +:+ (s2 +:+ s3).
Proof.
  induction s1 as [|a s1 IH]; [reflexivity|].
  change (String a ((s1 +:+ s2) +:+ s3) = String a (s1 +:+ (s2 +:+ s3))).
  rewrite IH. reflexivity.
Qed.

Lemma under_extend (sep n x c : string) :
  under sep (n +:+ sep +:+ x) c -> under sep n c.
Proof.
  intros [->|[rest ->]]; right.
  - exists x. reflexivity.
  - exists (x +:+ sep +:+ rest). rewrite !append_assoc. reflexivity.
Qed.

Lemma Forall_flat_enumerate {A B : Type} (P : B -> Prop) (f : nat -> A -> list B)
    (l : list A) :
  (forall i a, In a l -> Forall P (f i a)) -> forall i, Forall P (flat_enumerate f i l).
Proof.
  induction l as [|a l IH]; intros Hf i; [constructor|].
  cbn [flat_enumerate]. apply Forall_app. split; [apply Hf; left; reflexivity|].
  apply IH. intros j b Hb. apply Hf. right. exact Hb.
Qed.

Lemma Forall_flat_map {A B : Type} (P : B -> Prop) (f : A -> list B) (l : list A) :
  (forall a, In a l -> Forall P (f a)) -> Forall P (flat_map f l).
Proof.
  induction l as [|a l IH]; intros Hf; [constructor|].
  cbn [flat_map]. apply Forall_app. split; [apply Hf; left; reflexivity|].
  apply IH. intros b Hb. apply Hf. right. exact Hb.
Qed.

(** Every assignment of [columns sep n v] is to [n] or a column that
    continues it, and assigns an integer or a string. *)
Lemma columns_under (sep : string) (v : pyval) :
  forall n, Forall (fun cv => under sep n (fst cv) /\ scalar (snd cv)) (columns sep n v).
Proof.
  induction v as [|z|s|l IH|l IH|d IH] using pyval_nested_ind; intros n; cbn [columns].
  - constructor.
  - constructor; [|constructor]. split; [left; reflexivity|exact I].
  - constructor; [|constructor]. split; [left; reflexivity|exact I].
  - constructor; [split; [right; exists "length"; reflexivity|exact I]|].
    apply Forall_flat_enumerate. intros i e He.
    rewrite List.Forall_forall in IH. specialize (IH e He (n +:+ sep +:+ pretty i)).
    eapply List.Forall_impl; [|exact IH]. intros cv [Hu Hs]. split; [|exact Hs].
    eapply under_extend. exact Hu.
  - constructor; [split; [right; exists "length"; reflexivity|exact I]|].
    apply Forall_flat_enumerate. intros i e He.
    rewrite List.Forall_forall in IH. specialize (IH e He (n +:+ sep +:+ pretty i)).
    eapply List.Forall_impl; [|exact IH]. intros cv [Hu Hs]. split; [|exact Hs].
    eapply under_extend. exact Hu.
  - apply Forall_flat_map. intros kv Hkv.
    rewrite List.Forall_forall in IH. specialize (IH kv Hkv (n +:+ sep +:+ fst kv)).
    eapply List.Forall_impl; [|exact IH]. intros cv [Hu Hs]. split; [|exact Hs].
    eapply under_extend. exact Hu.
Qed.

Lemma columns_scalar (sep n : string) (v : pyval) : scalar v -> columns sep n v = [(n, v)].
Proof. destruct v; try contradiction; reflexivity. Qed.

Lemma columns_of_scalars (sep n : string) (l : list pyval) :
  Forall scalar l -> forall i,
  flat_enumerate (fun i e => columns sep (n +:+ sep +:+ pretty i) e) i l
  = flat_enumerate (fun i e => [(n +:+ sep +:+ pretty i, e)]) i l.
Proof.
  induction 1 as [|e l He _ IH]; intros i; [reflexivity|].
  cbn [flat_enumerate]. rewrite (columns_scalar _ _ _ He), IH. reflexivity.
Qed.

Section FlattenerFacts.
Context {frame : Type} `{Pandas frame}.

Lemma store_recursive_none (row pn : string) (nm : pyname) (b : bool) (sep : string)
    (st : frame * record) :
  store_recursive row pn nm VNone b sep st = (Ok tt, st).
Proof. destruct nm; reflexivity. Qed.

Lemma store_recursive_scalar (row pn n : string) (v : pyval) (b : bool) (sep : string)
    (st : frame * record) :
  scalar v ->
  store_recursive row pn (NStr n) v b sep st
  = (set_cell row n v ;;; if b then ret tt else set_field n v)%M st.
Proof. destruct v; try contradiction; reflexivity. Qed.

Lemma store_recursive_scalar_tuple (row pn : string) (names : list string) (v : pyval)
    (b : bool) (sep : string) (st : frame * record) :
  scalar v -> store_recursive row pn (NTuple names) v b sep st = (Raise PlainException, st).
Proof. destruct v; try contradiction; reflexivity. Qed.

Lemma store_recursive_list (row pn n : string) (l : list pyval) (b : bool) (sep : string)
    (st : frame * record) :
  store_recursive row pn (NStr n) (VList l) b sep st =
  (set_cell row (n +:+ sep +:+ "length") (VInt (Z.of_nat (length l))) ;;;
   for_enumerate
     (fun i entry =>
        store_recursive row pn (NStr (n +:+ sep +:+ pretty i)) entry true sep) 0 l ;;;
   if b then ret tt else set_field n (VList l))%M st.
Proof. reflexivity. Qed.

Lemma store_recursive_tuple (row pn n : string) (l : list pyval) (b : bool) (sep : string)
    (st : frame * record) :
  store_recursive row pn (NStr n) (VTuple l) b sep st
  = store_recursive row pn (NStr n) (VList l) b sep st.
Proof. reflexivity. Qed.

Lemma store_recursive_dict (row pn n : string) (d : list (string * pyval)) (b : bool)
    (sep : string) (st : frame * record) :
  store_recursive row pn (NStr n) (VDict d) b sep st =
  (for_each
     (fun kv : string * pyval =>
        store_recursive row pn (NStr (n +:+ sep +:+ fst kv)) (snd kv) true sep) d ;;;
   if b then ret tt else set_field n (VDict d))%M st.
Proof. reflexivity. Qed.

Lemma store_recursive_names (row pn : string) (names : list string)
    (d : list (string * pyval)) (b : bool) (sep : string) (st : frame * record) :
  store_recursive row pn (NTuple names) (VDict d) b sep st =
  for_each
    (fun entry =>
       dict_get_with
         (fun v => store_recursive row pn (NStr entry) v true sep) (ret tt) entry d ;;;
       if b then ret tt else set_field entry (dict_get entry d))%M
    names st.
Proof. reflexivity. Qed.

(** *** The assignments of a run *)

Lemma assign_cons (row c : string) (v : pyval) (cells : list (string * pyval))
    (st : frame * record) :
  assign row ((c, v) :: cells) st = (set_cell row c v ;;; assign row cells)%M st.
Proof. reflexivity. Qed.

Lemma assign_one (row c : string) (v : pyval) (st : frame * record) :
  assign row [(c, v)] st = set_cell row c v st.
Proof. apply (bind_ret_r (set_cell row c v)). Qed.

Lemma bind_assign_cons {A : Type} (row c : string) (v : pyval)
    (cells : list (string * pyval)) (k : M (frame * record) A) (st : frame * record) :
  (assign row ((c, v) :: cells) ;;; k)%M st
  = (set_cell row c v ;;; assign row cells ;;; k)%M st.
Proof. exact (bind_assoc (set_cell row c v) (fun _ => assign row cells) (fun _ => k) st). Qed.

Lemma assign_app (row : string) (c1 c2 : list (string * pyval)) (st : frame * record) :
  assign row (c1 ++ c2) st = (assign row c1 ;;; assign row c2)%M st.
Proof. apply for_each_app. Qed.

Lemma set_cell_record (row c : string) (v : pyval) (st : frame * record) :
  snd (snd (set_cell row c v st)) = snd st.
Proof. unfold set_cell. destruct (loc_set row c v (fst st)) as [r fr]. reflexivity. Qed.

Lemma set_cell_result (row c : string) (v : pyval) (st : frame * record) :
  fst (set_cell row c v st) = fst (loc_set row c v (fst st)).
Proof. unfold set_cell. destruct (loc_set row c v (fst st)) as [r fr]. reflexivity. Qed.

(** The assignments to the frame leave the record alone. *)
Lemma assign_record (row : string) (cells : list (string * pyval)) :
  forall st : frame * record, snd (snd (assign row cells st)) = snd st.
Proof.
  induction cells as [|[c v] cells IH]; intros st; [reflexivity|].
  rewrite assign_cons. unfold bind.
  pose proof (set_cell_record row c v st) as Hc.
  destruct (set_cell row c v st) as [[[]|e] st1]; cbn [snd] in Hc |- *.
  - rewrite IH. exact Hc.
  - exact Hc.
Qed.

(** They raise only what an assignment raises. *)
Lemma assign_raise (row : string) (cells : list (string * pyval)) :
  forall (st : frame * record) (e : exn),
    fst (assign row cells st) = Raise e ->
    exists c v fr, In (c, v) cells /\ fst (loc_set row c v fr) = Raise e.
Proof.
  induction cells as [|[c v] cells IH]; intros st e; [discriminate|].
  rewrite assign_cons. unfold bind.
  pose proof (set_cell_result row c v st) as Hc.
  destruct (set_cell row c v st) as [[[]|e'] st1]; cbn [fst] in Hc |- *.
  - intros Hr. destruct (IH _ _ Hr) as (c' & v' & fr & Hin & Hl).
    exists c', v', fr. split; [right; exact Hin|exact Hl].
  - intros [= <-]. exists c, v, (fst st). split; [left; reflexivity|].
    symmetry. exact Hc.
Qed.

(** A frame that accepts the assignments lets them all through. *)
Lemma assign_accepted (row : string) (cells : list (string * pyval)) (st : frame * record) :
  (forall c v fr, In (c, v) cells -> fst (loc_set row c v fr) = Ok tt) ->
  fst (assign row cells st) = Ok tt.
Proof.
  intros Hacc. destruct (assign row cells st) as [[[]|e] st1] eqn:E; [reflexivity|].
  assert (Hr : fst (assign row cells st) = Raise e) by (rewrite E; reflexivity).
  apply assign_raise in Hr as (c & v & fr & Hin & Hl).
  rewrite (Hacc c v fr Hin) in Hl. discriminate.
Qed.

Lemma for_enumerate_columns (row pn sep n : string) (l : list pyval) :
  Forall (fun e => forall m b (st : frame * record),
            store_recursive row pn (NStr m) e b sep st
            = (assign row (columns sep m e) ;;; if b then ret tt else store_field m e)%M st)
    l ->
  forall i (st : frame * record),
    for_enumerate
      (fun i entry =>
         store_recursive row pn (NStr (n +:+ sep +:+ pretty i)) entry true sep) i l st
    = assign row (flat_enumerate (fun i e => columns sep (n +:+ sep +:+ pretty i) e) i l) st.
Proof.
  induction 1 as [|e l He _ IH]; intros i st; [reflexivity|].
  cbn [for_enumerate flat_enumerate]. rewrite assign_app. apply bind_ext.
  - intros st'. rewrite He. apply bind_ret_r.
  - intros _ st'. apply IH.
Qed.

Lemma for_each_columns (row pn sep n : string) (d : list (string * pyval)) :
  Forall (fun kv => forall m b (st : frame * record),
            store_recursive row pn (NStr m) (snd kv) b sep st
            = (assign row (columns sep m (snd kv)) ;;;
               if b then ret tt else store_field m (snd kv))%M st) d ->
  forall st : frame * record,
    for_each
      (fun kv : string * pyval =>
         store_recursive row pn (NStr (n +:+ sep +:+ fst kv)) (snd kv) true sep) d st
    = assign row (flat_map (fun kv => columns sep (n +:+ sep +:+ fst kv) (snd kv)) d) st.
Proof.
  induction 1 as [|kv d Hkv _ IH]; intros st; [reflexivity|].
  cbn [for_each flat_map]. rewrite assign_app. apply bind_ext.
  - intros st'. rewrite Hkv. apply bind_ret_r.
  - intros _ st'. apply IH.
Qed.

(** Under a string name the flattener makes the assignments of [columns]
    and then, unless it was called row-only, stores the value in the
    record. *)
Lemma store_recursive_assigns (row pn sep : string) (v : pyval) :
  forall (n : string) (b : bool) (st : frame * record),
    store_recursive row pn (NStr n) v b sep st
    = (assign row (columns sep n v) ;;; if b then ret tt else store_field n v)%M st.
Proof.
  induction v as [|z|s|l IH|l IH|d IH] using pyval_nested_ind; intros n b st.
  - rewrite store_recursive_none. destruct b; reflexivity.
  - rewrite store_recursive_scalar by exact I. cbn [columns].
    apply bind_ext; [|reflexivity]. intros st'. symmetry. apply assign_one.
  - rewrite store_recursive_scalar by exact I. cbn [columns].
    apply bind_ext; [|reflexivity]. intros st'. symmetry. apply assign_one.
  - rewrite store_recursive_list. cbn [columns]. rewrite bind_assign_cons.
    apply bind_ext; [reflexivity|]. intros _ st'.
    apply bind_ext; [|reflexivity]. apply for_enumerate_columns. exact IH.
  - rewrite store_recursive_tuple, store_recursive_list. cbn [columns].
    rewrite bind_assign_cons.
    apply bind_ext; [reflexivity|]. intros _ st'.
    apply bind_ext; [|reflexivity]. apply for_enumerate_columns. exact IH.
  - rewrite store_recursive_dict. cbn [columns].
    apply bind_ext; [|reflexivity]. apply for_each_columns. exact IH.
Qed.

(** The record after a call under a string name: the value is stored when
    every assignment was accepted and the call is not row-only, and the
    record is as before otherwise. *)
Lemma store_recursive_record (row pn sep n : string) (v : pyval) (b : bool)
    (st : frame * record) :
  snd (snd (store_recursive row pn (NStr n) v b sep st))
  = match fst (store_recursive row pn (NStr n) v b sep st) with
    | Ok _ => if b then snd st
              else match v with VNone => snd st | _ => <[n := stored_form v]> (snd st) end
    | Raise _ => snd st
    end.
Proof.
  rewrite store_recursive_assigns. unfold bind.
  pose proof (assign_record row (columns sep n v) st) as Hr.
  destruct (assign row (columns sep n v) st) as [[[]|e] st1]; cbn [fst snd] in Hr |- *;
    [|exact Hr].
  destruct b; [exact Hr|]. destruct v; cbn [store_field ret set_field modify fst snd];
    rewrite ?Hr; reflexivity.
Qed.

Lemma store_recursive_accepted (row pn sep n : string) (v : pyval) (b : bool)
    (st : frame * record) :
  (forall c x fr, In (c, x) (columns sep n v) -> fst (loc_set row c x fr) = Ok tt) ->
  fst (store_recursive row pn (NStr n) v b sep st) = Ok tt.
Proof.
  intros Hacc. rewrite store_recursive_assigns. unfold bind.
  pose proof (assign_accepted row (columns sep n v) st Hacc) as Ha.
  destruct (assign row (columns sep n v) st) as [[[]|e] st1]; [|discriminate].
  destruct b; [reflexivity|]. destruct v; reflexivity.
Qed.

Lemma store_recursive_raise (row pn sep n : string) (v : pyval) (b : bool)
    (st : frame * record) (e : exn) :
  fst (store_recursive row pn (NStr n) v b sep st) = Raise e ->
  exists c x fr, In (c, x) (columns sep n v) /\ fst (loc_set row c x fr) = Raise e.
Proof.
  rewrite store_recursive_assigns. unfold bind. intros Hr.
  apply (assign_raise row (columns sep n v) st e).
  destruct (assign row (columns sep n v) st) as [[[]|e'] st1]; [|exact Hr].
  destruct b; [discriminate|]. destruct v; discriminate.
Qed.

(** C6 (as amended): flattening a sequence under a string name [n] asks
    the frame, in order, for the element count in the column [n.length]
    and then for what each element gives, flattened row-only, under
    [n.<index>]: a scalar element is assigned to the column [n.<index>].
    When the frame accepts every assignment the sequence itself is stored
    at [n] in the record; when it refuses one, that exception is raised
    and the record is as before; the elements never touch the record.  So
    [[1,2,3]] under "x" gives x.length=3, x.0=1, x.1=2, x.2=3 and the
    record [{"x": [1,2,3]}], while the mapping [{"a": [1,2,3]}] under "x"
    gives the columns x.a.length, x.a.0, x.a.1, x.a.2.  A mapping under
    the tuple of names ("received", "accepted") fills the columns and the
    record keys received and accepted. *)
Theorem flatten_sequence (row pn n sep : string) (l : list pyval) (st : frame * record) :
  store_recursive row pn (NStr n) (VList l) false sep st
  = (assign row
       ((n +:+ sep +:+ "length", VInt (Z.of_nat (length l)))
        :: flat_enumerate (fun i e => columns sep (n +:+ sep +:+ pretty i) e) 0 l) ;;;
     set_field n (VList l))%M st
  /\ (forall i v, l !! i = Some v -> scalar v ->
        columns sep (n +:+ sep +:+ pretty i) v = [(n +:+ sep +:+ pretty i, v)])
  /\ (Forall scalar l ->
      flat_enumerate (fun i e => columns sep (n +:+ sep +:+ pretty i) e) 0 l
      = flat_enumerate (fun i e => [(n +:+ sep +:+ pretty i, e)]) 0 l)
  /\ (forall (i : nat) (e : pyval) (st1 : frame * record),
        snd (snd (store_recursive row pn (NStr (n +:+ sep +:+ pretty i)) e true sep st1))
        = snd st1)
  /\ snd (snd (store_recursive row pn (NStr n) (VList l) false sep st))
     = match fst (store_recursive row pn (NStr n) (VList l) false sep st) with
       | Ok _ => <[n := VList l]> (snd st)
       | Raise _ => snd st
       end
  /\ (accepts_row row ->
      fst (store_recursive row pn (NStr n) (VList l) false sep st) = Ok tt)
  /\ columns "." "x" (VList [VInt 1; VInt 2; VInt 3])
     = [("x.length", VInt 3); ("x.0", VInt 1); ("x.1", VInt 2); ("x.2", VInt 3)]
  /\ columns "." "x" (VDict [("a", VList [VInt 1; VInt 2; VInt 3])])
     = [("x.a.length", VInt 3); ("x.a.0", VInt 1); ("x.a.1", VInt 2); ("x.a.2", VInt 3)]
  /\ store_recursive row pn (NTuple ["received"; "accepted"])
       (VDict [("received", VStr (u "d1")); ("accepted", VStr (u "d2"))]) false "." st
     = (set_cell row "received" (VStr (u "d1")) ;;;
        set_field "received" (VStr (u "d1")) ;;;
        set_cell row "accepted" (VStr (u "d2")) ;;;
        set_field "accepted" (VStr (u "d2")))%M st.
Proof.
  split; [exact (store_recursive_assigns row pn sep (VList l) n false st)|].
  split; [intros i v _ Hv; apply columns_scalar; exact Hv|].
  split; [intros Hl; apply columns_of_scalars; exact Hl|].
  split.
  { intros i e st1. rewrite store_recursive_record.
    destruct (fst (store_recursive row pn (NStr (n +:+ sep +:+ pretty i)) e true sep st1));
      reflexivity. }
  split; [apply store_recursive_record|].
  split; [intros Hacc; apply store_recursive_accepted; intros c x fr _; apply Hacc|].
  split; [reflexivity|]. split; [reflexivity|].
  rewrite store_recursive_names. cbn [for_each].
  change (dict_get_with _ _ "received" _)
    with (store_recursive row pn (NStr "received") (VStr (u "d1")) true ".").
  change (dict_get_with _ _ "accepted" _)
    with (store_recursive row pn (NStr "accepted") (VStr (u "d2")) true ".").
  change (dict_get "received" _) with (VStr (u "d1")).
  change (dict_get "accepted" _) with (VStr (u "d2")).
  rewrite bind_assoc. apply bind_ext.
  { intros st'. rewrite store_recursive_scalar by exact I. apply bind_ret_r. }
  intros _ st1. apply bind_ext; [reflexivity|]. intros _ st2.
  rewrite bind_ret_r. apply bind_ext; [|reflexivity].
  intros st'. rewrite store_recursive_scalar by exact I. apply bind_ret_r.
Qed.

End FlattenerFacts.

Lemma flatten_sequence_witness :
  store_recursive "doc" "p" (NStr "x") (VList [VInt 1; VInt 2; VInt 3]) false "."
    ((DataFrame : journal), ∅)
  = (Ok tt,
     ([("doc", "x.length", VInt 3); ("doc", "x.0", VInt 1); ("doc", "x.1", VInt 2);
       ("doc", "x.2", VInt 3)],
      {[ "x" := VList [VInt 1; VInt 2; VInt 3] ]}))
  /\ store_recursive "doc" "p" (NStr "x")
       (VList [VDict [("a.b", VInt 1); ("a", VDict [("b", VStr (u "s"))])]]) false "."
       ((DataFrame : typed_journal), ∅)
     = (Raise TypeError, ([("doc", "x.length", VInt 1); ("doc", "x.0.a.b", VInt 1)], ∅)).
Proof.
  split.
  - rewrite (proj1 (flatten_sequence "doc" "p" "x" "." [VInt 1; VInt 2; VInt 3]
                      ((DataFrame : journal), ∅))).
    reflexivity.
  - rewrite (proj1 (flatten_sequence "doc" "p" "x" "."
                      [VDict [("a.b", VInt 1); ("a", VDict [("b", VStr (u "s"))])]]
                      ((DataFrame : typed_journal), ∅))).
    reflexivity.
Defined.

(** C6 as stated fails on its first example: flattening the mapping
    [{"a": [1,2,3]}] under "x" asks for no column x.length or x.0 (the
    columns carry the key, x.a.length and so on) and the record holds the
    mapping at "x", not the sequence. *)
Lemma flatten_mapping_keeps_its_key :
  let out := store_recursive "doc" "p" (NStr "x")
               (VDict [("a", VList [VInt 1; VInt 2; VInt 3])]) false "."
               ((DataFrame : journal), ∅) in
  fst out = Ok tt
  /\ fst (snd out)
     = [("doc", "x.a.length", VInt 3); ("doc", "x.a.0", VInt 1); ("doc", "x.a.1", VInt 2);
        ("doc", "x.a.2", VInt 3)]
  /\ snd (snd out) !! "x" = Some (VDict [("a", VList [VInt 1; VInt 2; VInt 3])])
  /\ snd (snd out) !! "x" <> Some (VList [VInt 1; VInt 2; VInt 3]).
Proof.
  cbv zeta. split; [reflexivity|]. split; [reflexivity|]. split; [reflexivity|].
  vm_compute. discriminate.
Qed.

(** ** Driver *)

Section DriverFacts.
Context {frame : Type} `{Pandas frame}.

Lemma run_parsers_cons key soup p ps (st : run_state frame) :
  run_parsers key soup (p :: ps) st = run_parsers key soup ps (run_parser key soup p st).
Proof. reflexivity. Qed.

(** C7 (as amended): a scalar under a tuple of names makes
    [store_recursive] raise a plain exception before it writes anything;
    the exception is caught by the handler of the stage in the driver,
    which reports the error, keeps frame and record as they were and goes
    on with the next stage.  The driver returns frame and record whatever
    the stages do. *)
Theorem scalar_under_tuple_name_is_caught (key : string) (soup : tag) (p : parser)
    (names : list string) (v : pyval) (st : run_state frame) (ctx' : context) :
  p_key p = NTuple names -> scalar v -> p_run p soup (rs_context st) = (Ok v, ctx') ->
  (forall (row pn : string) (b : bool) (sep : string) (sk : frame * record),
     store_recursive row pn (NTuple names) v b sep sk = (Raise PlainException, sk))
  /\ run_parser key soup p st
     = mkRun (rs_frame st) (rs_structured st) ctx'
         (rs_log st ++ [ErrorHandling (p_name p) PlainException])
  /\ (forall ps,
        run_parsers key soup (p :: ps) st
        = run_parsers key soup ps
            (mkRun (rs_frame st) (rs_structured st) ctx'
               (rs_log st ++ [ErrorHandling (p_name p) PlainException])))
  /\ (forall ps, exists (fr : frame) (sd : record) (log : list report),
        handle_sample_with ps key soup = (key, Some fr, Some sd, log)).
Proof.
  intros Hkey Hv Hrun.
  assert (Hraise : forall (row pn : string) (b : bool) (sep : string) (sk : frame * record),
            store_recursive row pn (NTuple names) v b sep sk = (Raise PlainException, sk)).
  { intros. apply store_recursive_scalar_tuple. exact Hv. }
  assert (Hstep : run_parser key soup p st
                  = mkRun (rs_frame st) (rs_structured st) ctx'
                      (rs_log st ++ [ErrorHandling (p_name p) PlainException])).
  { unfold run_parser. rewrite Hrun, Hkey, Hraise. reflexivity. }
  split; [exact Hraise|]. split; [exact Hstep|]. split.
  - intros ps. rewrite run_parsers_cons, Hstep. reflexivity.
  - intros ps. unfold handle_sample_with. eauto.
Qed.

End DriverFacts.

Lemma scalar_under_tuple_name_is_caught_witness :
  run_parsers "doc" sample_paper [year_stage; title_stage]
    (mkRun (DataFrame : journal) ∅ ∅ [])
  = mkRun [("doc", "title", VStr (u "Fast Graph Algorithms"))]
      (<["title" := VStr (u "Fast Graph Algorithms")]> ∅)
      (<["title-size" := VInt 16]> ∅)
      [ErrorHandling "find_year" PlainException].
Proof.
  destruct (scalar_under_tuple_name_is_caught "doc" sample_paper year_stage
              ["received"; "accepted"] (VInt 2020) (mkRun (DataFrame : journal) ∅ ∅ []) ∅)
    as (_ & _ & H & _); [reflexivity|exact I|reflexivity|].
  rewrite H. vm_compute. reflexivity.
Defined.

(** C7 as stated fails: with a stage that hands a number to a tuple of
    names in front of the title stage, the run is not aborted; the error
    is reported, and the title stage still fills frame and record. *)
Lemma driver_survives_scalar_under_tuple_name :
  store_recursive "doc" "find_year" (NTuple ["received"; "accepted"]) (VInt 2020)
    false "." ((DataFrame : journal), ∅) = (Raise PlainException, ([], ∅))
  /\ handle_sample_with [year_stage; title_stage] "doc" sample_paper
     = ("doc",
        Some ([("doc", "title", VStr (u "Fast Graph Algorithms"))] : journal),
        Some (<["title" := VStr (u "Fast Graph Algorithms")]>
                (<["document" := VStr (u "doc.pdf")]> ∅)),
        [ErrorHandling "find_year" PlainException]).
Proof. split; reflexivity. Qed.

(** ** Preprocessing *)

Lemma startswith_app (p rest : ustr) : startswith (p ++ rest) p = true.
Proof.
  induction p as [|c p IH]; [destruct rest; reflexivity|].
  simpl. rewrite N.eqb_refl. exact IH.
Qed.

Lemma startswith_split (s p : ustr) :
  startswith s p = true -> exists rest, s = p ++ rest.
Proof.
  revert s. induction p as [|c p IH]; intros s H.
  - exists s. reflexivity.
  - destruct s as [|d s]; [discriminate|]. simpl in H.
    apply andb_prop in H as [Hc H]. apply N.eqb_eq in Hc as ->.
    apply IH in H as [rest ->]. exists rest. reflexivity.
Qed.

Lemma endswith_iff (s p : ustr) : endswith s p = true <-> exists r, s = r ++ p.
Proof.
  unfold endswith. split.
  - intros H. apply startswith_split in H as [rest H].
    exists (rev rest). rewrite <- (rev_involutive s), H, rev_app_distr, rev_involutive.
    reflexivity.
  - intros [r ->]. rewrite rev_app_distr. apply startswith_app.
Qed.

Lemma size_attribute_iff (name_ : ustr) :
  existsb (ustr_eqb name_) SIZE_ATTRIBUTES = true <-> In name_ SIZE_ATTRIBUTES.
Proof.
  rewrite existsb_exists. split.
  - intros (x & Hin & Hx). apply ustr_eqb_eq in Hx as ->. exact Hin.
  - intros Hin. exists name_. split; [exact Hin|]. apply ustr_eqb_eq. reflexivity.
Qed.

(** X1: [map_style_val] takes the unit off a size and refuses a size without
    it; any other property keeps its value. *)
Theorem map_style_val_unit (name_ value : ustr) :
  (In name_ SIZE_ATTRIBUTES ->
     (forall r, map_style_val name_ value = Ok r <-> value = r ++ u "px")
     /\ ((forall r, value <> r ++ u "px") -> map_style_val name_ value = Raise PlainException))
  /\ (~ In name_ SIZE_ATTRIBUTES -> map_style_val name_ value = Ok value).
Proof.
  unfold map_style_val. split.
  - intros Hin. apply size_attribute_iff in Hin. rewrite Hin. split.
    + intros r. destruct (endswith value (u "px")) eqn:E.
      * apply endswith_iff in E as [r0 ->].
        rewrite length_app. change (length (u "px")) with 2%nat.
        replace (length r0 + 2 - 2)%nat with (length r0) by lia.
        rewrite firstn_app, firstn_all, Nat.sub_diag. cbn [firstn]. rewrite app_nil_r.
        split; [intros [= <-]; reflexivity|].
        intros H. apply app_inv_tail in H. subst. reflexivity.
      * split; [discriminate|]. intros ->.
        assert (endswith (r ++ u "px") (u "px") = true) by (apply endswith_iff; eauto).
        congruence.
    + intros Hno. destruct (endswith value (u "px")) eqn:E; [|reflexivity].
      apply endswith_iff in E as [r0 ->]. exfalso. exact (Hno r0 eq_refl).
  - intros Hnot. destruct (existsb (ustr_eqb name_) SIZE_ATTRIBUTES) eqn:E; [|reflexivity].
    apply size_attribute_iff in E. contradiction.
Qed.

Lemma map_style_val_unit_witness :
  map_style_val (u "top") (u "120px") = Ok (u "120")
  /\ map_style_val (u "top") (u "120") = Raise PlainException
  /\ map_style_val (u "color") (u "red") = Ok (u "red").
Proof.
  destruct (map_style_val_unit (u "top") (u "120px")) as [Hsize _].
  destruct (map_style_val_unit (u "top") (u "120")) as [Hbad _].
  destruct (map_style_val_unit (u "color") (u "red")) as [_ Hother].
  split; [apply Hsize; [simpl; auto|reflexivity]|].
  split; [|apply Hother; simpl; intuition discriminate].
  apply Hbad; [simpl; auto|].
  intros r H. apply (f_equal (fun l => rev l)) in H. rewrite rev_app_distr in H.
  simpl in H. discriminate.
Defined.

Lemma map_style_val_ok_iff (k v : ustr) :
  (exists r, map_style_val k v = Ok r)
  <-> (existsb (ustr_eqb k) SIZE_ATTRIBUTES = true -> endswith v (u "px") = true).
Proof.
  unfold map_style_val. destruct (existsb (ustr_eqb k) SIZE_ATTRIBUTES).
  - destruct (endswith v (u "px")).
    + split; eauto.
    + split; [intros [r H]; discriminate|]. intros H. discriminate (H eq_refl).
  - split; [discriminate|eauto].
Qed.

Lemma map_style_val_raise (k v : ustr) e :
  map_style_val k v = Raise e -> e = PlainException.
Proof.
  unfold map_style_val. destruct (existsb _ _); [|discriminate].
  destruct (endswith _ _); [discriminate|]. intros [= <-]. reflexivity.
Qed.

Lemma udict_get_set (k v k' : ustr) (d : list (ustr * ustr)) :
  udict_get k' (udict_set k v d) = if ustr_eqb k k' then Some v else udict_get k' d.
Proof.
  induction d as [|[k0 v0] d IH]; simpl.
  - reflexivity.
  - destruct (ustr_eqb k0 k) eqn:E0; simpl.
    + apply ustr_eqb_eq in E0 as ->. destruct (ustr_eqb k k'); reflexivity.
    + destruct (ustr_eqb k0 k') eqn:E1.
      * apply ustr_eqb_eq in E1 as ->.
        destruct (ustr_eqb k k') eqn:E2; [|reflexivity].
        apply ustr_eqb_eq in E2 as ->.
        assert (ustr_eqb k' k' = true) by (apply ustr_eqb_eq; reflexivity). congruence.
      * exact IH.
Qed.

(** One declaration of a style, as [style_pairs] takes it. *)
Lemma style_pairs_cons (result : list (ustr * ustr)) (x : ustr) (decls : list ustr) :
  style_pairs result (x :: decls) =
  match split 58%N x with
  | [k; v] =>
      (let? value := map_style_val (strip k) (strip v) in
       style_pairs (udict_set (strip k) value result) decls)%res
  | _ => Raise ValueError
  end.
Proof. reflexivity. Qed.

Lemma style_pairs_accepts (decls : list ustr) : forall result,
  Forall declaration_ok decls <-> exists d, style_pairs result decls = Ok d.
Proof.
  induction decls as [|x decls IH]; intros result.
  - split; [intros _; exists result; reflexivity|constructor].
  - rewrite style_pairs_cons. split.
    + intros H. inversion H as [|? ? (k & v & Hs & Hpx) Hrest]; subst.
      rewrite Hs. apply map_style_val_ok_iff in Hpx as [r Hr]. rewrite Hr.
      cbn [res_bind]. apply IH. exact Hrest.
    + intros [d H].
      destruct (split 58%N x) as [|k [|v [|]]] eqn:Hs; try discriminate.
      destruct (map_style_val (strip k) (strip v)) as [r|] eqn:Hr; [|discriminate].
      cbn [res_bind] in H. constructor.
      * exists k, v. split; [exact Hs|]. apply map_style_val_ok_iff. eauto.
      * eapply IH. eauto.
Qed.

Lemma style_pairs_raise (decls : list ustr) : forall result e,
  style_pairs result decls = Raise e -> e = ValueError \/ e = PlainException.
Proof.
  induction decls as [|x decls IH]; intros result e; [discriminate|].
  rewrite style_pairs_cons.
  destruct (split 58%N x) as [|k [|v [|]]]; try (intros [= <-]; auto).
  destruct (map_style_val (strip k) (strip v)) as [r|e'] eqn:Hr; cbn [res_bind].
  - apply IH.
  - intros [= <-]. apply map_style_val_raise in Hr. auto.
Qed.

Lemma style_pairs_entries (decls : list ustr) : forall result d k v,
  style_pairs result decls = Ok d -> udict_get k d = Some v ->
  udict_get k result = Some v
  \/ exists x k0 v0, In x decls /\ split 58%N x = [k0; v0] /\ strip k0 = k
                     /\ map_style_val k (strip v0) = Ok v.
Proof.
  induction decls as [|x decls IH]; intros result d k v H Hget.
  - injection H as <-. auto.
  - rewrite style_pairs_cons in H.
    destruct (split 58%N x) as [|k0 [|v0 [|]]] eqn:Hs; try discriminate.
    destruct (map_style_val (strip k0) (strip v0)) as [r|] eqn:Hr; [|discriminate].
    cbn [res_bind] in H.
    destruct (IH _ _ _ _ H Hget) as [Hres|(x' & k1 & v1 & Hin & Hs' & Hk & Hv)].
    + rewrite udict_get_set in Hres.
      destruct (ustr_eqb (strip k0) k) eqn:E; [|auto].
      apply ustr_eqb_eq in E. injection Hres as <-. subst k.
      right. exists x, k0, v0. simpl. auto.
    + right. exists x', k1, v1. simpl. auto.
Qed.

Lemma style_pairs_last (ds : list ustr) (x k0 v0 : ustr) : forall result d,
  split 58%N x = [k0; v0] -> style_pairs result (ds ++ [x]) = Ok d ->
  exists v, map_style_val (strip k0) (strip v0) = Ok v /\ udict_get (strip k0) d = Some v.
Proof.
  induction ds as [|y ds IH]; intros result d Hs H.
  - cbn [app] in H. rewrite style_pairs_cons, Hs in H.
    destruct (map_style_val (strip k0) (strip v0)) as [r|] eqn:Hr; [|discriminate].
    cbn [res_bind style_pairs] in H. injection H as <-.
    exists r. split; [reflexivity|]. rewrite udict_get_set.
    replace (ustr_eqb (strip k0) (strip k0)) with true; [reflexivity|].
    symmetry. apply ustr_eqb_eq. reflexivity.
  - cbn [app] in H. rewrite style_pairs_cons in H.
    destruct (split 58%N y) as [|k1 [|v1 [|]]]; try discriminate.
    destruct (map_style_val (strip k1) (strip v1)); [|discriminate].
    cbn [res_bind] in H. eapply IH; eauto.
Qed.

(** X2: [style_kv_obj] accepts a style exactly when each declaration has one
    colon and each size is in [px]; every entry of the result comes from a
    declaration, the last declaration of a property decides its value,
    and a refusal is a [ValueError] (colons) or a plain exception (unit). *)
Theorem style_kv_obj_accepts (style : ustr) :
  style <> [] ->
  (Forall declaration_ok (declarations style)
     <-> exists d, style_kv_obj (Some style) = Ok (Some d))
  /\ (forall d k v,
        style_kv_obj (Some style) = Ok (Some d) -> udict_get k d = Some v ->
        exists x k0 v0, In x (declarations style) /\ split 0x3A x = [k0; v0]
                        /\ strip k0 = k /\ map_style_val k (strip v0) = Ok v)
  /\ (forall d ds x k0 v0,
        style_kv_obj (Some style) = Ok (Some d) ->
        declarations style = ds ++ [x] -> split 0x3A x = [k0; v0] ->
        exists v, map_style_val (strip k0) (strip v0) = Ok v
                  /\ udict_get (strip k0) d = Some v)
  /\ (forall e, style_kv_obj (Some style) = Raise e ->
        e = ValueError \/ e = PlainException).
Proof.
  intros Hne.
  assert (Hunfold : style_kv_obj (Some style) =
            (let? d := style_pairs [] (declarations style) in Ok (Some d))%res).
  { destruct style; [contradiction|reflexivity]. }
  rewrite Hunfold. split.
  { rewrite (style_pairs_accepts (declarations style) []).
    split; intros [d H].
    - exists d. rewrite H. reflexivity.
    - destruct (style_pairs [] (declarations style)) as [d'|]; [eauto|discriminate]. }
  split.
  { intros d k v H Hget.
    destruct (style_pairs [] (declarations style)) as [d'|] eqn:E; [|discriminate].
    injection H as <-.
    destruct (style_pairs_entries _ _ _ _ _ E Hget) as [Hres|H]; [discriminate|exact H]. }
  split.
  { intros d ds x k0 v0 H Hd Hs.
    destruct (style_pairs [] (declarations style)) as [d'|] eqn:E; [|discriminate].
    injection H as <-. rewrite Hd in E. eapply style_pairs_last; eauto. }
  intros e H.
  destruct (style_pairs [] (declarations style)) as [d'|e'] eqn:E; [discriminate|].
  injection H as <-. eapply style_pairs_raise; eauto.
Qed.

Lemma style_kv_obj_accepts_witness :
  exists d, style_kv_obj (Some (u "top: 1px; color:red ;top:120px;")) = Ok (Some d)
            /\ udict_get (u "top") d = Some (u "120").
Proof.
  destruct (style_kv_obj_accepts (u "top: 1px; color:red ;top:120px;"))
    as (Hacc & _ & Hlast & _); [discriminate|].
  destruct (proj1 Hacc) as [d Hd].
  { assert (E : declarations (u "top: 1px; color:red ;top:120px;")
                = [u "top: 1px"; u "color:red"; u "top:120px"]) by reflexivity.
    rewrite E. constructor; [|constructor; [|constructor; [|constructor]]].
    - exists (u "top"), (u " 1px"). split; [reflexivity|]. intros _. reflexivity.
    - exists (u "color"), (u "red"). split; [reflexivity|].
      intros H. vm_compute in H. discriminate.
    - exists (u "top"), (u "120px"). split; [reflexivity|]. intros _. reflexivity. }
  exists d. split; [exact Hd|].
  destruct (Hlast d [u "top: 1px"; u "color:red"] (u "top:120px") (u "top") (u "120px") Hd)
    as (v & Hv & Hget); [reflexivity|reflexivity|].
  change (strip (u "top")) with (u "top") in Hget.
  change (map_style_val (strip (u "top")) (strip (u "120px"))) with (Ok (u "120")) in Hv.
  injection Hv as <-. exact Hget.
Defined.

Lemma preprocess_node_tag (page_index : ustr) nm (a : gmap string ustr) (cs : list node) :
  preprocess_node page_index (Tag nm a cs) =
  (let? a := inline_style a in
   let page_index :=
     if String.eqb nm "a" then
       match a !! "name" with
       | Some name_ =>
           if startswith (strip (flat_map node_text cs)) (u "Page") then name_
           else page_index
       | None => page_index
       end
     else page_index in
   let a := if negb (String.eqb nm "br") then <["page" := page_index]> a else a in
   let? r := map_state preprocess_node page_index cs in
   Ok (Tag nm a (fst r), snd r))%res.
Proof. reflexivity. Qed.

Lemma tags_from_outline (n : node) : forall up,
  map (fun t => (name t, text t)) (tags_from up n) = outline n.
Proof.
  induction n as [s|nm a cs IH] using node_nested_ind; intros up; [reflexivity|].
  cbn [tags_from outline map]. f_equal.
  generalize (Tag nm a cs :: up). intros up'.
  induction IH as [|c cs Hc _ IHcs]; [reflexivity|].
  cbn [flat_map]. rewrite map_app, Hc, IHcs. reflexivity.
Qed.

Lemma descendants_outline (t : tag) :
  map (fun t => (name t, text t)) (descendants t) = flat_map outline (contents t).
Proof.
  unfold descendants. generalize (as_node t :: ancestors t). intros up.
  induction (contents t) as [|c cs IH]; [reflexivity|].
  cbn [flat_map]. rewrite map_app, tags_from_outline, IH. reflexivity.
Qed.

(** What a loop of [preprocess_node] over children keeps, given that each
    child keeps it. *)
Lemma map_state_outline (cs : list node) :
  Forall (fun n => forall page n' page',
            preprocess_node page n = Ok (n', page') ->
            outline n' = outline n /\ node_text n' = node_text n) cs ->
  forall page cs' page',
    map_state preprocess_node page cs = Ok (cs', page') ->
    flat_map outline cs' = flat_map outline cs
    /\ flat_map node_text cs' = flat_map node_text cs.
Proof.
  intros H. induction H as [|c cs Hc _ IH]; intros page cs' page' E.
  - injection E as <- <-. split; reflexivity.
  - cbn [map_state] in E.
    destruct (preprocess_node page c) as [[c1 p1]|] eqn:E1; [|discriminate].
    cbn [res_bind fst snd] in E.
    destruct (map_state preprocess_node p1 cs) as [[cs1 p2]|] eqn:E2; [|discriminate].
    cbn [res_bind fst snd] in E. injection E as <- <-.
    destruct (Hc _ _ _ E1) as [Ho Ht]. destruct (IH _ _ _ E2) as [Hos Hts].
    cbn [flat_map]. rewrite Ho, Ht, Hos, Hts. split; reflexivity.
Qed.

Lemma preprocess_node_outline (n : node) : forall page n' page',
  preprocess_node page n = Ok (n', page') ->
  outline n' = outline n /\ node_text n' = node_text n.
Proof.
  induction n as [s|nm a cs IH] using node_nested_ind; intros page n' page' E.
  - injection E as <- <-. split; reflexivity.
  - rewrite preprocess_node_tag in E.
    destruct (inline_style a) as [a1|]; [|discriminate]. cbn [res_bind] in E.
    match type of E with
    | context [map_state preprocess_node ?p cs] =>
        destruct (map_state preprocess_node p cs) as [[cs1 p2]|] eqn:E2; [|discriminate]
    end.
    cbn [res_bind fst snd] in E. injection E as <- <-.
    destruct (map_state_outline cs IH _ _ _ E2) as [Ho Ht].
    cbn [outline node_text]. rewrite Ho, Ht. split; reflexivity.
Qed.

(** X3: Preprocessing changes attributes only: the tags of the document, in
    document order, keep their names and their texts. *)
Theorem preprocess_soup_keeps_outline (soup soup' : tag) :
  preprocess_soup soup = Ok soup' ->
  map (fun t => (name t, text t)) (descendants soup')
  = map (fun t => (name t, text t)) (descendants soup)
  /\ text soup' = text soup
  /\ name soup' = name soup /\ attrs soup' = attrs soup.
Proof.
  unfold preprocess_soup. intros E.
  destruct (map_state preprocess_node (u "0") (contents soup)) as [[cs1 p]|] eqn:E1;
    [|discriminate].
  cbn [res_bind fst] in E. injection E as <-.
  assert (Hall : forall cs : list node,
            Forall (fun n => forall page n' page',
                      preprocess_node page n = Ok (n', page') ->
                      outline n' = outline n /\ node_text n' = node_text n) cs).
  { intros cs. apply Forall_forall. intros n _. apply preprocess_node_outline. }
  destruct (map_state_outline _ (Hall _) _ _ _ E1) as [Ho Ht].
  rewrite !descendants_outline. cbn [contents name attrs]. unfold text. cbn [contents].
  rewrite Ho, Ht. repeat split.
Qed.

Lemma preprocess_soup_keeps_outline_witness :
  exists soup', preprocess_soup raw_paper = Ok soup'
                /\ map name (descendants soup') = ["span"; "a"; "div"; "span"; "br"]
                /\ text soup' = u "Page 1Fast Graph Algorithms".
Proof.
  destruct (preprocess_soup raw_paper) as [soup'|] eqn:E; [|vm_compute in E; discriminate].
  exists soup'. split; [reflexivity|].
  destruct (preprocess_soup_keeps_outline raw_paper soup' E) as (Hd & Ht & _).
  split; [|rewrite Ht; reflexivity].
  transitivity (map fst (map (fun t => (name t, text t)) (descendants soup'))).
  - rewrite map_map. reflexivity.
  - rewrite Hd. reflexivity.
Defined.

Lemma pages_follow_app (l1 l2 : list tag) : forall page,
  pages_follow page (l1 ++ l2)
  <-> pages_follow page l1 /\ pages_follow (page_after page l1) l2.
Proof.
  induction l1 as [|t l1 IH]; intros page; cbn [app pages_follow page_after].
  - tauto.
  - rewrite IH. tauto.
Qed.

Lemma page_after_app (l1 l2 : list tag) : forall page,
  page_after page (l1 ++ l2) = page_after (page_after page l1) l2.
Proof.
  induction l1 as [|t l1 IH]; intros page; [reflexivity|].
  cbn [app page_after]. apply IH.
Qed.

Lemma map_state_pages (cs : list node) :
  Forall (fun n => forall page n' page',
            preprocess_node page n = Ok (n', page') ->
            forall up, pages_follow page (tags_from up n')
                       /\ page_after page (tags_from up n') = page') cs ->
  forall page cs' page',
    map_state preprocess_node page cs = Ok (cs', page') ->
    forall up, pages_follow page (flat_map (tags_from up) cs')
               /\ page_after page (flat_map (tags_from up) cs') = page'.
Proof.
  intros H. induction H as [|c cs Hc _ IH]; intros page cs' page' E up.
  - injection E as <- <-. split; [exact I|reflexivity].
  - cbn [map_state] in E.
    destruct (preprocess_node page c) as [[c1 p1]|] eqn:E1; [|discriminate].
    cbn [res_bind fst snd] in E.
    destruct (map_state preprocess_node p1 cs) as [[cs1 p2]|] eqn:E2; [|discriminate].
    cbn [res_bind fst snd] in E. injection E as <- <-.
    destruct (Hc _ _ _ E1 up) as [Hf Ha]. destruct (IH _ _ _ E2 up) as [Hfs Has].
    cbn [flat_map]. rewrite pages_follow_app, page_after_app, Ha. auto.
Qed.

Lemma preprocess_node_pages (n : node) : forall page n' page',
  preprocess_node page n = Ok (n', page') ->
  forall up, pages_follow page (tags_from up n')
             /\ page_after page (tags_from up n') = page'.
Proof.
  induction n as [s|nm a cs IH] using node_nested_ind; intros page n' page' E up.
  - injection E as <- <-. split; [exact I|reflexivity].
  - rewrite preprocess_node_tag in E.
    destruct (inline_style a) as [a1|]; [|discriminate]. cbn [res_bind] in E.
    set (pi := if String.eqb nm "a"
               then match a1 !! "name" with
                    | Some name_ =>
                        if startswith (strip (flat_map node_text cs)) (u "Page")
                        then name_ else page
                    | None => page
                    end
               else page) in E.
    set (a2 := if negb (String.eqb nm "br") then <["page" := pi]> a1 else a1) in E.
    destruct (map_state preprocess_node pi cs) as [[cs1 p2]|] eqn:E2; [|discriminate].
    cbn [res_bind fst snd] in E. injection E as <- <-.
    assert (Ht : flat_map node_text cs1 = flat_map node_text cs).
    { refine (proj2 (map_state_outline cs _ _ _ _ E2)).
      apply Forall_forall. intros n _. apply preprocess_node_outline. }
    assert (Hname : a2 !! "name" = a1 !! "name").
    { unfold a2. destruct (negb (String.eqb nm "br")); [|reflexivity].
      apply lookup_insert_ne. discriminate. }
    assert (Hmark : default page (page_marker (mkTag nm a2 cs1 up)) = pi).
    { unfold page_marker, text, get. cbn [name contents attrs].
      rewrite Ht, Hname. unfold pi.
      destruct (String.eqb nm "a"); [|reflexivity]. cbn [andb].
      destruct (startswith (strip (flat_map node_text cs)) (u "Page"));
        destruct (a1 !! "name"); reflexivity. }
    cbn [tags_from pages_follow page_after]. rewrite Hmark.
    destruct (map_state_pages cs IH _ _ _ E2 (Tag nm a2 cs1 :: up)) as [Hf Ha].
    split; [split; [|exact Hf]|exact Ha].
    intros Hbr. unfold get. cbn [name attrs] in *. unfold a2.
    destruct (String.eqb_spec nm "br"); [contradiction|]. cbn [negb].
    apply lookup_insert_eq.
Qed.

(** X4: After preprocessing every tag other than a line break carries a [page]
    attribute: the [name] of the last page marker (a link with a name
    whose text starts with "Page") up to and including the tag in document
    order, and "0" before the first marker. *)
Theorem preprocess_soup_assigns_pages (soup soup' : tag) :
  preprocess_soup soup = Ok soup' ->
  pages_follow (u "0") (descendants soup').
Proof.
  unfold preprocess_soup. intros E.
  destruct (map_state preprocess_node (u "0") (contents soup)) as [[cs1 p]|] eqn:E1;
    [|discriminate].
  cbn [res_bind fst] in E. injection E as <-.
  unfold descendants. cbn [contents].
  refine (proj1 (map_state_pages _ _ _ _ _ E1 _)).
  apply Forall_forall. intros n _. apply preprocess_node_pages.
Qed.

Lemma preprocess_soup_assigns_pages_witness :
  exists soup', preprocess_soup raw_paper = Ok soup'
                /\ pages_follow (u "0") (descendants soup')
                /\ map (fun t => get t "page") (descendants soup')
                   = [Some (u "0"); Some (u "1"); Some (u "1"); Some (u "1"); None].
Proof.
  destruct (preprocess_soup raw_paper) as [soup'|] eqn:E; [|vm_compute in E; discriminate].
  exists soup'. split; [reflexivity|].
  split; [exact (preprocess_soup_assigns_pages raw_paper soup' E)|].
  vm_compute in E. injection E as <-. reflexivity.
Defined.

(** *** Styles *)

Lemma inline_style_removes (a a' : gmap string ustr) :
  inline_style a = Ok a' -> a' !! "style" = None \/ a' !! "style" = Some [].
Proof.
  unfold inline_style. destruct (a !! "style") as [[|c s]|] eqn:Ha.
  - intros [= <-]. auto.
  - destruct (style_kv_obj (Some (c :: s))) as [d|]; [|discriminate].
    cbn [res_bind]. intros [= <-]. left. apply lookup_delete_eq.
  - intros [= <-]. auto.
Qed.

Lemma inline_style_raise (a : gmap string ustr) e :
  inline_style a = Raise e -> e = ValueError \/ e = PlainException.
Proof.
  unfold inline_style. destruct (a !! "style") as [[|c s]|]; try discriminate.
  destruct (style_kv_obj (Some (c :: s))) as [d|e'] eqn:E; [discriminate|].
  cbn [res_bind]. intros [= <-].
  change (style_kv_obj (Some (c :: s)))
    with (let? d := style_pairs [] (declarations (c :: s)) in Ok (Some d))%res in E.
  destruct (style_pairs [] (declarations (c :: s))) as [d|e''] eqn:E'; [discriminate|].
  injection E as <-. eapply style_pairs_raise; eauto.
Qed.

Lemma map_state_styles (cs : list node) :
  Forall (fun n => forall page,
            match preprocess_node page n with
            | Ok (n', _) =>
                forall up, Forall (fun t => get t "style" = None \/ get t "style" = Some [])
                             (tags_from up n')
            | Raise e => e = ValueError \/ e = PlainException
            end) cs ->
  forall page,
    match map_state preprocess_node page cs with
    | Ok (cs', _) =>
        forall up, Forall (fun t => get t "style" = None \/ get t "style" = Some [])
                     (flat_map (tags_from up) cs')
    | Raise e => e = ValueError \/ e = PlainException
    end.
Proof.
  intros H. induction H as [|c cs Hc _ IH]; intros page.
  - cbn [map_state]. intros up. constructor.
  - cbn [map_state]. specialize (Hc page).
    destruct (preprocess_node page c) as [[c1 p1]|]; [|exact Hc].
    cbn [res_bind fst snd]. specialize (IH p1).
    destruct (map_state preprocess_node p1 cs) as [[cs1 p2]|]; [|exact IH].
    cbn [res_bind fst snd]. intros up. cbn [flat_map].
    apply Forall_app. split; [apply Hc|apply IH].
Qed.

Lemma preprocess_node_styles (n : node) : forall page,
  match preprocess_node page n with
  | Ok (n', _) =>
      forall up, Forall (fun t => get t "style" = None \/ get t "style" = Some [])
                   (tags_from up n')
  | Raise e => e = ValueError \/ e = PlainException
  end.
Proof.
  induction n as [s|nm a cs IH] using node_nested_ind; intros page.
  - cbn [preprocess_node]. intros up. constructor.
  - rewrite preprocess_node_tag.
    destruct (inline_style a) as [a1|e] eqn:Ea; [|eapply inline_style_raise; eauto].
    cbn [res_bind].
    match goal with
    | |- context [map_state preprocess_node ?p cs] =>
        pose proof (map_state_styles cs IH p) as Hcs;
        destruct (map_state preprocess_node p cs) as [[cs1 p2]|]; [|exact Hcs]
    end.
    cbn [res_bind fst snd]. intros up. cbn [tags_from]. constructor; [|apply Hcs].
    unfold get. cbn [attrs].
    apply inline_style_removes in Ea.
    destruct (negb (String.eqb nm "br")); [|exact Ea].
    rewrite lookup_insert_ne by discriminate. exact Ea.
Qed.

(** X5: Preprocessing either inlines every style, after which no tag keeps a
    non-empty [style] attribute, or fails on the first style that
    [style_kv_obj] refuses, with its [ValueError] or plain exception. *)
Theorem preprocess_soup_inlines_styles (soup : tag) :
  match preprocess_soup soup with
  | Ok soup' =>
      Forall (fun t => get t "style" = None \/ get t "style" = Some [])
        (descendants soup')
  | Raise e => e = ValueError \/ e = PlainException
  end.
Proof.
  unfold preprocess_soup.
  pose proof (map_state_styles (contents soup)
                (proj2 (Forall_forall _ _) (fun n _ => preprocess_node_styles n))
                (u "0")) as H.
  destruct (map_state preprocess_node (u "0") (contents soup)) as [[cs1 p]|]; [|exact H].
  cbn [res_bind fst]. unfold descendants. cbn [contents]. apply H.
Qed.

(** ** Normalised text *)

Lemma is_ws_isspace (c : N) : is_ws c = true -> py_isspace c = true.
Proof.
  unfold is_ws, py_isspace, in_ranges. cbn [existsb app _RE_SPACE fst snd].
  intros H. rewrite ?orb_true_iff, ?andb_true_iff, ?N.leb_le in H.
  rewrite ?orb_true_iff, ?andb_true_iff, ?N.leb_le.
  destruct H as [H|[H|[H|[H|[H|[H|[H|[H|H]]]]]]]]; try discriminate; lia.
Qed.

Lemma collapse_run (run rest : ustr) :
  Forall (fun c => is_ws c = true) run ->
  match rest with [] => True | c :: _ => is_ws c = false end ->
  collapse_spaces true (run ++ rest) = collapse_spaces false rest.
Proof.
  intros Hrun Hrest. induction Hrun as [|c run Hc _ IH].
  - destruct rest as [|d rest]; [reflexivity|]. cbn [app collapse_spaces].
    rewrite Hrest. reflexivity.
  - cbn [app collapse_spaces]. rewrite Hc. exact IH.
Qed.

(** A text splits into its leading run of white space and the rest. *)
Lemma leading_run (s : ustr) :
  exists run rest, s = run ++ rest /\ Forall (fun c => is_ws c = true) run
                   /\ match rest with [] => True | c :: _ => is_ws c = false end.
Proof.
  induction s as [|c s (run & rest & -> & Hrun & Hrest)].
  - exists [], []. repeat split. constructor.
  - destruct (is_ws c) eqn:E.
    + exists (c :: run), rest. repeat split; [constructor; assumption|assumption].
    + exists [], (c :: run ++ rest). repeat split; [constructor|exact E].
Qed.

Lemma whitespace_no_match {A} (c : N) (s : ustr) (pos : nat) (k : nat -> ustr -> option A) :
  is_ws c = false -> re_exec RE_WHITESPACE pos (c :: s) k = None.
Proof.
  intros Hc. unfold RE_WHITESPACE. rewrite re_exec_plus, plus_loop_S.
  cbn [re_exec]. fold (is_ws c). rewrite Hc. reflexivity.
Qed.

Lemma re_sub_whitespace (fuel : nat) : forall (pos : nat) (s : ustr),
  (length s < fuel)%nat ->
  re_sub_from fuel RE_WHITESPACE (u " ") pos s = collapse_spaces false s.
Proof.
  induction fuel as [|fuel IH]; intros pos s Hlen; [lia|].
  destruct s as [|c s]; [reflexivity|]. cbn [length] in Hlen.
  destruct (is_ws c) eqn:Hc.
  - destruct (leading_run s) as (run & rest & -> & Hrun & Hrest).
    assert (E : re_exec RE_WHITESPACE pos ((c :: run) ++ rest)
                  (fun pos' rest' => Some (pos', rest'))
                = Some ((pos + length (c :: run))%nat, rest)).
    { unfold RE_WHITESPACE.
      apply (plus_set_takes_run _ (fun pos' rest' => Some (pos', rest')) rest);
        [discriminate|exact Hrest|discriminate|].
      constructor; assumption. }
    cbn [app] in E. cbn [re_sub_from]. rewrite E.
    replace (pos <? pos + length (c :: run))%nat with true
      by (symmetry; apply Nat.ltb_lt; simpl; lia).
    rewrite IH by (rewrite length_app in Hlen; lia).
    cbn [collapse_spaces]. rewrite Hc, (collapse_run run rest Hrun Hrest). reflexivity.
  - cbn [re_sub_from]. rewrite (whitespace_no_match c s pos _ Hc).
    rewrite IH by lia. cbn [collapse_spaces]. rewrite Hc. reflexivity.
Qed.

Lemma normalize_str_collapse (content : ustr) :
  normalize_str content = collapse_spaces false (strip content).
Proof. unfold normalize_str, re_sub. apply re_sub_whitespace. lia. Qed.

Lemma lstrip_head (s : ustr) :
  match lstrip s with [] => True | c :: _ => py_isspace c = false end.
Proof.
  induction s as [|c s IH]; [exact I|]. cbn [lstrip].
  destruct (py_isspace c) eqn:E; [exact IH|exact E].
Qed.

Lemma lstrip_fixed (s : ustr) :
  match s with [] => True | c :: _ => py_isspace c = false end -> lstrip s = s.
Proof. destruct s as [|c s]; [reflexivity|]. cbn [lstrip]. intros ->. reflexivity. Qed.

Lemma lstrip_snoc (l : ustr) (c : N) :
  py_isspace c = false -> exists l', lstrip (l ++ [c]) = l' ++ [c].
Proof.
  intros Hc. induction l as [|d l [l' IH]].
  - exists []. cbn [app lstrip]. rewrite Hc. reflexivity.
  - cbn [app lstrip]. destruct (py_isspace d).
    + exists l'. exact IH.
    + exists (d :: l). reflexivity.
Qed.

Lemma strip_trimmed (s : ustr) : trimmed (strip s).
Proof.
  unfold trimmed, strip, rstrip. rewrite rev_involutive. split; [|apply lstrip_head].
  pose proof (lstrip_head s) as Hh. destruct (lstrip s) as [|c t]; [exact I|].
  cbn [rev]. destruct (lstrip_snoc (rev t) c Hh) as [l' ->].
  rewrite rev_app_distr. exact Hh.
Qed.

Lemma trimmed_strip (s : ustr) : trimmed s -> strip s = s.
Proof.
  intros [Hh Hl]. unfold strip, rstrip.
  rewrite (lstrip_fixed s Hh), (lstrip_fixed (rev s) Hl). apply rev_involutive.
Qed.

Lemma collapse_only_spaces (s : ustr) : forall b,
  Forall (fun c => is_ws c = true -> c = 0x20%N) (collapse_spaces b s).
Proof.
  induction s as [|c s IH]; intros b; [constructor|]. cbn [collapse_spaces].
  destruct (is_ws c) eqn:E.
  - destruct b; [apply IH|]. constructor; [reflexivity|apply IH].
  - constructor; [congruence|apply IH].
Qed.

Lemma collapse_in_run_head (s : ustr) :
  match collapse_spaces true s with [] => True | c :: _ => is_ws c = false end.
Proof.
  induction s as [|c s IH]; [exact I|]. cbn [collapse_spaces].
  destruct (is_ws c) eqn:E; [exact IH|exact E].
Qed.

Lemma single_spaced_cons (c d : N) (r : ustr) :
  single_spaced (c :: d :: r) = negb (is_ws c && is_ws d) && single_spaced (d :: r).
Proof. reflexivity. Qed.

Lemma collapse_single_spaced (s : ustr) : forall b,
  single_spaced (collapse_spaces b s) = true.
Proof.
  induction s as [|c s IH]; intros b; [reflexivity|]. cbn [collapse_spaces].
  destruct (is_ws c) eqn:E.
  - destruct b; [apply IH|].
    pose proof (collapse_in_run_head s) as Hh. pose proof (IH true) as Hs.
    destruct (collapse_spaces true s) as [|d r]; [reflexivity|].
    rewrite single_spaced_cons, Hh, andb_false_r, Hs. reflexivity.
  - pose proof (IH false) as Hs.
    destruct (collapse_spaces false s) as [|d r]; [reflexivity|].
    rewrite single_spaced_cons, E, Hs. reflexivity.
Qed.

Lemma collapse_snoc (l : ustr) (d : N) : forall b,
  is_ws d = false -> collapse_spaces b (l ++ [d]) = collapse_spaces b l ++ [d].
Proof.
  intros b Hd. revert b. induction l as [|c l IH]; intros b.
  - cbn [app collapse_spaces]. rewrite Hd. reflexivity.
  - cbn [app collapse_spaces]. destruct (is_ws c); [destruct b|]; rewrite IH; reflexivity.
Qed.

Lemma not_space_not_ws (c : N) : py_isspace c = false -> is_ws c = false.
Proof.
  intros H. destruct (is_ws c) eqn:E; [|reflexivity].
  apply is_ws_isspace in E. congruence.
Qed.

Lemma collapse_trimmed (s : ustr) : trimmed s -> trimmed (collapse_spaces false s).
Proof.
  intros [Hh Hl]. split.
  - destruct s as [|c s]; [exact I|]. cbn [collapse_spaces].
    rewrite (not_space_not_ws c Hh). exact Hh.
  - rewrite <- (rev_involutive s). destruct (rev s) as [|d t]; [exact I|].
    cbn [rev]. rewrite collapse_snoc by (apply not_space_not_ws; exact Hl).
    rewrite rev_app_distr. exact Hl.
Qed.

Lemma collapse_idempotent (s : ustr) :
  collapse_spaces false (collapse_spaces false s) = collapse_spaces false s
  /\ collapse_spaces true (collapse_spaces true s) = collapse_spaces true s.
Proof.
  induction s as [|c s [IHf IHt]]; [split; reflexivity|].
  cbn [collapse_spaces]. destruct (is_ws c) eqn:E.
  - split; [|exact IHt]. cbn [collapse_spaces].
    change (is_ws 32) with true. cbn iota. rewrite IHt. reflexivity.
  - cbn [collapse_spaces]. rewrite E, IHf. split; reflexivity.
Qed.

Lemma collapse_without_ws (s : ustr) :
  Forall (fun c => is_ws c = false) s -> forall b, collapse_spaces b s = s.
Proof.
  intros H. induction H as [|c s Hc _ IH]; intros b; [reflexivity|].
  cbn [collapse_spaces]. rewrite Hc, IH. reflexivity.
Qed.

(** X6: [normalize_str] trims the text and puts one space for every run of
    line breaks, tabs and the space characters of [_RE_SPACE]: in what it
    returns the only such character is the plain space, no two of them are
    neighbours, and none is first or last. *)
Theorem normalize_str_single_spaces (content : ustr) :
  normalize_str content = collapse_spaces false (strip content)
  /\ Forall (fun c => is_ws c = true -> c = 0x20%N) (normalize_str content)
  /\ single_spaced (normalize_str content) = true
  /\ trimmed (normalize_str content).
Proof.
  rewrite normalize_str_collapse. split; [reflexivity|].
  split; [apply collapse_only_spaces|].
  split; [apply collapse_single_spaced|].
  apply collapse_trimmed, strip_trimmed.
Qed.

(** X7: Normalising twice is normalising once, and a trimmed text without
    white space of the class is left as it is. *)
Theorem normalize_str_idempotent (content : ustr) :
  normalize_str (normalize_str content) = normalize_str content
  /\ (trimmed content -> Forall (fun c => is_ws c = false) content ->
      normalize_str content = content).
Proof.
  split.
  - rewrite !normalize_str_collapse.
    rewrite (trimmed_strip (collapse_spaces false (strip content)))
      by apply collapse_trimmed, strip_trimmed.
    apply collapse_idempotent.
  - intros Ht Hw. rewrite normalize_str_collapse, (trimmed_strip _ Ht).
    apply collapse_without_ws. exact Hw.
Qed.

Lemma normalize_str_idempotent_witness :
  normalize_str (u "Algorithms") = u "Algorithms".
Proof.
  apply (proj2 (normalize_str_idempotent (u "Algorithms"))).
  - split; reflexivity.
  - repeat constructor.
Defined.

(** ** Outcomes of the resolver with [int] *)

Lemma resolved_with_ok (f : ustr -> res Z) (key : string) (line : list tag) (r : pyval) :
  resolved (Some (cast_with f)) key line = Ok r ->
  r = VNone \/ exists z, r = VInt z /\ z <> 0%Z.
Proof.
  induction line as [|t up IH]; cbn [resolved].
  - intros [= <-]. left. reflexivity.
  - destruct (get t key) as [v|]; [|exact IH]. unfold cast_with.
    destruct (f v) as [z|e]; cbn [res_bind truthy]; [|discriminate].
    destruct (Z.eqb_spec z 0) as [->|Hz]; cbn [negb]; [exact IH|].
    intros [= <-]. right. exists z. auto.
Qed.

Lemma resolved_with_raise (f : ustr -> res Z) (key : string) (line : list tag) (e : exn) :
  (forall s e', f s = Raise e' -> e' = ValueError) ->
  resolved (Some (cast_with f)) key line = Raise e -> e = ValueError.
Proof.
  intros Hf. induction line as [|t up IH]; cbn [resolved]; [discriminate|].
  destruct (get t key) as [v|]; [|exact IH]. unfold cast_with.
  destruct (f v) as [z|e'] eqn:Ef; cbn [res_bind truthy].
  - destruct (negb (z =? 0)%Z); [discriminate|exact IH].
  - intros [= <-]. exact (Hf _ _ Ef).
Qed.

(** X8: for the attributes the module resolves and a cast that reads an
    integer and refuses with [ValueError] only, as [int] does on text,
    [tag_value] gives [None] or a non-zero integer and raises [ValueError]
    only; the tag's own attribute decides when it reads as a non-zero
    integer or does not read as an integer at all, whatever the ancestors
    hold; [tag_rect] raises [ValueError] only. *)
Theorem tag_value_int_outcomes (int_ : ustr -> res Z) (t : tag) (key : string) :
  (forall s e, int_ s = Raise e -> e = ValueError) ->
  In key RESOLVED_ATTRIBUTES ->
  (forall r, tag_value t key true (Some (cast_with int_)) = Ok r ->
     r = VNone \/ exists z, r = VInt z /\ z <> 0%Z)
  /\ (forall e, tag_value t key true (Some (cast_with int_)) = Raise e -> e = ValueError)
  /\ (forall v z, get t key = Some v -> int_ v = Ok z -> z <> 0%Z ->
        tag_value t key true (Some (cast_with int_)) = Ok (VInt z))
  /\ (forall v e, get t key = Some v -> int_ v = Raise e ->
        tag_value t key true (Some (cast_with int_)) = Raise ValueError)
  /\ (forall e, tag_rect t = Raise e -> e = ValueError).
Proof.
  intros Hint _.
  assert (Hres : tag_value t key true (Some (cast_with int_))
                 = resolved (Some (cast_with int_)) key (lineage t))
    by apply tag_value_loop_resolves.
  split; [intros r; rewrite Hres; apply resolved_with_ok|].
  split; [intros e; rewrite Hres; apply resolved_with_raise; exact Hint|].
  split.
  { intros v z Hv Hz Hnz. rewrite tag_value_step. unfold _tag_value, cast_with.
    rewrite Hv, Hz. cbn [res_bind truthy].
    destruct (Z.eqb_spec z 0); [contradiction|reflexivity]. }
  split.
  { intros v e Hv He. rewrite tag_value_step. unfold _tag_value, cast_with.
    rewrite Hv, He. cbn [res_bind]. rewrite (Hint _ _ He). reflexivity. }
  intros e. rewrite tag_rect_components.
  destruct (tag_value t "left" true (Some cast_int)) eqn:Ea; cbn [res_bind];
    [|intros [= <-]; eapply tag_value_int_raise; eauto].
  destruct (tag_value t "top" true (Some cast_int)) eqn:Eb; cbn [res_bind];
    [|intros [= <-]; eapply tag_value_int_raise; eauto].
  destruct (tag_value t "width" true (Some cast_int)) eqn:Ec; cbn [res_bind];
    [|intros [= <-]; eapply tag_value_int_raise; eauto].
  destruct (tag_value t "height" true (Some cast_int)) eqn:Ed; cbn [res_bind];
    [|intros [= <-]; eapply tag_value_int_raise; eauto].
  discriminate.
Qed.

Lemma tag_value_int_outcomes_witness :
  tag_value shielded_span "top" true (Some cast_int) = Ok (VInt 40)
  /\ tag_value fractional_span "top" true (Some cast_int) = Raise ValueError.
Proof.
  split.
  - apply (proj1 (proj2 (proj2
             (tag_value_int_outcomes py_int shielded_span "top" py_int_raise
                ltac:(right; left; reflexivity)))) (u "40"));
      [reflexivity|reflexivity|discriminate].
  - apply (proj1 (proj2 (proj2 (proj2
             (tag_value_int_outcomes py_int fractional_span "top" py_int_raise
                ltac:(right; left; reflexivity))))) (u "4.5") ValueError); reflexivity.
Defined.

(** ** Outcomes of the title stage *)

(** X9: The title stage ends in one of three ways: it returns a text and
    stores a size of at least 15; it raises [InsufficientParser] because
    [is_title] is false on every tag; or it raises [ValueError] because the
    first tag on which [is_title] is not false is a span of page 1 whose
    [font-size] does not read as an integer, whatever follows it.  The
    context changes in the first case only. *)
Theorem find_title_outcomes (soup : tag) (ctx : context) :
  (exists t z, In t (descendants soup) /\ is_title t = Ok true /\ (15 <= z)%Z
               /\ find_title soup ctx
                  = (Ok (normalize_str (text t)), <["title-size" := VInt z]> ctx))
  \/ (Forall (fun x => is_title x = Ok false) (descendants soup)
      /\ find_title soup ctx = (Raise InsufficientParser, ctx))
  \/ (exists pre t post size,
        descendants soup = pre ++ t :: post
        /\ Forall (fun x => is_title x = Ok false) pre
        /\ is_span_on_page_1 t = true /\ get t "font-size" = Some size
        /\ py_int size = Raise ValueError
        /\ find_title soup ctx = (Raise ValueError, ctx)).
Proof.
  rewrite find_title_unfold.
  destruct (find_first_cases is_title (descendants soup))
    as [(pre & t & post & Hd & Hpre & Ht & Hr)
       |[[Hall Hr]|(pre & t & post & e & Hd & Hpre & Ht & Hr)]]; rewrite Hr.
  - left. pose proof Ht as Ht'.
    apply is_title_true in Ht' as (_ & _ & size & z & Hs & Hz & Hle).
    exists t, z. rewrite (title_size_resolves _ _ _ Hs Hz Hle).
    split; [rewrite Hd; apply in_or_app; right; left; reflexivity|].
    unfold MIN_TITLE_FONT_SIZE in Hle. auto.
  - right. left. auto.
  - right. right. unfold is_title in Ht. rewrite guard_is_span in Ht.
    destruct (is_span_on_page_1 t) eqn:Es; [|discriminate]. cbn [negb] in Ht.
    destruct (get t "font-size") as [size|] eqn:Hs; [|discriminate].
    destruct (py_int size) as [z|e'] eqn:Hz; cbn [res_bind] in Ht.
    + destruct (z <? MIN_TITLE_FONT_SIZE)%Z; discriminate.
    + injection Ht as <-. pose proof (py_int_raise _ _ Hz) as ->.
      exists pre, t, post, size. auto 7.
Qed.

(** ** The result of the dates stage *)

Lemma dict_set_not_nil (k : string) (v : pyval) (d : list (string * pyval)) :
  dict_set k v d <> [].
Proof. destruct d as [|[k' v'] d]; cbn [dict_set]; [|destruct (String.eqb k' k)]; discriminate. Qed.

Lemma dict_set_in (k : string) (v : pyval) (d : list (string * pyval)) (k' : string) (v' : pyval) :
  In (k', v') (dict_set k v d) -> (k' = k /\ v' = v) \/ In (k', v') d.
Proof.
  induction d as [|[k0 v0] d IH]; cbn [dict_set].
  - intros [[= <- <-]|[]]. left. auto.
  - destruct (String.eqb k0 k).
    + intros [[= <- <-]|H]; [left; auto|right; right; exact H].
    + intros [H|H]; [right; left; exact H|].
      destruct (IH H) as [H'|H']; [left; exact H'|right; right; exact H'].
Qed.

Lemma dict_set_key_in (k : string) (v : pyval) (d : list (string * pyval)) (x : string) :
  In x (map fst (dict_set k v d)) -> x = k \/ In x (map fst d).
Proof.
  intros H. apply in_map_iff in H as ([k' v'] & <- & H).
  apply dict_set_in in H as [[-> _]|H]; [left; reflexivity|].
  right. apply in_map_iff. exists (k', v'). auto.
Qed.

Lemma dict_set_nodup (k : string) (v : pyval) (d : list (string * pyval)) :
  List.NoDup (map fst d) -> List.NoDup (map fst (dict_set k v d)).
Proof.
  induction d as [|[k0 v0] d IH]; cbn [dict_set map fst].
  - intros _. constructor; [intros []|constructor].
  - intros H. inversion H as [|? ? Hn Hd]; subst.
    destruct (String.eqb_spec k0 k) as [->|Hne]; cbn [map fst].
    + constructor; assumption.
    + constructor; [|apply IH; exact Hd].
      intros Hin. apply dict_set_key_in in Hin as [->|Hin]; [apply Hne; reflexivity|].
      apply Hn. exact Hin.
Qed.

Lemma dict_get_set (k : string) (v : pyval) (d : list (string * pyval)) (k' : string) :
  dict_get k' (dict_set k v d) = if String.eqb k k' then v else dict_get k' d.
Proof.
  unfold dict_get. induction d as [|[k0 v0] d IH]; cbn [dict_set dict_get_with].
  - reflexivity.
  - destruct (String.eqb_spec k0 k) as [->|Hne]; cbn [dict_get_with].
    + destruct (String.eqb k k'); reflexivity.
    + rewrite IH. destruct (String.eqb_spec k0 k') as [->|Hne'].
      * destruct (String.eqb_spec k k') as [->|_]; [contradiction Hne; reflexivity|reflexivity].
      * reflexivity.
Qed.

Lemma date_value_trimmed (c v : ustr) : date_value c = Some v -> trimmed v.
Proof.
  unfold date_value. destruct (after_first 58 c); [|discriminate].
  intros [= <-]. apply strip_trimmed.
Qed.

Lemma dates_of_segments_entries (cs : list ustr) :
  forall (result d : list (string * pyval)),
  dates_of_segments result cs = Some d ->
  List.NoDup (map fst result) ->
  (forall k v, In (k, v) result -> In k PHASES /\ exists s, v = VStr s /\ trimmed s) ->
  (result <> [] \/ cs <> []) ->
  dates_shape d.
Proof.
  induction cs as [|c cs IH]; intros result d; cbn [dates_of_segments].
  - intros [= <-] Hn He [Hr|Hr]; [|contradiction Hr; reflexivity].
    split; [exact Hr|]. split; assumption.
  - destruct (date_value c) as [v|] eqn:Hv; [|discriminate].
    intros Hd Hn He _. apply (IH _ _ Hd).
    + apply dict_set_nodup. exact Hn.
    + intros k w Hin. apply dict_set_in in Hin as [[-> ->]|Hin]; [|apply He; exact Hin].
      split; [apply phase_of_range|]. exists v. split; [reflexivity|].
      eapply date_value_trimmed. exact Hv.
    + left. apply dict_set_not_nil.
Qed.

Lemma parse_dates_shape (content : ustr) (d : list (string * pyval)) :
  parse_dates content = Ok d -> dates_shape d.
Proof.
  rewrite parse_dates_segments.
  destruct (dates_of_segments [] (map strip (split 47 content))) as [d'|] eqn:E;
    [|discriminate].
  intros [= <-]. apply (dates_of_segments_entries _ _ _ E).
  - constructor.
  - intros k v [].
  - right. intros Hm. apply map_eq_nil in Hm. exact (split_not_nil _ _ Hm).
Qed.

Lemma parse_dates_raise (content : ustr) (e : exn) :
  parse_dates content = Raise e -> e = IndexError.
Proof.
  rewrite parse_dates_segments.
  destruct (dates_of_segments [] (map strip (split 47 content))); [discriminate|].
  intros [= <-]. reflexivity.
Qed.

Lemma find_snoc {A : Type} (f : A -> bool) (l : list A) (a : A) :
  find f (l ++ [a]) = match find f l with
                      | Some x => Some x
                      | None => if f a then Some a else None
                      end.
Proof.
  induction l as [|x l IH]; cbn [find app]; [reflexivity|].
  destruct (f x); [reflexivity|exact IH].
Qed.

Lemma dates_of_segments_lookup (phase : string) (cs : list ustr) :
  forall (result d : list (string * pyval)),
  dates_of_segments result cs = Some d ->
  match last_of_phase phase cs with
  | Some c => exists v, date_value c = Some v /\ dict_get phase d = VStr v
  | None => dict_get phase d = dict_get phase result
  end.
Proof.
  unfold last_of_phase.
  induction cs as [|c cs IH]; intros result d; cbn [dates_of_segments rev].
  - intros [= <-]. reflexivity.
  - destruct (date_value c) as [v|] eqn:Hv; [|discriminate].
    intros Hd. specialize (IH _ _ Hd). rewrite find_snoc.
    destruct (find (fun c0 => String.eqb (phase_of c0) phase) (rev cs)) as [c'|];
      [exact IH|].
    rewrite IH, dict_get_set.
    destruct (String.eqb (phase_of c) phase); [|reflexivity].
    exists v. auto.
Qed.

(** X10: Each phase of the result of [parse_dates] holds the date of the last
    segment filed under it, a segment that starts with none of the three
    words counting as "published"; a phase with no segment is absent. *)
Theorem parse_dates_last_segment_wins (content : ustr) (d : list (string * pyval))
    (phase : string) :
  parse_dates content = Ok d ->
  match last_of_phase phase (map strip (split 47 content)) with
  | Some c => exists v, date_value c = Some v /\ dict_get phase d = VStr v
  | None => dict_get phase d = VNone
  end.
Proof.
  rewrite parse_dates_segments.
  destruct (dates_of_segments [] (map strip (split 47 content))) as [d'|] eqn:E;
    [|discriminate].
  intros [= <-]. exact (dates_of_segments_lookup phase _ _ _ E).
Qed.

Lemma parse_dates_last_segment_wins_witness :
  exists d, parse_dates republished_line = Ok d
    /\ dict_get "published" d = VStr (u "3 July 2008")
    /\ dict_get "accepted" d = VNone.
Proof.
  destruct (parse_dates republished_line) as [d|] eqn:E; [|vm_compute in E; discriminate].
  exists d. split; [reflexivity|].
  pose proof (parse_dates_last_segment_wins republished_line d "published" E) as Hp.
  pose proof (parse_dates_last_segment_wins republished_line d "accepted" E) as Ha.
  vm_compute in Hp, Ha. destruct Hp as (v & [= <-] & Hp).
  split; [exact Hp|exact Ha].
Defined.

(** X11: The dates stage ends in one of four ways.  With no span of page 1
    whose text starts with a date keyword it raises [InsufficientParser]
    and leaves the context alone.  Otherwise the first such span decides:
    the stage returns a dictionary of dates in the shape [dates_shape] and
    the context holds the span's [top] and [font-size], each [None] or a
    non-zero integer; or it raises [ValueError] (a position that is not an
    integer) or [IndexError] (a segment without a colon).  It raises
    nothing else; in particular [next] always finds its line. *)
Theorem find_dates_outcomes (soup : tag) (ctx : context) :
  (Forall (fun s => date_keyword s = None)
     (List.filter is_span_on_page_1 (descendants soup))
   /\ find_dates soup ctx = (Raise InsufficientParser, ctx))
  \/ exists pre date post begin,
       List.filter is_span_on_page_1 (descendants soup) = pre ++ date :: post
       /\ Forall (fun s => date_keyword s = None) pre
       /\ date_keyword date = Some begin
       /\ ((exists d top size,
              find_dates soup ctx
              = (Ok d, <["date-size" := size]> (<["date-start" := top]> ctx))
              /\ parse_dates (first_line (strip (text date))) = Ok d
              /\ dates_shape d
              /\ tag_value date "top" true (Some cast_int) = Ok top
              /\ tag_value date "font-size" true (Some cast_int) = Ok size
              /\ (top = VNone \/ exists z, top = VInt z /\ z <> 0%Z)
              /\ (size = VNone \/ exists z, size = VInt z /\ z <> 0%Z))
           \/ (exists ctx', find_dates soup ctx = (Raise ValueError, ctx'))
           \/ (exists ctx', find_dates soup ctx = (Raise IndexError, ctx'))).
Proof.
  destruct (find_dates_cases soup ctx) as [H|(pre & date & post & begin & Hs & Hpre & Hk & Hr)];
    [left; exact H|].
  right. exists pre, date, post, begin.
  split; [exact Hs|]. split; [exact Hpre|]. split; [exact Hk|].
  rewrite Hr, (dates_at_keyword _ _ _ Hk).
  destruct (tag_value date "top" true (Some cast_int)) as [top|e] eqn:Et.
  2:{ right. left. exists ctx. rewrite (tag_value_int_raise _ _ _ Et). reflexivity. }
  destruct (tag_value date "font-size" true (Some cast_int)) as [size|e] eqn:Ez.
  2:{ right. left. eexists. rewrite (tag_value_int_raise _ _ _ Ez). reflexivity. }
  destruct (parse_dates (first_line (strip (text date)))) as [d|e] eqn:Ep.
  - left. exists d, top, size.
    split; [reflexivity|]. split; [reflexivity|].
    split; [exact (parse_dates_shape _ _ Ep)|].
    split; [reflexivity|]. split; [reflexivity|].
    split; eapply tag_value_int_ok; eassumption.
  - right. right. eexists. rewrite (parse_dates_raise _ _ Ep). reflexivity.
Qed.

(** ** The result of the authors stage *)

Lemma re_exec_map {A B} (f : A -> B) (r : regex) :
  forall (pos : nat) (s : ustr) (k : nat -> ustr -> option A),
    re_exec r pos s (fun p rest => option_map f (k p rest))
    = option_map f (re_exec r pos s k).
Proof.
  induction r as [rs|a IHa b IHb|a IHa b IHb|a IHa|a IHa|a IHa|a IHa|]; intros pos s k.
  - cbn [re_exec]. destruct s as [|c s']; [reflexivity|].
    destruct (in_ranges c rs); reflexivity.
  - cbn [re_exec]. rewrite <- IHa. apply re_exec_ext. intros v rest _. apply IHb.
  - cbn [re_exec]. rewrite IHa, IHb.
    destruct (re_exec a pos s k); reflexivity.
  - cbn [re_exec]. rewrite IHa. destruct (re_exec a pos s k); reflexivity.
  - rewrite !re_exec_plus. generalize (S (length s)) as fuel. intros fuel.
    revert pos s. induction fuel as [|fuel IHf]; intros pos s; [reflexivity|].
    rewrite !plus_loop_S, <- IHa. apply re_exec_ext. intros v rest _.
    destruct (pos <? pos + length v)%nat; [|reflexivity].
    rewrite IHf. destruct (plus_loop (re_exec a) k fuel (pos + length v)%nat rest); reflexivity.
  - cbn [re_exec]. apply IHa.
  - cbn [re_exec]. apply IHa.
  - cbn [re_exec]. destruct (pos =? 0)%nat; reflexivity.
Qed.

(** A text the pattern matches at its start is found by [search], at
    offset 0 and with the same end. *)
Lemma re_match_search (r : regex) (s : ustr) (m : nat) :
  re_match r s = Some m -> re_search r s = Some (0%nat, m).
Proof.
  unfold re_match, re_search. intros H.
  destruct s as [|c s']; cbn [re_search_from];
    rewrite (re_exec_map (fun p => (0%nat, p)) r 0 _ (fun pos' _ => Some pos')), H;
    reflexivity.
Qed.

Lemma find_all_defined (f : tag -> res bool) (l : list tag) :
  Forall (fun t => exists b, f t = Ok b) l ->
  find_all f l = Ok (List.filter (fun t => match f t with Ok true => true | _ => false end) l).
Proof.
  induction 1 as [|t l [b Hb] _ IH]; [reflexivity|].
  cbn [find_all List.filter]. rewrite Hb, IH. cbn [res_bind]. destruct b; reflexivity.
Qed.

Lemma find_all_ok (f : tag -> res bool) (l : list tag) :
  forall cs, find_all f l = Ok cs ->
  cs = List.filter (fun t => match f t with Ok true => true | _ => false end) l.
Proof.
  induction l as [|t l IH]; intros cs; cbn [find_all List.filter].
  - intros [= <-]. reflexivity.
  - destruct (f t) as [b|]; cbn [res_bind]; [|discriminate].
    destruct (find_all f l) as [r|]; cbn [res_bind]; [|discriminate].
    intros [= <-]. rewrite (IH r eq_refl). destruct b; reflexivity.
Qed.

Lemma namelike_filter (ctx : context) (l : list tag) :
  List.filter (fun t => match (let? m := is_namelike t ctx in Ok (is_Some_b m))%res with
                        | Ok true => true
                        | _ => false
                        end) l
  = List.filter (namelike ctx) l.
Proof.
  induction l as [|t l IH]; [reflexivity|]. cbn [List.filter]. rewrite IH.
  unfold namelike. destruct (is_namelike t ctx) as [[m|]|]; reflexivity.
Qed.

Lemma is_namelike_match (t : tag) (ctx : context) (m : nat) :
  is_namelike t ctx = Ok (Some m) -> re_match RE_AUTHOR_NAME (strip (text t)) = Some m.
Proof.
  unfold is_namelike.
  destruct (negb (String.eqb (name t) "span") || negb (attr_is t "page" (u "1")));
    [discriminate|].
  destruct (tag_value t "top" true (Some cast_int)) as [top|]; cbn [res_bind];
    [|discriminate].
  destruct (if is_None top then Ok true
            else (let? date_start := ctx_get "date-start" ctx in py_gt top date_start)%res)
    as [[|]|]; cbn [res_bind]; try discriminate.
  destruct (tag_value t "font-size" true (Some cast_int)) as [size|]; cbn [res_bind];
    [|discriminate].
  match goal with |- (let? outside := ?e in _)%res = _ -> _ =>
    destruct e as [[|]|]; cbn [res_bind]; try discriminate end.
  destruct (length (strip (text t)) =? 0)%nat; [discriminate|].
  intros [= H]. exact H.
Qed.

Lemma find_authors_loop_candidates (ctx : context) (cs : list tag) :
  Forall (fun c => namelike ctx c = true) cs ->
  forall result,
    find_authors_loop result cs
    = Ok (result ++ map (fun c => skip_prefix (strip (text c))) cs).
Proof.
  induction 1 as [|c cs Hc _ IH]; intros result; cbn [find_authors_loop map].
  - rewrite app_nil_r. reflexivity.
  - unfold namelike in Hc.
    destruct (is_namelike c ctx) as [[m|]|] eqn:Hm; try discriminate.
    apply is_namelike_match in Hm.
    destruct (ustr_eqb (strip (text c)) [198%N]) eqn:Eae.
    { apply ustr_eqb_eq in Eae. rewrite Eae in Hm. vm_compute in Hm. discriminate. }
    rewrite (re_match_search _ _ _ Hm).
    change (3 <=? ngroups RE_AUTHOR_NAME)%nat with true. cbn iota.
    rewrite IH, <- app_assoc. reflexivity.
Qed.

Lemma forallb_defined (ctx : context) (l : list tag) :
  forallb (namelike_defined ctx) l = true ->
  Forall (fun t => exists m, is_namelike t ctx = Ok m) l.
Proof.
  induction l as [|t l IH]; cbn [forallb]; [constructor|].
  intros H. apply andb_true_iff in H as [Ht Hl]. constructor; [|apply IH; exact Hl].
  unfold namelike_defined in Ht. destruct (is_namelike t ctx) as [m|]; [|discriminate].
  exists m. reflexivity.
Qed.

(** X12: When [is_namelike] raises on no tag, the authors stage returns the
    trimmed texts of the tags it accepts, in document order and each with
    its leading separator cut, or raises [InsufficientParser] when it
    accepts none.  Every accepted tag gives an entry: the test for the
    ligature and the test on the number of groups never drop one, and the
    search never comes back empty. *)
Theorem find_authors_returns_candidates (soup : tag) (ctx : context) :
  Forall (fun t => exists m, is_namelike t ctx = Ok m) (descendants soup) ->
  find_authors soup ctx
  = match List.filter (namelike ctx) (descendants soup) with
    | [] => Raise InsufficientParser
    | cs => Ok (map (fun c => skip_prefix (strip (text c))) cs)
    end.
Proof.
  intros Hd. rewrite find_authors_unfold, find_all_defined.
  2:{ eapply List.Forall_impl; [|exact Hd]. intros t [m ->]. cbn [res_bind]. eauto. }
  rewrite namelike_filter. cbn [res_bind].
  rewrite (find_authors_loop_candidates ctx).
  2:{ apply List.Forall_forall. intros c Hc. apply filter_In in Hc as [_ Hc]. exact Hc. }
  cbn [app res_bind].
  destruct (List.filter (namelike ctx) (descendants soup)); reflexivity.
Qed.

Lemma find_authors_returns_candidates_witness :
  find_authors sample_paper sample_context = Ok [u "A. Author"].
Proof.
  rewrite (find_authors_returns_candidates sample_paper sample_context).
  - vm_compute. reflexivity.
  - apply forallb_defined. vm_compute. reflexivity.
Defined.

Lemma is_namelike_context (t : tag) (ctx : context) (m : nat) :
  is_namelike t ctx = Ok (Some m) ->
  exists date_start date_size title_size,
    ctx !! "date-start" = Some (VInt date_start)
    /\ ctx !! "date-size" = Some (VInt date_size)
    /\ ctx !! "title-size" = Some (VInt title_size)
    /\ (date_size + 2 <= title_size)%Z.
Proof.
  unfold is_namelike.
  destruct (negb (String.eqb (name t) "span") || negb (attr_is t "page" (u "1")));
    [discriminate|].
  destruct (tag_value t "top" true (Some cast_int)) as [top|]; cbn [res_bind];
    [|discriminate].
  destruct (is_None top); cbn [res_bind]; [discriminate|].
  destruct (ctx_get "date-start" ctx) as [ds|] eqn:Eds; cbn [res_bind]; [|discriminate].
  destruct (py_gt top ds) as [below|] eqn:Egt; cbn [res_bind]; [|discriminate].
  apply int_cmp_ok in Egt as (a & date_start & -> & -> & ->).
  destruct (a >? date_start)%Z; [discriminate|].
  destruct (tag_value t "font-size" true (Some cast_int)) as [size|]; cbn [res_bind];
    [|discriminate].
  destruct (is_None size); cbn [res_bind]; [discriminate|].
  destruct (ctx_get "date-size" ctx) as [dz|] eqn:Edz; cbn [res_bind]; [|discriminate].
  destruct (py_le size dz) as [small|] eqn:Ele; cbn [res_bind]; [|discriminate].
  apply int_cmp_ok in Ele as (b & date_size & -> & -> & ->).
  destruct (Z.leb_spec b date_size); cbn [res_bind]; [discriminate|].
  destruct (ctx_get "title-size" ctx) as [tz|] eqn:Etz; cbn [res_bind]; [|discriminate].
  destruct (py_ge (VInt b) tz) as [large|] eqn:Ege; cbn [res_bind]; [|discriminate].
  apply int_cmp_ok in Ege as (b' & title_size & [= <-] & -> & ->).
  destruct (Z.geb_spec b title_size); [discriminate|]. intros _.
  apply ctx_get_ok in Eds, Edz, Etz.
  exists date_start, date_size, title_size.
  split; [exact Eds|]. split; [exact Edz|]. split; [exact Etz|]. lia.
Qed.

(** X13: The authors stage returns a list only when the context holds integers
    under ["date-start"], ["date-size"] and ["title-size"] with at least one
    size strictly between the last two, and the list is then not empty.  A
    tag on which [is_namelike] raises, reached after tags on which it does
    not, makes the stage raise the same exception, whatever it accepted
    before. *)
Theorem find_authors_needs_both_stages (soup : tag) (ctx : context) :
  (forall l, find_authors soup ctx = Ok l ->
     l <> []
     /\ exists date_start date_size title_size,
          ctx !! "date-start" = Some (VInt date_start)
          /\ ctx !! "date-size" = Some (VInt date_size)
          /\ ctx !! "title-size" = Some (VInt title_size)
          /\ (date_size + 2 <= title_size)%Z)
  /\ (forall pre t post e,
        descendants soup = pre ++ t :: post ->
        Forall (fun x => exists m, is_namelike x ctx = Ok m) pre ->
        is_namelike t ctx = Raise e ->
        find_authors soup ctx = Raise e).
Proof.
  split.
  - intros l. rewrite find_authors_unfold.
    destruct (find_all _ (descendants soup)) as [cs|] eqn:Ea; cbn [res_bind];
      [|discriminate].
    apply find_all_ok in Ea. rewrite namelike_filter in Ea.
    rewrite (find_authors_loop_candidates ctx).
    2:{ subst cs. apply List.Forall_forall. intros c Hc.
        apply filter_In in Hc as [_ Hc]. exact Hc. }
    cbn [app res_bind].
    destruct cs as [|c cs]; [discriminate|]. cbn [map length Nat.ltb Nat.leb].
    intros [= <-]. split; [discriminate|].
    assert (Hc : In c (List.filter (namelike ctx) (descendants soup)))
      by (rewrite <- Ea; left; reflexivity).
    apply filter_In in Hc as [_ Hc]. unfold namelike in Hc.
    destruct (is_namelike c ctx) as [[m|]|] eqn:Hm; try discriminate.
    exact (is_namelike_context _ _ _ Hm).
  - intros pre t post e Hd Hpre Ht. rewrite find_authors_unfold, Hd.
    assert (Hr : find_all (fun t0 => let? m := is_namelike t0 ctx in Ok (is_Some_b m))%res
                   (pre ++ t :: post) = Raise e).
    { clear Hd. induction Hpre as [|x pre [m Hx] _ IH]; cbn [app find_all].
      - rewrite Ht. reflexivity.
      - rewrite Hx, IH. reflexivity. }
    rewrite Hr. reflexivity.
Qed.

Lemma find_authors_needs_both_stages_witness :
  [u "A. Author"] <> []
  /\ exists date_start date_size title_size,
       sample_context !! "date-start" = Some (VInt date_start)
       /\ sample_context !! "date-size" = Some (VInt date_size)
       /\ sample_context !! "title-size" = Some (VInt title_size)
       /\ (date_size + 2 <= title_size)%Z.
Proof.
  apply (proj1 (find_authors_needs_both_stages sample_paper sample_context)).
  vm_compute. reflexivity.
Defined.

(** ** What the flattener asks of the frame *)

Section FlattenerOutcomes.
Context {frame : Type} `{Pandas frame}.

(** X14: under a string name [store_recursive] makes, for any value however
    lists, tuples and mappings are nested in it, the assignments of
    [columns] in order and then stores the value in the record (a tuple as
    a list; nothing for [None] or row-only).  Every assignment is to the
    name or a column that continues it after the separator, and assigns an
    integer or a string.  The function raises only what an assignment to
    the frame raises: it returns when the frame accepts them all, and when
    one is refused the record is as before. *)
Theorem store_recursive_under_string_name (row pn sep n : string) (v : pyval) (b : bool)
    (st : frame * record) :
  store_recursive row pn (NStr n) v b sep st
  = (assign row (columns sep n v) ;;; if b then ret tt else store_field n v)%M st
  /\ Forall (fun cv => under sep n (fst cv) /\ scalar (snd cv)) (columns sep n v)
  /\ snd (snd (store_recursive row pn (NStr n) v b sep st))
     = match fst (store_recursive row pn (NStr n) v b sep st) with
       | Ok _ => if b then snd st
                 else match v with
                      | VNone => snd st
                      | _ => <[n := stored_form v]> (snd st)
                      end
       | Raise _ => snd st
       end
  /\ ((forall c x fr, In (c, x) (columns sep n v) -> fst (loc_set row c x fr) = Ok tt) ->
      fst (store_recursive row pn (NStr n) v b sep st) = Ok tt)
  /\ (forall e, fst (store_recursive row pn (NStr n) v b sep st) = Raise e ->
        exists c x fr, In (c, x) (columns sep n v) /\ fst (loc_set row c x fr) = Raise e).
Proof.
  split; [apply store_recursive_assigns|].
  split; [apply columns_under|].
  split; [apply store_recursive_record|].
  split; [apply store_recursive_accepted|].
  intros e. apply store_recursive_raise.
Qed.

(** *** A mapping under a tuple of names *)

Lemma dict_get_with_store (row pn sep entry : string) (d : list (string * pyval)) :
  dict_get_with (fun v => store_recursive row pn (NStr entry) v true sep) (ret tt) entry d
  = store_recursive row pn (NStr entry) (dict_get entry d) true sep.
Proof.
  unfold dict_get. induction d as [|[k v] d IH]; cbn [dict_get_with]; [reflexivity|].
  destruct (String.eqb k entry); [reflexivity|exact IH].
Qed.

Lemma store_names_assigns (row pn sep : string) (d : list (string * pyval)) (b : bool)
    (names : list string) :
  forall st : frame * record,
    store_recursive row pn (NTuple names) (VDict d) b sep st
    = for_each
        (fun k => assign row (columns sep k (dict_get k d)) ;;;
                  if b then ret tt else set_field k (dict_get k d))%M names st.
Proof.
  intros st. rewrite store_recursive_names. revert st.
  induction names as [|k names IH]; intros st; [reflexivity|].
  cbn [for_each]. apply bind_ext; [|intros _ st'; apply IH].
  intros st'. apply bind_ext; [|reflexivity].
  intros st''. rewrite dict_get_with_store, store_recursive_assigns. apply bind_ret_r.
Qed.

(** One name of the loop: the assignments for its value, then its field. *)
Lemma name_step (row sep k : string) (d : list (string * pyval)) (st : frame * record) :
  (exists fr1,
     (assign row (columns sep k (dict_get k d)) ;;; set_field k (dict_get k d))%M st
     = (Ok tt, (fr1, <[k := dict_get k d]> (snd st))))
  \/ (exists e st1,
        (assign row (columns sep k (dict_get k d)) ;;; set_field k (dict_get k d))%M st
        = (Raise e, st1)
        /\ snd st1 = snd st
        /\ exists c x fr, In (c, x) (columns sep k (dict_get k d))
                          /\ fst (loc_set row c x fr) = Raise e).
Proof.
  unfold bind.
  pose proof (assign_record row (columns sep k (dict_get k d)) st) as Hr.
  pose proof (assign_raise row (columns sep k (dict_get k d)) st) as He.
  destruct (assign row (columns sep k (dict_get k d)) st) as [[[]|e] [fr1 sd1]];
    cbn [fst snd] in Hr, He.
  - left. exists fr1. cbn [set_field modify fst snd]. rewrite Hr. reflexivity.
  - right. exists e, (fr1, sd1). split; [reflexivity|]. split; [exact Hr|].
    apply He. reflexivity.
Qed.

Lemma names_loop (row sep : string) (d : list (string * pyval)) (names : list string) :
  forall st : frame * record,
    let out := for_each
                 (fun k => assign row (columns sep k (dict_get k d)) ;;;
                           set_field k (dict_get k d))%M names st in
    (forall k, ~ In k names -> snd (snd out) !! k = snd st !! k)
    /\ (fst out = Ok tt -> forall k, In k names -> snd (snd out) !! k = Some (dict_get k d))
    /\ (forall e, fst out = Raise e ->
          exists k c x fr, In k names /\ In (c, x) (columns sep k (dict_get k d))
                           /\ fst (loc_set row c x fr) = Raise e).
Proof.
  induction names as [|k0 names IH]; intros st; cbv zeta.
  - cbn [for_each ret fst snd]. split; [reflexivity|]. split; [intros _ k []|discriminate].
  - cbn [for_each].
    destruct (name_step row sep k0 d st) as [[fr1 E]|(e & st1 & E & Hsd & Hraise)];
      [rewrite (bind_ok _ _ _ _ _ E)|rewrite (bind_raise _ _ _ _ _ E)].
    + specialize (IH (fr1, <[k0 := dict_get k0 d]> (snd st))). cbv zeta in IH.
      destruct IH as (Hout & Hin & Hr). cbn [snd] in Hout.
      split; [|split].
      * intros k Hk. rewrite Hout by (intros Hk'; apply Hk; right; exact Hk').
        apply lookup_insert_ne. intros ->. apply Hk. left. reflexivity.
      * intros Hok k Hk.
        destruct (in_dec string_dec k names) as [Hk'|Hk']; [exact (Hin Hok k Hk')|].
        destruct Hk as [->|Hk]; [|contradiction].
        rewrite (Hout k Hk'). apply lookup_insert_eq.
      * intros e He. destruct (Hr e He) as (k & c & x & fr & Hk & Hc & Hl).
        exists k, c, x, fr. split; [right; exact Hk|]. auto.
    + cbn [fst snd]. split; [intros k _; rewrite Hsd; reflexivity|].
      split; [discriminate|].
      intros e' [= <-]. destruct Hraise as (c & x & fr & Hc & Hl).
      exists k0, c, x, fr. split; [left; reflexivity|]. auto.
Qed.

(** X15: a mapping stored under a tuple of names is stored name by name, in
    the order of the tuple: the value the mapping has for the name is
    flattened row-only under the name (nothing is assigned for a name the
    mapping lacks, an integer or a string goes to the column of the name),
    then the record gets the name with that value, [None] if there is
    none.  Keys of the mapping that are not declared are not stored.  The
    function raises only what an assignment to the frame raises, and when
    it returns the record holds every declared name. *)
Theorem store_mapping_under_names (row pn sep : string) (names : list string)
    (d : list (string * pyval)) (st : frame * record) :
  store_recursive row pn (NTuple names) (VDict d) false sep st
  = for_each
      (fun k => assign row (columns sep k (dict_get k d)) ;;;
                set_field k (dict_get k d))%M names st
  /\ (forall k, dict_get k d = VNone -> columns sep k (dict_get k d) = [])
  /\ (forall k, scalar (dict_get k d) -> columns sep k (dict_get k d) = [(k, dict_get k d)])
  /\ (forall k, ~ In k names ->
        snd (snd (store_recursive row pn (NTuple names) (VDict d) false sep st)) !! k
        = snd st !! k)
  /\ (fst (store_recursive row pn (NTuple names) (VDict d) false sep st) = Ok tt ->
      forall k, In k names ->
        snd (snd (store_recursive row pn (NTuple names) (VDict d) false sep st)) !! k
        = Some (dict_get k d))
  /\ (accepts_row row ->
      fst (store_recursive row pn (NTuple names) (VDict d) false sep st) = Ok tt)
  /\ (forall e,
        fst (store_recursive row pn (NTuple names) (VDict d) false sep st) = Raise e ->
        exists k c x fr, In k names /\ In (c, x) (columns sep k (dict_get k d))
                         /\ fst (loc_set row c x fr) = Raise e).
Proof.
  pose proof (store_names_assigns row pn sep d false names st) as E. cbv iota in E.
  destruct (names_loop row sep d names st) as (Hout & Hin & Hr). cbv zeta in Hout, Hin, Hr.
  rewrite <- E in Hout, Hin, Hr.
  split; [exact E|].
  split; [intros k ->; reflexivity|].
  split; [intros k Hk; apply columns_scalar; exact Hk|].
  split; [exact Hout|]. split; [exact Hin|]. split; [|exact Hr].
  intros Hacc.
  destruct (fst (store_recursive row pn (NTuple names) (VDict d) false sep st))
    as [[]|e] eqn:Ef; [reflexivity|].
  destruct (Hr e eq_refl) as (k & c & x & fr & _ & _ & Hl).
  rewrite (Hacc c x fr) in Hl. discriminate.
Qed.

End FlattenerOutcomes.

Lemma store_mapping_under_names_witness :
  store_recursive "doc" "find_dates" (NTuple PHASES) (VDict two_dates) false "."
    ((DataFrame : journal), {[ "document" := VStr (u "doc.pdf") ]})
  = (Ok tt,
     ([("doc", "received", VStr (u "12 Jan 2020"));
       ("doc", "published", VStr (u "10 Apr 2020"))],
      <["published" := VStr (u "10 Apr 2020")]>
        (<["accepted" := VNone]>
           (<["received" := VStr (u "12 Jan 2020")]>
              {[ "document" := VStr (u "doc.pdf") ]})))).
Proof.
  rewrite (proj1 (store_mapping_under_names "doc" "find_dates" "." PHASES two_dates
                    ((DataFrame : journal), {[ "document" := VStr (u "doc.pdf") ]}))).
  reflexivity.
Defined.

(** ** The driver on the three stages *)








Section DriverOutcomes.
Context {frame : Type} `{Pandas frame}.

Lemma run_parser_failed (key : string) (soup : tag) (p : parser) (st : run_state frame)
    (e : exn) (ctx' : context) :
  p_run p soup (rs_context st) = (Raise e, ctx') ->
  run_parser key soup p st
  = mkRun (rs_frame st) (rs_structured st) ctx' (rs_log st ++ [report_of (p_name p) e]).
Proof. intros E. unfold run_parser. rewrite E. destruct e; reflexivity. Qed.







End DriverOutcomes.


(** ** Preprocessing and the stages *)

Lemma pages_follow_unmarked (ts : list tag) : forall page,
  page <> u "1" ->
  Forall (fun t => page_marker t <> Some (u "1")) ts ->
  pages_follow page ts ->
  Forall (fun t => is_span_on_page_1 t = false) ts.
Proof.
  induction ts as [|t ts IH]; intros page Hp Hm Hf; [constructor|].
  inversion Hm as [|? ? Ht Hts]; subst. cbn [pages_follow] in Hf. destruct Hf as [Hpage Hf].
  assert (Hp' : default page (page_marker t) <> u "1").
  { destruct (page_marker t) as [n|]; cbv [default from_option id]; [|exact Hp].
    intros ->. apply Ht. reflexivity. }
  constructor; [|exact (IH _ Hp' Hts Hf)].
  destruct (is_span_on_page_1 t) eqn:Es; [|reflexivity].
  apply is_span_on_page_1_true in Es as [Hn Hg].
  rewrite Hpage in Hg by (rewrite Hn; discriminate).
  injection Hg as Hg. contradiction.
Qed.

Lemma filter_none {A : Type} (f : A -> bool) (l : list A) :
  Forall (fun a => f a = false) l -> List.filter f l = [].
Proof.
  induction 1 as [|a l Ha _ IH]; [reflexivity|]. cbn [List.filter]. rewrite Ha. exact IH.
Qed.

Section Unmarked.
Context {frame : Type} `{Pandas frame}.

(** X17: a document that went through [preprocess_soup] and has no page marker
    named "1" gives nothing: no tag is a span of page 1, each of the three
    stages raises [InsufficientParser], nothing is asked of the frame and
    the record holds the document name only. *)
Theorem unmarked_document_yields_nothing (soup soup' : tag) (key : string) :
  preprocess_soup soup = Ok soup' ->
  Forall (fun t => page_marker t <> Some (u "1")) (descendants soup') ->
  Forall (fun t => is_span_on_page_1 t = false) (descendants soup')
  /\ handle_sample key soup'
     = (key, Some DataFrame, Some {[ "document" := VStr (u key ++ u ".pdf") ]},
        [CantFind "find_title"; CantFind "find_dates"; CantFind "find_authors"]).
Proof.
  intros E Hm.
  assert (Hpages : pages_follow (u "0") (descendants soup')).
  { unfold preprocess_soup in E.
    destruct (map_state preprocess_node (u "0") (contents soup)) as [[cs1 p]|] eqn:E1;
      [|discriminate].
    cbn [res_bind fst] in E. injection E as <-.
    unfold descendants. cbn [contents].
    refine (proj1 (map_state_pages _ _ _ _ _ E1 _)).
    apply Forall_forall. intros n _. apply preprocess_node_pages. }
  assert (Hspan : Forall (fun t => is_span_on_page_1 t = false) (descendants soup'))
    by (apply (pages_follow_unmarked _ (u "0")); [discriminate|exact Hm|exact Hpages]).
  split; [exact Hspan|].
  assert (Htitle : forall ctx, find_title soup' ctx = (Raise InsufficientParser, ctx)).
  { intros ctx. rewrite find_title_unfold, find_first_miss; [reflexivity|].
    eapply List.Forall_impl; [|exact Hspan]. intros t Ht. apply is_title_false. left. exact Ht. }
  assert (Hdates : forall ctx, find_dates soup' ctx = (Raise InsufficientParser, ctx)).
  { intros ctx. unfold find_dates. rewrite (filter_none _ _ Hspan). reflexivity. }
  assert (Hauthors : forall ctx, find_authors soup' ctx = Raise InsufficientParser).
  { intros ctx. rewrite find_authors_unfold, find_all_none; [reflexivity|].
    eapply List.Forall_impl; [|exact Hspan]. intros t Ht.
    unfold is_namelike. rewrite guard_is_span, Ht. reflexivity. }
  unfold handle_sample, handle_sample_with, PARSERS.
  rewrite !run_parsers_cons. unfold run_parsers. cbn [fold_left].
  erewrite (run_parser_failed key soup' title_stage);
    [|cbn [title_stage p_run rs_context]; unfold bind; rewrite Htitle; reflexivity].
  erewrite (run_parser_failed key soup' dates_stage);
    [|cbn [dates_stage p_run rs_context]; unfold bind; rewrite Hdates; reflexivity].
  erewrite (run_parser_failed key soup' authors_stage);
    [|cbn [authors_stage p_run rs_context]; unfold bind, get_state, lift;
      rewrite Hauthors; reflexivity].
  reflexivity.
Qed.

End Unmarked.

Lemma unmarked_document_yields_nothing_witness :
  exists soup', preprocess_soup unmarked_paper = Ok soup'
    /\ map (fun t => get t "page") (descendants soup') = [Some (u "0"); Some (u "0")]
    /\ handle_sample "doc" soup'
       = ("doc", Some (DataFrame : journal), Some {[ "document" := VStr (u "doc.pdf") ]},
          [CantFind "find_title"; CantFind "find_dates"; CantFind "find_authors"]).
Proof.
  destruct (preprocess_soup unmarked_paper) as [soup'|] eqn:E; [|vm_compute in E; discriminate].
  exists soup'. split; [reflexivity|].
  assert (Hmarks : map page_marker (descendants soup') = [None; None])
    by (vm_compute in E; injection E as <-; reflexivity).
  split; [vm_compute in E; injection E as <-; reflexivity|].
  apply (unmarked_document_yields_nothing unmarked_paper soup' "doc" E).
  revert Hmarks. generalize (descendants soup'). intros l Hl.
  destruct l as [|a [|b [|c l]]]; try discriminate.
  injection Hl as Ha Hb.
  constructor; [congruence|]. constructor; [congruence|]. constructor.
Defined.
